(** * Prompt2Mail: the e-mail sender tools of [server.py] and [main.py]

    A shallow embedding of the two Python modules of the repository
    (the richer tool of [server.py] and the earlier, simpler one of
    [main.py]) and the properties of their composition / delivery
    workflow.

    Python strings are sequences of Unicode code points, so a string is a
    list of code points here; the slice [s[:50]], [str.strip],
    [str.split], [in] and [str.join] are written out on that
    representation.  What lies outside the two modules (the generative
    endpoint, [json.loads], the file system, [smtplib]) is a field of the
    record [World]; every call that reaches the outside is appended to a
    history of events. *)

From Stdlib Require Import String Ascii DecimalString.
From Stdlib Require Import List NArith ZArith Bool Arith Lia.
Import ListNotations.

(* ===================================================================== *)
(** ** Python strings *)
(* ===================================================================== *)

Definition char := N.
Definition str := list char.

(** An ASCII literal of the source as a string of code points. *)
Definition lit (x : string) : str :=
  map N_of_ascii (list_ascii_of_string x).
Arguments lit x%_string.

Definition nl : str := [10%N].            (* "\n" *)
Definition dq : str := [34%N].            (* the double quote *)
Definition check_mark : str := [10003%N]. (* U+2713 *)
Definition cross_mark : str := [10007%N]. (* U+2717 *)

Fixpoint str_eqb (a b : str) : bool :=
  match a, b with
  | [], [] => true
  | x :: a', y :: b' => N.eqb x y && str_eqb a' b'
  | _, _ => false
  end.

(** Truth value of a string or a list: the empty one is false. *)
Definition nonempty {A} (s : list A) : bool :=
  match s with [] => false | _ :: _ => true end.

(** [str.isspace] for one code point (the white space table of CPython). *)
Definition isspace (c : char) : bool :=
  ((9 <=? c) && (c <=? 13) || (28 <=? c) && (c <=? 32) ||
   (c =? 133) || (c =? 160) || (c =? 5760) ||
   (8192 <=? c) && (c <=? 8202) ||
   (c =? 8232) || (c =? 8233) || (c =? 8239) || (c =? 8287) ||
   (c =? 12288))%N.

Fixpoint lstrip (s : str) : str :=
  match s with
  | c :: s' => if isspace c then lstrip s' else s
  | [] => []
  end.

Definition rstrip (s : str) : str := rev (lstrip (rev s)).

(** [s.strip()] *)
Definition strip (s : str) : str := rstrip (lstrip s).

(** [s.startswith(p)] *)
Fixpoint startswith (p s : str) : bool :=
  match p, s with
  | [], _ => true
  | x :: p', y :: s' => N.eqb x y && startswith p' s'
  | _ :: _, [] => false
  end.

(** [sub in s] *)
Fixpoint contains (sub s : str) : bool :=
  startswith sub s ||
  match s with
  | [] => false
  | _ :: s' => contains sub s'
  end.

(** [s.split(sep)] for a non-empty separator (Python raises on an empty
    one; the modules only split on literals).  The scan goes left to
    right; [skip] counts the characters of a separator just matched that
    are still to be passed over, [cur] is the current field, reversed. *)
Fixpoint split_go (sep : str) (skip : nat) (cur : str) (s : str) : list str :=
  match s with
  | [] => [rev cur]
  | c :: s' =>
      match skip with
      | S k => split_go sep k cur s'
      | O =>
          if startswith sep s
          then rev cur :: split_go sep (length sep - 1) [] s'
          else split_go sep 0 (c :: cur) s'
      end
  end.

Definition split (sep s : str) : list str := split_go sep 0 [] s.

(** [s.split(sep, 1)]: at most one cut, at the first occurrence. *)
Fixpoint split1_go (sep : str) (cur : str) (s : str) : option (str * str) :=
  match s with
  | [] => None
  | c :: s' =>
      if startswith sep s
      then Some (rev cur, skipn (length sep) s)
      else split1_go sep (c :: cur) s'
  end.

Definition split1 (sep s : str) : list str :=
  match split1_go sep [] s with
  | Some (a, b) => [a; b]
  | None => [s]
  end.

(** [sep.join(l)] *)
Fixpoint join (sep : str) (l : list str) : str :=
  match l with
  | [] => []
  | [x] => x
  | x :: l' => x ++ sep ++ join sep l'
  end.

(** [s.count(sub)]: the number of non-overlapping occurrences. *)
Definition count (sub s : str) : nat := length (split sub s) - 1.

(** [str(n)] for a natural number. *)
Definition str_of_nat (n : nat) : str :=
  lit (NilEmpty.string_of_uint (Nat.to_uint n)).

(** [sub] occurs in [s], as a proposition. *)
Definition occurs_in (sub s : str) : Prop :=
  exists a b, s = a ++ sub ++ b.

(* ===================================================================== *)
(** ** Python values, exceptions and the outside world *)
(* ===================================================================== *)

#[local] Set Warnings "-register-all".

(** What [json.loads] can return, and so what the enhancement step hands
    to its caller: Python is dynamically typed, the subject of a message
    is whatever the parsed response holds under ["subject"]. *)
Inductive value :=
| PyNone
| PyBool (b : bool)
| PyNum (text : str)                    (* a number, by its [str()] *)
| PyStr (s : str)
| PyList (l : list value)
| PyDict (d : list (str * value)).      (* bindings in insertion order *)

Inductive exn :=
| ValueError (msg : str)
| TypeError (msg : str)
| KeyError (key : str)
| IndexError (msg : str)
| LibraryError (msg : str).     (* raised inside a library call *)

(** [str(e)] *)
Definition str_of_exn (e : exn) : str :=
  match e with
  | ValueError m | TypeError m | IndexError m | LibraryError m => m
  | KeyError k => lit "'" ++ k ++ lit "'"
  end.

(** A surrogate, U+D800 to U+DFFF: a code point UTF-8 has no bytes for. *)
Definition is_surrogate (c : char) : bool :=
  ((55296 <=? c) && (c <=? 57343))%N.

(** The surrogates [s] begins with. *)
Fixpoint surrogate_run (s : str) : nat :=
  match s with
  | c :: s' => if is_surrogate c then S (surrogate_run s') else 0
  | [] => 0
  end.

(** The first surrogate of [s], from position [pos] on: where it is,
    which it is, and how many follow it without a gap. *)
Fixpoint first_surrogate (s : str) (pos : nat) : option (nat * char * nat) :=
  match s with
  | [] => None
  | c :: s' =>
      if is_surrogate c then Some (pos, c, surrogate_run s')
      else first_surrogate s' (S pos)
  end.

Definition hex_digit (n : N) : char :=
  (if n <? 10 then 48 + n else 87 + n)%N.

(** [format(c, "04x")] for a code point below 65536. *)
Definition hex4 (c : char) : str :=
  [ hex_digit (c / 4096 mod 16); hex_digit (c / 256 mod 16);
    hex_digit (c / 16 mod 16); hex_digit (c mod 16) ]%N.

(** What [s.encode("utf-8")] raises, if anything: a [UnicodeEncodeError]
    for the first run of surrogates of [s], with the text CPython gives
    it.  [MIMEText(s, "plain")] encodes its text like this when the text
    is not ASCII, and so does [add_header] with a parameter that is
    not ASCII. *)
Definition utf8_encode_error (s : str) : option exn :=
  match first_surrogate s 0 with
  | None => None
  | Some (pos, c, 0) =>
      Some (LibraryError
              (lit "'utf-8' codec can't encode character '\u" ++ hex4 c
               ++ lit "' in position " ++ str_of_nat pos
               ++ lit ": surrogates not allowed"))
  | Some (pos, _, S more) =>
      Some (LibraryError
              (lit "'utf-8' codec can't encode characters in position "
               ++ str_of_nat pos ++ lit "-" ++ str_of_nat (pos + S more)
               ++ lit ": surrogates not allowed"))
  end.

(** One body part of a MIME message. *)
Inductive part :=
| TextPart (text subtype : str)                       (* MIMEText(text, subtype) *)
| FilePart (maintype subtype : str) (payload : list N) (filename : str).
                         (* MIMEBase, base64 payload, Content-Disposition *)

(** A multipart message: the headers in the order they were set, and
    the attached parts. *)
Record Message := {
  headers : list (str * value);
  parts : list part
}.

(** The calls that reach the outside.  [SendEmailCalled] marks an entry
    into [send_email], so that the attempts of a batch can be told from
    the SMTP traffic they cause. *)
Inductive event :=
| GenerateContent (model prompt : str)
| SendEmailCalled (to_email : str)
| SmtpConnect (host : str) (port : Z)
| SmtpStarttls
| SmtpLogin (user password : option str)
| SmtpSendmail (from_addr : option str) (to_addrs : list str) (msg : Message)
| SmtpQuit.

Definition history := list event.

(** The configuration read from the process environment at import time,
    and the libraries and services the modules call.  A service answers
    from the history so far, so two calls need not agree; the file
    system is read only and stays as it is during one invocation (the
    tools have no concurrent writer). *)
Record World := {
  GEMINI_API_KEY : option str;
  SMTP_SERVER : str;
  SMTP_PORT : Z;
  SMTP_EMAIL : option str;
  SMTP_PASSWORD : option str;
  SENDER_NAME : str;
  module_dir : str;                          (* os.path.dirname(__file__) *)
  (* model.generate_content(prompt) followed by response.text *)
  generate_content : history -> str -> str -> exn + str;
  json_loads : str -> exn + value;
  str_of_value : value -> str;               (* str(v) for a v that is no string *)
  os_path_isfile : str -> bool;
  os_path_isabs : str -> bool;
  os_path_join : str -> str -> str;
  os_path_basename : str -> str;
  guess_type : str -> option str * option str;
  read_binary : str -> exn + list N;         (* open(path, 'rb') and read() *)
  smtp_connect : history -> str -> Z -> option exn;
  smtp_starttls : history -> option exn;
  smtp_login : history -> option str -> option str -> option exn;
  (* what msg.as_string() raises: a header value that is no string, a
     header value with a header line embedded in it, ... *)
  as_string_error : Message -> option exn;
  (* server.sendmail(...) with the message serialised *)
  smtp_sendmail : history -> option str -> list str -> Message -> option exn;
  smtp_quit : history -> option exn;         (* what SMTP.__exit__ raises *)
  set_order : list str -> list str           (* list(set(l)) *)
}.

(** Truth value of an environment setting ([None] and [""] are false). *)
Definition is_set (o : option str) : bool :=
  match o with
  | Some s => nonempty s
  | None => false
  end.

(** Truth value of an optional list ([None] and [[]] are false). *)
Definition truthy {A} (o : option (list A)) : bool :=
  match o with
  | Some (_ :: _) => true
  | _ => false
  end.

Definition or_nil {A} (o : option (list A)) : list A :=
  match o with
  | Some l => l
  | None => []
  end.

(** An environment setting inside an f-string. *)
Definition fmt_opt (o : option str) : str :=
  match o with
  | Some s => s
  | None => lit "None"
  end.

(** A value inside an f-string. *)
Definition fmt (w : World) (v : value) : str :=
  match v with
  | PyStr s => s
  | _ => str_of_value w v
  end.

(* ===================================================================== *)
(** ** Computations: a history of events and Python exceptions *)
(* ===================================================================== *)

Definition M (A : Type) : Type := history -> (exn + A) * history.

Definition ret {A} (a : A) : M A := fun h => (inr a, h).

Definition raise {A} (e : exn) : M A := fun h => (inl e, h).

Definition bind {A B} (m : M A) (k : A -> M B) : M B :=
  fun h =>
    match m h with
    | (inr a, h') => k a h'
    | (inl e, h') => (inl e, h')
    end.

(** [try: m except Exception as e: handler(e)]; what [m] did before it
    raised stays done. *)
Definition try_except {A} (m : M A) (handler : exn -> M A) : M A :=
  fun h =>
    match m h with
    | (inr a, h') => (inr a, h')
    | (inl e, h') => handler e h'
    end.

Definition lift {A} (r : exn + A) : M A := fun h => (r, h).

(** A call to the outside: the event is recorded, the answer is read
    from the history before the call. *)
Definition call {A} (ev : event) (answer : history -> exn + A) : M A :=
  fun h => (answer h, h ++ [ev]).

Definition unit_answer (o : option exn) : exn + unit :=
  match o with
  | Some e => inl e
  | None => inr tt
  end.

Declare Scope py_scope.
Delimit Scope py_scope with py.
Notation "x <- m ;; k" := (bind m (fun x => k))
  (at level 100, m at next level, right associativity) : py_scope.
Notation "m ;;; k" := (bind m (fun _ => k))
  (at level 100, right associativity) : py_scope.
Notation "' pat <- m ;; k" := (bind m (fun x => match x with pat => k end))
  (at level 100, pat pattern, m at next level, right associativity) : py_scope.
Open Scope py_scope.

(** [with smtplib.SMTP(host, port) as server: body].  When the
    connection cannot be opened nothing else happens; otherwise
    [__exit__] runs after the body whether it raised or not, and what
    [__exit__] raises replaces the exception of the body. *)
Definition with_smtp {A} (w : World) (body : M A) : M A :=
  call (SmtpConnect (SMTP_SERVER w) (SMTP_PORT w))
       (fun h => unit_answer (smtp_connect w h (SMTP_SERVER w) (SMTP_PORT w))) ;;;
  fun h =>
    let (r, h1) := body h in
    match call SmtpQuit (fun h' => unit_answer (smtp_quit w h')) h1 with
    | (inl e, h2) => (inl e, h2)
    | (inr _, h2) => (r, h2)
    end.

(* ===================================================================== *)
(** ** What the two modules share word for word *)
(* ===================================================================== *)

(** [l[i]] *)
Definition index {A} (l : list A) (i : nat) : exn + A :=
  match nth_error l i with
  | Some x => inr x
  | None => inl (IndexError (lit "list index out of range"))
  end.

(** [key in result] *)
Definition value_contains (result : value) (key : str) : exn + bool :=
  match result with
  | PyDict d => inr (existsb (fun kv => str_eqb (fst kv) key) d)
  | PyList l =>
      inr (existsb (fun v => match v with
                             | PyStr s => str_eqb s key
                             | _ => false
                             end) l)
  | PyStr s => inr (contains key s)
  | _ => inl (TypeError (lit "argument is not iterable"))
  end.

(** [all(key in result for key in keys)] *)
Fixpoint all_in (result : value) (keys : list str) : exn + bool :=
  match keys with
  | [] => inr true
  | key :: keys' =>
      match value_contains result key with
      | inl e => inl e
      | inr false => inr false
      | inr true => all_in result keys'
      end
  end.

(** [v[key]] for a string key *)
Definition subscript (v : value) (key : str) : exn + value :=
  match v with
  | PyDict d =>
      match find (fun kv => str_eqb (fst kv) key) d with
      | Some (_, x) => inr x
      | None => inl (KeyError key)
      end
  | PyList _ =>
      inl (TypeError (lit "list indices must be integers or slices, not str"))
  | PyStr _ =>
      inl (TypeError (lit "string indices must be integers, not 'str'"))
  | _ => inl (TypeError (lit "object is not subscriptable"))
  end.

Definition required_keys : list str :=
  [lit "subject"; lit "greeting"; lit "body"; lit "closing"].

Definition fence_json : str := lit "```json".
Definition fence : str := lit "```".

(** The text between the code fences, when there are any. *)
Definition extract_json (text : str) : exn + str :=
  if contains fence_json text then
    match index (split fence_json text) 1 with
    | inl e => inl e
    | inr t =>
        match index (split fence t) 0 with
        | inl e => inl e
        | inr t' => inr (strip t')
        end
    end
  else if contains fence text then
    match index (split fence text) 1 with
    | inl e => inl e
    | inr t =>
        match index (split fence t) 0 with
        | inl e => inl e
        | inr t' => inr (strip t')
        end
    end
  else inr text.

Definition q (x : string) : str := dq ++ lit x ++ dq.
Arguments q x%_string.

(** The instruction sent to the endpoint; [greeting_instruction] is
    empty in [main.py]. *)
Definition prompt (main_idea tone greeting_instruction : str) : str :=
  lit "You are a professional email writing assistant. Given a short main idea, create a polished, concise, and natural-sounding email."
  ++ nl ++ nl
  ++ lit "Main idea: " ++ main_idea ++ nl
  ++ lit "Tone: " ++ tone ++ greeting_instruction ++ nl
  ++ nl
  ++ lit "Generate a complete professional email with:" ++ nl
  ++ lit "1. A clear, specific subject line (no " ++ q "Subject:" ++ lit " prefix)" ++ nl
  ++ lit "2. Appropriate greeting" ++ nl
  ++ lit "3. Well-structured body (2-4 sentences, clear and concise)" ++ nl
  ++ lit "4. Professional closing" ++ nl
  ++ nl
  ++ lit "Return ONLY a valid JSON object with these exact keys: "
  ++ q "subject" ++ lit ", " ++ q "greeting" ++ lit ", " ++ q "body"
  ++ lit ", " ++ q "closing" ++ nl
  ++ nl
  ++ lit "Example format:" ++ nl
  ++ lit "{" ++ q "subject" ++ lit ": " ++ q "Project Update - Q4 Results"
  ++ lit ", " ++ q "greeting" ++ lit ": " ++ q "Hello,"
  ++ lit ", " ++ q "body" ++ lit ": "
  ++ q "I wanted to share some exciting news about our Q4 performance. Our team exceeded targets by 15% and secured three new major clients. The detailed report is attached for your review."
  ++ lit ", " ++ q "closing" ++ lit ": " ++ q "Best regards" ++ lit "}" ++ nl
  ++ nl
  ++ lit "Now generate the email:".

(** The dictionary of the [except] branch. *)
Definition fallback (main_idea : str) : value :=
  PyDict
    [ (lit "subject", PyStr (lit "Update: " ++ firstn 50 main_idea));
      (lit "greeting", PyStr (lit "Hello,"));
      (lit "body",
       PyStr (lit "I wanted to reach out regarding: " ++ main_idea ++ nl ++ nl
              ++ lit "Please let me know if you have any questions."));
      (lit "closing", PyStr (lit "Best regards")) ].

(** From the model's answer to the validated result: the lines of the
    [try] block after the call. *)
Definition parse_response (w : World) (response_text : str) : exn + value :=
  match extract_json (strip response_text) with
  | inl e => inl e
  | inr text =>
      match json_loads w text with
      | inl e => inl e
      | inr result =>
          match all_in result required_keys with
          | inl e => inl e
          | inr false =>
              inl (ValueError (lit "Missing required keys in AI response"))
          | inr true => inr result
          end
      end
  end.

(** [[x.strip() for x in s.split(",") if x.strip()]] *)
Definition parse_list (s : str) : list str :=
  map strip (filter (fun x => nonempty (strip x)) (split (lit ",") s)).

(** [parse_list(s) if s else None] *)
Definition parse_optional_list (s : str) : option (list str) :=
  if nonempty s then Some (parse_list s) else None.

(** A delivery outcome: the dictionary [send_email] returns.  The keys
    ["attached"] and ["missing"] are absent from some of them. *)
Record result := {
  status : str;
  message : str;
  attached : option (list str);
  missing : option (list str)
}.

Definition is_success (r : result) : bool := str_eqb (status r) (lit "success").

(** [sum(1 for r in results if r["status"] == "success")] *)
Definition success_count (results : list result) : nat :=
  length (filter is_success results).

(** [len(results) - success_count] *)
Definition failed_count (results : list result) : nat :=
  length results - success_count results.

(** The three one-line answers of the input checks. *)
Definition no_recipients : str := lit "Error: No valid recipients provided".
Definition no_main_idea : str := lit "Error: No main idea provided".
Definition no_credentials : str :=
  lit "Error: SMTP credentials not configured. Please set SMTP_EMAIL and SMTP_PASSWORD in .env file".

(** [if o: l.extend(o)] *)
Definition extend_if {A} (l : list A) (o : option (list A)) : list A :=
  if truthy o then l ++ or_nil o else l.

(** [MIMEMultipart()] with the headers [send_email] sets on it. *)
Definition new_message (w : World) (to_email : str) (subject : value)
    (cc : option (list str)) : list (str * value) :=
  [ (lit "Content-Type", PyStr (lit "multipart/mixed"));
    (lit "MIME-Version", PyStr (lit "1.0"));
    (lit "From",
     PyStr (SENDER_NAME w ++ lit " <" ++ fmt_opt (SMTP_EMAIL w) ++ lit ">"));
    (lit "To", PyStr to_email);
    (lit "Subject", subject) ]
  ++ (if truthy cc then [(lit "Cc", PyStr (join (lit ", ") (or_nil cc)))] else []).

(** The SMTP session of [send_email]: STARTTLS, login, one [sendmail]
    to the primary recipient, the copies and the blind copies.  The
    message is serialised, as an argument of [sendmail], before
    [sendmail] is entered: when [as_string] raises, nothing is handed to
    the relay. *)
Definition smtp_session (w : World) (to_email : str)
    (cc bcc : option (list str)) (msg : Message) : M unit :=
  with_smtp w
    (call SmtpStarttls (fun h => unit_answer (smtp_starttls w h)) ;;;
     call (SmtpLogin (SMTP_EMAIL w) (SMTP_PASSWORD w))
          (fun h => unit_answer
                      (smtp_login w h (SMTP_EMAIL w) (SMTP_PASSWORD w))) ;;;
     let recipients := extend_if (extend_if [to_email] cc) bcc in
     lift (unit_answer (as_string_error w msg)) ;;;
     call (SmtpSendmail (SMTP_EMAIL w) recipients msg)
          (fun h => unit_answer
                      (smtp_sendmail w h (SMTP_EMAIL w) recipients msg))).

(** [subject = enhanced["subject"]], then the same for ["greeting"],
    ["body"] and ["closing"]. *)
Definition four_fields (enhanced : value)
    : exn + (value * value * value * value) :=
  match subscript enhanced (lit "subject") with
  | inl e => inl e
  | inr subject =>
      match subscript enhanced (lit "greeting") with
      | inl e => inl e
      | inr greeting =>
          match subscript enhanced (lit "body") with
          | inl e => inl e
          | inr body_text =>
              match subscript enhanced (lit "closing") with
              | inl e => inl e
              | inr closing => inr (subject, greeting, body_text, closing)
              end
          end
      end
  end.

(** The dictionary of the [except] branch of [send_email]. *)
Definition failed_to_send (to_email : str) (e : exn) : result :=
  {| status := lit "error";
     message := lit "Failed to send to " ++ to_email ++ lit ": "
                ++ str_of_exn e;
     attached := None;
     missing := None |}.

(** [f"{greeting}\n\n{body_text}\n\n{closing},\n{SENDER_NAME}"] *)
Definition full_body_of (w : World) (greeting body_text closing : value) : str :=
  fmt w greeting ++ nl ++ nl ++ fmt w body_text ++ nl ++ nl
  ++ fmt w closing ++ lit "," ++ nl ++ SENDER_NAME w.

(* ===================================================================== *)
(** ** server.py *)
(* ===================================================================== *)

Module Server.

Definition greeting_instruction (recipient_name : str) : str :=
  if nonempty recipient_name
  then nl ++ lit "Recipient name: " ++ recipient_name ++ nl
       ++ lit "Use a personalized greeting with their name (e.g., 'Dear "
       ++ recipient_name ++ lit ",' or 'Hi " ++ recipient_name ++ lit ",')"
  else [].

Definition model_name : str := lit "gemini-2.5-flash".

(** The [try] block of [enhance_email_with_ai]. *)
Definition enhance_try (w : World) (main_idea tone recipient_name : str)
    : M value :=
  let prompt := prompt main_idea tone (greeting_instruction recipient_name) in
  (if negb (is_set (GEMINI_API_KEY w))
   then raise (ValueError (lit "Gemini API key not configured"))
   else ret tt) ;;;
  text <- call (GenerateContent model_name prompt)
               (fun h => generate_content w h model_name prompt) ;;
  lift (parse_response w text).

Definition enhance_email_with_ai (w : World)
    (main_idea tone recipient_name : str) : M value :=
  try_except (enhance_try w main_idea tone recipient_name)
             (fun _ => ret (fallback main_idea)).

(** [mimetypes.guess_type], with the generic binary type when the type
    is unknown or the file is encoded. *)
Definition content_type (w : World) (file_path : str) : str :=
  let (ctype, encoding) := guess_type w file_path in
  match ctype, encoding with
  | Some c, None => c
  | _, _ => lit "application/octet-stream"
  end.

(** The loop over the attachment paths: the parts built so far, the
    names attached and the paths found missing.  For a file that is
    there, the content type is split, the file is read, and its name is
    put into the [Content-Disposition] header, which encodes it. *)
Fixpoint attach_files (w : World) (files : list str)
    (acc : list part * list str * list str)
    : exn + (list part * list str * list str) :=
  match files with
  | [] => inr acc
  | file_path :: rest =>
      let '(ps, attached_files, missing_files) := acc in
      if negb (os_path_isfile w file_path)
      then attach_files w rest (ps, attached_files, missing_files ++ [file_path])
      else
        match split1 (lit "/") (content_type w file_path) with
        | [maintype; subtype] =>
            match read_binary w file_path with
            | inl e => inl e
            | inr data =>
                let name := os_path_basename w file_path in
                match utf8_encode_error name with
                | Some e => inl e
                | None =>
                    attach_files w rest
                      (ps ++ [FilePart maintype subtype data name],
                       attached_files ++ [name], missing_files)
                end
            end
        | _ => inl (ValueError
                      (lit "not enough values to unpack (expected 2, got 1)"))
        end
  end.

Definition success_message (w : World) (to_email : str)
    (attached_files missing_files : list str) : str :=
  lit "Email sent to " ++ to_email
  ++ (if nonempty attached_files
      then lit " (Attached: " ++ join (lit ", ") attached_files ++ lit ")"
      else [])
  ++ (if nonempty missing_files
      then lit " (Missing files: "
           ++ join (lit ", ") (map (os_path_basename w) missing_files)
           ++ lit ")"
      else []).

(** [if attachments: for file_path in attachments: ...] *)
Definition prepare (w : World) (attachments : option (list str))
    : exn + (list part * list str * list str) :=
  if truthy attachments
  then attach_files w (or_nil attachments) ([], [], [])
  else inr ([], [], []).

Definition send_email (w : World) (to_email : str) (subject : value)
    (body : str) (cc bcc attachments : option (list str)) : M result :=
  call (SendEmailCalled to_email) (fun _ => inr tt) ;;;
  try_except
    (lift (unit_answer (utf8_encode_error body)) ;;;   (* MIMEText(body, 'plain') *)
     '(ps, attached_files, missing_files) <- lift (prepare w attachments) ;;
     let msg := {| headers := new_message w to_email subject cc;
                   parts := TextPart body (lit "plain") :: ps |} in
     smtp_session w to_email cc bcc msg ;;;
     ret {| status := lit "success";
            message := success_message w to_email attached_files missing_files;
            attached := Some attached_files;
            missing := Some missing_files |})
    (fun e => ret (failed_to_send to_email e)).

(** One entry of [email_contents]. *)
Record content := {
  content_recipient : option str;
  content_subject : value;
  content_body : str
}.

(** [while len(name_list) < len(recipient_list): name_list.append("")];
    [n] rounds are enough for a list of [n] recipients. *)
Fixpoint pad_names (rounds : nat) (name_list : list str) (n : nat) : list str :=
  match rounds with
  | O => name_list
  | S rounds' =>
      if length name_list <? n
      then pad_names rounds' (name_list ++ [[]]) n
      else name_list
  end.

Definition recipient_list_of (recipients : str) : list str :=
  parse_list recipients.

Definition name_list_of (recipients recipient_names : str) : list str :=
  let recipient_list := recipient_list_of recipients in
  let name_list :=
    if nonempty recipient_names then parse_list recipient_names else [] in
  pad_names (length recipient_list) name_list (length recipient_list).

(** The recipients with their names, as the delivery loop walks them. *)
Definition pairing (recipients recipient_names : str) : list (str * str) :=
  combine (recipient_list_of recipients)
          (name_list_of recipients recipient_names).

(** A relative path is made relative to the directory of the module. *)
Definition resolve (w : World) (path : str) : str :=
  if negb (os_path_isabs w path)
  then os_path_join w (module_dir w) path
  else path.

Definition attachment_list_of (w : World) (attachments : str)
    : option (list str) :=
  let attachment_list :=
    if nonempty attachments
    then map (resolve w)
             (filter nonempty (map strip (split (lit ",") attachments)))
    else [] in
  if nonempty attachment_list then Some attachment_list else None.

(** What the [except] branch of the delivery loop appends to [results]
    and to [email_contents]. *)
Definition error_for (recipient : str) (e : exn) : result * content :=
  ({| status := lit "error";
      message := lit "Error for " ++ recipient ++ lit ": " ++ str_of_exn e;
      attached := None;
      missing := None |},
   {| content_recipient := Some recipient;
      content_subject := PyStr (lit "Error");
      content_body := str_of_exn e |}).

(** The body of the delivery loop for one recipient. *)
Definition deliver_one (w : World) (main_idea tone : str)
    (cc_list bcc_list attachment_list : option (list str))
    (recipient recipient_name : str) : M (result * content) :=
  try_except
    (enhanced <- enhance_email_with_ai w main_idea tone recipient_name ;;
     '(subject, greeting, body_text, closing) <- lift (four_fields enhanced) ;;
     let full_body := full_body_of w greeting body_text closing in
     result <- send_email w recipient subject full_body
                 cc_list bcc_list attachment_list ;;
     ret (result,
          {| content_recipient := Some recipient;
             content_subject := subject;
             content_body := full_body |}))
    (fun e => ret (error_for recipient e)).

Fixpoint deliver_all (w : World) (main_idea tone : str)
    (cc_list bcc_list attachment_list : option (list str))
    (pairs : list (str * str))
    (results : list result) (email_contents : list content)
    : M (list result * list content) :=
  match pairs with
  | [] => ret (results, email_contents)
  | (recipient, recipient_name) :: rest =>
      '(r, c) <- deliver_one w main_idea tone cc_list bcc_list
                   attachment_list recipient recipient_name ;;
      deliver_all w main_idea tone cc_list bcc_list attachment_list rest
                  (results ++ [r]) (email_contents ++ [c])
  end.

(** The per-recipient part of the report: the loop over
    [enumerate(zip(recipient_list, results))], from index [i] on. *)
Fixpoint status_lines (name_list : list str) (i : nat)
    (rows : list (str * result)) : str :=
  match rows with
  | [] => []
  | (recipient, r) :: rest =>
      let status_icon := if is_success r then check_mark else cross_mark in
      let name_info :=
        if (i <? length name_list) && nonempty (nth i name_list [])
        then lit " (" ++ nth i name_list [] ++ lit ")"
        else [] in
      (nl ++ status_icon ++ lit " " ++ recipient ++ name_info ++ lit ": "
          ++ message r)
      ++ (status_icon ++ lit " " ++ recipient ++ lit ": " ++ message r ++ nl)
      ++ status_lines name_list (S i) rest
  end.

Definition report_head (w : World) (first_content : content)
    (recipient_list : list str) (results : list result) : str :=
  check_mark ++ lit " Email Sent Successfully" ++ nl
  ++ nl
  ++ lit "Subject: " ++ fmt w (content_subject first_content) ++ nl
  ++ lit "Recipients: " ++ str_of_nat (length recipient_list)
  ++ lit " (" ++ str_of_nat (success_count results) ++ lit " sent, "
  ++ str_of_nat (failed_count results) ++ lit " failed)" ++ nl
  ++ nl
  ++ lit "--- Sample Email Content (first recipient) ---" ++ nl
  ++ content_body first_content ++ nl
  ++ lit "--------------------" ++ nl
  ++ nl
  ++ lit "Delivery Status:" ++ nl.

(** The names gathered under [key] from the results that have it,
    without duplicates. *)
Definition gather (w : World) (key : result -> option (list str))
    (results : list result) : list str :=
  set_order w
    (concat (map (fun r => if truthy (key r) then or_nil (key r) else [])
                 results)).

Definition report_tail (w : World) (cc_list bcc_list : option (list str))
    (results : list result) : str :=
  let all_attached := gather w attached results in
  let all_missing := gather w missing results in
  (if truthy cc_list
   then nl ++ lit "CC: " ++ join (lit ", ") (or_nil cc_list) else [])
  ++ (if truthy bcc_list
      then nl ++ lit "BCC: " ++ join (lit ", ") (or_nil bcc_list) else [])
  ++ (if nonempty all_attached
      then nl ++ nl ++ check_mark ++ lit " Attachments Sent: "
           ++ join (lit ", ") all_attached
      else [])
  ++ (if nonempty all_missing
      then nl ++ nl ++ cross_mark ++ lit " Missing Files (not attached): "
           ++ join (lit ", ") all_missing
           ++ nl ++ lit "   Please check file paths. Use 'list_attachments' tool to browse available files."
      else []).

Definition send_professional_email (w : World)
    (main_idea recipients tone cc bcc attachments recipient_names : str)
    : M str :=
  let recipient_list := recipient_list_of recipients in
  let name_list := name_list_of recipients recipient_names in
  let cc_list := parse_optional_list cc in
  let bcc_list := parse_optional_list bcc in
  let attachment_list := attachment_list_of w attachments in
  if negb (nonempty recipient_list) then ret no_recipients
  else if negb (nonempty main_idea) then ret no_main_idea
  else if negb (is_set (SMTP_EMAIL w)) || negb (is_set (SMTP_PASSWORD w))
  then ret no_credentials
  else
    '(results, email_contents) <-
       deliver_all w main_idea tone cc_list bcc_list attachment_list
                   (pairing recipients recipient_names) [] [] ;;
    let first_content :=
      match email_contents with
      | c :: _ => c
      | [] => {| content_recipient := None;
                 content_subject := PyStr (lit "N/A");
                 content_body := lit "N/A" |}
      end in
    ret (report_head w first_content recipient_list results
         ++ status_lines name_list 0 (combine recipient_list results)
         ++ report_tail w cc_list bcc_list results).

(** [save_temp_file] stores an upload under this directory. *)
Definition temp_dir (w : World) : str :=
  os_path_join w (module_dir w) (lit "temp_attachments").

(** The path [save_temp_file] writes [filename] to. *)
Definition saved_path (w : World) (filename : str) : str :=
  os_path_join w (temp_dir w) filename.

End Server.

(* ===================================================================== *)
(** ** main.py *)
(* ===================================================================== *)

Module Main.

Definition model_name : str := lit "gemini-1.5-flash".

(** The two status marks as the file stores them: the three code
    points U+00E2 U+0153 U+201C and U+00E2 U+0153 U+2014. *)
Definition check_mark : str := [226%N; 339%N; 8220%N].
Definition cross_mark : str := [226%N; 339%N; 8212%N].

(** The [try] block of [enhance_email_with_ai]. *)
Definition enhance_try (w : World) (main_idea tone : str) : M value :=
  let prompt := prompt main_idea tone [] in
  text <- call (GenerateContent model_name prompt)
               (fun h => generate_content w h model_name prompt) ;;
  lift (parse_response w text).

Definition enhance_email_with_ai (w : World) (main_idea tone : str)
    : M value :=
  try_except (enhance_try w main_idea tone)
             (fun _ => ret (fallback main_idea)).

Definition send_email (w : World) (to_email : str) (subject : value)
    (body : str) (cc bcc : option (list str)) : M result :=
  call (SendEmailCalled to_email) (fun _ => inr tt) ;;;
  try_except
    (lift (unit_answer (utf8_encode_error body)) ;;;   (* MIMEText(body, 'plain') *)
     let msg := {| headers := new_message w to_email subject cc;
                   parts := [TextPart body (lit "plain")] |} in
     smtp_session w to_email cc bcc msg ;;;
     ret {| status := lit "success";
            message := lit "Email sent to " ++ to_email;
            attached := None;
            missing := None |})
    (fun e => ret (failed_to_send to_email e)).

(** [for recipient in recipient_list: results.append(send_email(...))] *)
Fixpoint send_all (w : World) (subject : value) (full_body : str)
    (cc_list bcc_list : option (list str)) (recipient_list : list str)
    (results : list result) : M (list result) :=
  match recipient_list with
  | [] => ret results
  | recipient :: rest =>
      r <- send_email w recipient subject full_body cc_list bcc_list ;;
      send_all w subject full_body cc_list bcc_list rest (results ++ [r])
  end.

Fixpoint status_lines (rows : list (str * result)) : str :=
  match rows with
  | [] => []
  | (recipient, r) :: rest =>
      let status_icon := if is_success r then check_mark else cross_mark in
      (status_icon ++ lit " " ++ recipient ++ lit ": " ++ message r ++ nl)
      ++ status_lines rest
  end.

Definition report_head (w : World) (subject : value) (full_body : str)
    (recipient_list : list str) (results : list result) : str :=
  check_mark ++ lit " Email Sent Successfully" ++ nl
  ++ nl
  ++ lit "Subject: " ++ fmt w subject ++ nl
  ++ lit "Recipients: " ++ str_of_nat (length recipient_list)
  ++ lit " (" ++ str_of_nat (success_count results) ++ lit " sent, "
  ++ str_of_nat (failed_count results) ++ lit " failed)" ++ nl
  ++ nl
  ++ lit "--- Email Content ---" ++ nl
  ++ full_body ++ nl
  ++ lit "--------------------" ++ nl
  ++ nl
  ++ lit "Delivery Status:" ++ nl.

Definition report_tail (cc_list bcc_list : option (list str)) : str :=
  (if truthy cc_list
   then nl ++ lit "CC: " ++ join (lit ", ") (or_nil cc_list) else [])
  ++ (if truthy bcc_list
      then nl ++ lit "BCC: " ++ join (lit ", ") (or_nil bcc_list) else []).

(** The enhancement step of the tool: the subject and the full body, or
    the exception its [try] block stops on. *)
Definition compose (w : World) (main_idea tone : str) : M (value * str) :=
  enhanced <- enhance_email_with_ai w main_idea tone ;;
  '(subject, greeting, body_text, closing) <- lift (four_fields enhanced) ;;
  ret (subject, full_body_of w greeting body_text closing).

Definition send_professional_email (w : World)
    (main_idea recipients tone cc bcc : str) : M str :=
  let recipient_list := parse_list recipients in
  let cc_list := parse_optional_list cc in
  let bcc_list := parse_optional_list bcc in
  if negb (nonempty recipient_list) then ret no_recipients
  else if negb (nonempty main_idea) then ret no_main_idea
  else if negb (is_set (SMTP_EMAIL w)) || negb (is_set (SMTP_PASSWORD w))
  then ret no_credentials
  else
    fun h =>
      match compose w main_idea tone h with
      | (inl e, h1) => (inr (lit "Error enhancing email: " ++ str_of_exn e), h1)
      | (inr (subject, full_body), h1) =>
          (results <- send_all w subject full_body cc_list bcc_list
                        recipient_list [] ;;
           ret (report_head w subject full_body recipient_list results
                ++ status_lines (combine recipient_list results)
                ++ report_tail cc_list bcc_list)) h1
      end.

End Main.

(* ===================================================================== *)
(** ** Worlds to run the tools in *)
(* ===================================================================== *)

(** [posixpath]: [isabs], [join] of two components, [basename]. *)
Module posixpath.

Definition sep : str := lit "/".

Definition isabs (p : str) : bool := startswith sep p.

Definition endswith_sep (p : str) : bool :=
  match rev p with
  | c :: _ => N.eqb c 47
  | [] => false
  end.

Definition join (a b : str) : str :=
  if startswith sep b then b
  else if negb (nonempty a) || endswith_sep a then a ++ b
  else a ++ sep ++ b.

Definition basename (p : str) : str :=
  last (split sep p) [].

End posixpath.

(** A header the generator writes without complaint: [None], or one
    line of text without surrogates. *)
Definition plain_header (kv : str * value) : bool :=
  match snd kv with
  | PyStr s =>
      forallb (fun c => negb ((c =? 10)%N || (c =? 13)%N || is_surrogate c)) s
  | PyNone => true
  | _ => false
  end.

(** An [as_string] that writes the messages whose headers are plain and
    refuses the others. *)
Definition plain_as_string (msg : Message) : option exn :=
  if forallb plain_header (headers msg) then None
  else Some (LibraryError (lit "header value cannot be written")).

(** A world whose endpoint and relay answer as given, on a POSIX file
    system holding the files [files]. *)
Definition mk_world (key : option str)
    (answer : history -> str -> exn + str)
    (loads : str -> exn + value)
    (files : list str)
    (sendmail : list str -> option exn) : World :=
  {| GEMINI_API_KEY := key;
     SMTP_SERVER := lit "smtp.gmail.com";
     SMTP_PORT := 587%Z;
     SMTP_EMAIL := Some (lit "me@x.com");
     SMTP_PASSWORD := Some (lit "secret");
     SENDER_NAME := lit "Professional Sender";
     module_dir := lit "/srv/app";
     generate_content := fun h _ p => answer h p;
     json_loads := loads;
     str_of_value := fun _ => lit "<value>";
     os_path_isfile := fun p => existsb (str_eqb p) files;
     os_path_isabs := posixpath.isabs;
     os_path_join := posixpath.join;
     os_path_basename := posixpath.basename;
     guess_type := fun _ => (None, None);
     read_binary := fun _ => inr [];
     smtp_connect := fun _ _ _ => None;
     smtp_starttls := fun _ => None;
     smtp_login := fun _ _ _ => None;
     as_string_error := plain_as_string;
     smtp_sendmail := fun _ _ to_addrs _ => sendmail to_addrs;
     smtp_quit := fun _ => None;
     set_order := nodup (list_eq_dec N.eq_dec) |}.

(** The endpoint is not configured; the relay accepts every message. *)
Definition offline_world : World :=
  mk_world None (fun _ _ => inl (LibraryError (lit "unreachable")))
           (fun _ => inl (LibraryError (lit "Expecting value")))
           [] (fun _ => None).

(** As [offline_world], but the relay refuses mail for [b@x.com]. *)
Definition refusing_world : World :=
  mk_world None (fun _ _ => inl (LibraryError (lit "unreachable")))
           (fun _ => inl (LibraryError (lit "Expecting value")))
           []
           (fun to_addrs =>
              if existsb (str_eqb (lit "b@x.com")) to_addrs
              then Some (LibraryError (lit "recipient refused"))
              else None).

(** A [json.loads] that knows one document. *)
Definition loads_only (text : str) (v : value) : str -> exn + value :=
  fun t => if str_eqb t text then inr v
           else inl (LibraryError (lit "Expecting value")).

(** The array of the four key names, as JSON text. *)
Definition array_text : str :=
  lit "[" ++ q "subject" ++ lit ", " ++ q "greeting" ++ lit ", "
  ++ q "body" ++ lit ", " ++ q "closing" ++ lit "]".

(** The endpoint answers with the JSON array of the four key names. *)
Definition array_world : World :=
  mk_world (Some (lit "key"))
           (fun _ _ => inr array_text)
           (loads_only array_text (PyList (map PyStr required_keys)))
           [] (fun _ => None).

Definition sample_object : list (str * value) :=
  [ (lit "subject", PyStr (lit "Launch"));
    (lit "greeting", PyStr (lit "Hi Alice,"));
    (lit "body", PyStr (lit "The dashboard is live."));
    (lit "closing", PyStr (lit "Cheers")) ].

(** [sample_object] as JSON text. *)
Definition sample_text : str :=
  lit "{" ++ q "subject" ++ lit ": " ++ q "Launch" ++ lit ", "
  ++ q "greeting" ++ lit ": " ++ q "Hi Alice," ++ lit ", "
  ++ q "body" ++ lit ": " ++ q "The dashboard is live." ++ lit ", "
  ++ q "closing" ++ lit ": " ++ q "Cheers" ++ lit "}".

(** The answer of the endpoint in [online_world]: the object, fenced. *)
Definition sample_answer : str :=
  lit "```json" ++ nl ++ sample_text ++ nl ++ lit "```".

(** The endpoint answers with a fenced JSON object of the four keys. *)
Definition online_world : World :=
  mk_world (Some (lit "key"))
           (fun _ _ => inr sample_answer)
           (loads_only sample_text (PyDict sample_object))
           [] (fun _ => None).

(** The upload [report.pdf] lies in the staging directory only, and the
    relay is down. *)
Definition staged_world : World :=
  mk_world None (fun _ _ => inl (LibraryError (lit "unreachable")))
           (fun _ => inl (LibraryError (lit "Expecting value")))
           [lit "/srv/app/temp_attachments/report.pdf"]
           (fun _ => Some (LibraryError (lit "connection lost"))).

(* ===================================================================== *)
(** ** Reading a history *)
(* ===================================================================== *)

(** What a run added to the history [h] it started from. *)
Definition new_events (h h' : history) : list event := skipn (length h) h'.

(** The recipients [send_email] was entered for, in order. *)
Fixpoint attempts (evs : list event) : list str :=
  match evs with
  | [] => []
  | SendEmailCalled to_email :: evs' => to_email :: attempts evs'
  | _ :: evs' => attempts evs'
  end.

(** The prompts sent to the endpoint, in order. *)
Fixpoint prompts (evs : list event) : list str :=
  match evs with
  | [] => []
  | GenerateContent _ p :: evs' => p :: prompts evs'
  | _ :: evs' => prompts evs'
  end.

Definition header_names (msg : Message) : list str := map fst (headers msg).

(** The file names of the attachment parts of a message. *)
Fixpoint file_names (ps : list part) : list str :=
  match ps with
  | [] => []
  | FilePart _ _ _ name :: ps' => name :: file_names ps'
  | TextPart _ _ :: ps' => file_names ps'
  end.

(** An outcome that comes from [send_email], not from the [except]
    branch of the delivery loop. *)
Definition attempted (r : result) : bool :=
  negb (startswith (lit "Error for ") (message r)).

(** Every answer that parses is a JSON object. *)
Definition object_answers (w : World) : Prop :=
  forall t v, json_loads w t = inr v -> exists d, v = PyDict d.

Definition status_icon (r : result) : str :=
  if is_success r then check_mark else cross_mark.

(** An existing file can be turned into a part: its content type has
    a main type and a subtype, it can be read, and its name can be
    encoded. *)
Definition loadable (w : World) (file_path : str) : bool :=
  match split1 (lit "/") (Server.content_type w file_path),
        read_binary w file_path,
        utf8_encode_error (os_path_basename w file_path) with
  | [_; _], inr _, None => true
  | _, _, _ => false
  end.

Definition is_missing (w : World) (file_path : str) : bool :=
  negb (os_path_isfile w file_path).

(** A parsed value does not get through the key check: an object that
    lacks a required key; an array without one of the four key names
    among its elements; a string in which one of the names does not
    occur; anything else, on which the check raises. *)
Definition fails_key_check (v : value) : Prop :=
  match v with
  | PyDict d => exists key, In key required_keys /\ ~ In key (map fst d)
  | PyList l => exists key, In key required_keys /\ ~ In (PyStr key) l
  | PyStr s => exists key, In key required_keys /\ ~ occurs_in key s
  | _ => True
  end.

(** The call of the endpoint comes to nothing: it raises (unreachable,
    no text in the response), or what is left of its answer once the
    code fences are off does not parse, or the parsed value does not
    get through the key check. *)
Definition answer_fails (w : World) (answer : exn + str) : Prop :=
  match answer with
  | inl _ => True
  | inr text =>
      exists t,
        extract_json (strip text) = inr t /\
        match json_loads w t with
        | inl _ => True
        | inr v => fails_key_check v
        end
  end.

(** The relay lets the client in: it takes the connection, STARTTLS and
    the login whenever it is asked. *)
Definition relay_lets_in (w : World) : Prop :=
  forall h,
    smtp_connect w h (SMTP_SERVER w) (SMTP_PORT w) = None /\
    smtp_starttls w h = None /\
    smtp_login w h (SMTP_EMAIL w) (SMTP_PASSWORD w) = None.

(** A message that [sendmail] is given in [offline_world]. *)
Definition sample_message : Message :=
  {| headers := new_message offline_world (lit "a@x.com") (PyStr (lit "S"))
                            (Some [lit "c@x.com"]);
     parts := [TextPart (lit "B") (lit "plain")] |}.

(** The names of the headers [send_email] ever sets. *)
Definition written_headers : list str :=
  [ lit "Content-Type"; lit "MIME-Version"; lit "From"; lit "To";
    lit "Subject"; lit "Cc" ].

(** What the loop records for a recipient whose enhancement result
    cannot be indexed. *)
Definition recorded_error (recipient : str) (r : result) : Prop :=
  is_success r = false /\
  startswith (lit "Error for " ++ recipient) (message r) = true.

(** The first line of [server.py]'s report. *)
Definition success_header : str :=
  check_mark ++ lit " Email Sent Successfully" ++ nl.


(** The status entry of one recipient. *)
Definition status_entry (recipient : str) (r : result) : str :=
  status_icon r ++ lit " " ++ recipient ++ lit ": " ++ message r.

(** The first line of [main.py]'s report, as the file stores it. *)
Definition main_success_header : str :=
  Main.check_mark ++ lit " Email Sent Successfully" ++ nl.

(** The pieces of the [attachments] argument that name a path. *)
Definition path_pieces (attachments : str) : list str :=
  filter nonempty (map strip (split (lit ",") attachments)).

(* ===================================================================== *)
(** ** server.py: the file tools *)
(* ===================================================================== *)

(** [str(n)] for a size. *)
Definition str_of_N (n : N) : str :=
  lit (NilEmpty.string_of_uint (N.to_uint n)).

(** The digits of a number, last digit first, with a comma after every
    third one that has a digit after it; [k] digits of the current
    group are out. *)
Fixpoint group_rev (digits : str) (k : nat) : str :=
  match digits with
  | [] => []
  | digit :: rest =>
      match k with
      | 3 => 44%N :: digit :: group_rev rest 1
      | _ => digit :: group_rev rest (S k)
      end
  end.

(** [f"{n:,}"] *)
Definition with_commas (n : N) : str :=
  rev (group_rev (rev (str_of_N n)) 0).

(** What the file tools ask of the machine besides what [World] has:
    directories, sizes, and the library calls of [save_temp_file].  A
    [Disk] is the state of the machine at one time; a write gives
    another. *)
Record Disk := {
  os_path_isdir : str -> bool;
  os_path_exists : str -> bool;
  os_listdir : str -> exn + list str;
  os_path_getsize : str -> exn + N;
  os_makedirs : str -> option exn;
  (* what open(path, 'wb') or open(path, 'w', encoding='utf-8') raises *)
  open_for_writing : str -> option exn;
  base64_b64decode : str -> exn + list N;
  (* the bytes f.write(content) puts into a utf-8 text file *)
  text_bytes : str -> exn + list N;
  format_mb : N -> str                 (* f"{size/(1024*1024):.1f}" *)
}.

(** The machine after [os.makedirs(path)]. *)
Definition dir_made (d : Disk) (path : str) : Disk :=
  {| os_path_isdir := fun p => str_eqb p path || os_path_isdir d p;
     os_path_exists := fun p => str_eqb p path || os_path_exists d p;
     os_listdir := os_listdir d;
     os_path_getsize := os_path_getsize d;
     os_makedirs := os_makedirs d;
     open_for_writing := open_for_writing d;
     base64_b64decode := base64_b64decode d;
     text_bytes := text_bytes d;
     format_mb := format_mb d |}.

(** The machine once the file [path] holds [data]: what [Disk] sees. *)
Definition disk_with_file (d : Disk) (path : str) (data : list N) : Disk :=
  {| os_path_isdir := os_path_isdir d;
     os_path_exists := fun p => str_eqb p path || os_path_exists d p;
     os_listdir := os_listdir d;
     os_path_getsize :=
       fun p => if str_eqb p path then inr (N.of_nat (length data))
                else os_path_getsize d p;
     os_makedirs := os_makedirs d;
     open_for_writing := open_for_writing d;
     base64_b64decode := base64_b64decode d;
     text_bytes := text_bytes d;
     format_mb := format_mb d |}.

(** The machine once the file [path] holds [data]: what [World] sees. *)
Definition world_with_file (w : World) (path : str) (data : list N) : World :=
  {| GEMINI_API_KEY := GEMINI_API_KEY w;
     SMTP_SERVER := SMTP_SERVER w;
     SMTP_PORT := SMTP_PORT w;
     SMTP_EMAIL := SMTP_EMAIL w;
     SMTP_PASSWORD := SMTP_PASSWORD w;
     SENDER_NAME := SENDER_NAME w;
     module_dir := module_dir w;
     generate_content := generate_content w;
     json_loads := json_loads w;
     str_of_value := str_of_value w;
     os_path_isfile := fun p => str_eqb p path || os_path_isfile w p;
     os_path_isabs := os_path_isabs w;
     os_path_join := os_path_join w;
     os_path_basename := os_path_basename w;
     guess_type := guess_type w;
     read_binary := fun p => if str_eqb p path then inr data
                             else read_binary w p;
     smtp_connect := smtp_connect w;
     smtp_starttls := smtp_starttls w;
     smtp_login := smtp_login w;
     as_string_error := as_string_error w;
     smtp_sendmail := smtp_sendmail w;
     smtp_quit := smtp_quit w;
     set_order := set_order w |}.

Module ServerFiles.

(** [f"{size:,} bytes" if size < 1024*1024 else f"{size/(1024*1024):.1f} MB"] *)
Definition size_str (d : Disk) (size : N) : str :=
  if (size <? 1024 * 1024)%N
  then with_commas size ++ lit " bytes"
  else format_mb d size ++ lit " MB".

(** The line of the listing for one file. *)
Definition file_entry (d : Disk) (item item_path : str) (size : N) : str :=
  lit "File: " ++ item ++ lit " (" ++ size_str d size ++ lit ")" ++ nl
  ++ lit "   Path: " ++ item_path.

(** The loop of [list_attachments] over [os.listdir(directory)]. *)
Fixpoint scan (w : World) (d : Disk) (directory : str) (items : list str)
    (files : list str) : exn + list str :=
  match items with
  | [] => inr files
  | item :: rest =>
      let item_path := os_path_join w directory item in
      if os_path_isfile w item_path
      then
        match os_path_getsize d item_path with
        | inl e => inl e
        | inr size =>
            scan w d directory rest (files ++ [file_entry d item item_path size])
        end
      else scan w d directory rest files
  end.

(** The [try] block of [list_attachments], up to the list of files. *)
Definition scan_directory (w : World) (d : Disk) (directory : str)
    : exn + list str :=
  match os_listdir d directory with
  | inl e => inl e
  | inr items => scan w d directory items []
  end.

Definition list_attachments (w : World) (d : Disk) (directory : str) : str :=
  let directory :=
    if negb (nonempty directory) then module_dir w else directory in
  if negb (os_path_isdir d directory)
  then lit "Error: Directory not found: " ++ directory
  else
    match scan_directory w d directory with
    | inl e => lit "Error listing directory: " ++ str_of_exn e
    | inr files =>
        if negb (nonempty files)
        then lit "No files found in: " ++ directory
        else
          lit "Files in " ++ directory ++ lit ":" ++ nl ++ nl
          ++ join (nl ++ nl) (firstn 20 files)
          ++ (if 20 <? length files
              then nl ++ nl ++ lit "... and "
                   ++ str_of_nat (length files - 20) ++ lit " more files"
              else [])
    end.

(** The text [save_temp_file] returns when the file is saved. *)
Definition saved_text (d : Disk) (filename file_path : str) (file_size : N)
    : str :=
  check_mark ++ lit " File saved successfully!" ++ nl
  ++ nl
  ++ lit "File: " ++ filename ++ nl
  ++ lit "Size: " ++ size_str d file_size ++ nl
  ++ lit "Path: " ++ file_path ++ nl
  ++ nl
  ++ lit "To attach this file to an email, use:" ++ nl
  ++ lit "attachments=" ++ dq ++ file_path ++ dq ++ nl
  ++ nl
  ++ lit "Example:" ++ nl
  ++ lit "send_professional_email(" ++ nl
  ++ lit "    main_idea=" ++ q "Please review the attached document"
  ++ lit "," ++ nl
  ++ lit "    recipients=" ++ q "user@example.com" ++ lit "," ++ nl
  ++ lit "    attachments=" ++ dq ++ file_path ++ dq ++ nl
  ++ lit ")".

(** The [try] block of [save_temp_file]: the path and the size of the
    file it saved, or the exception it stopped on, and the machine it
    leaves.  Opening a file for writing creates it, or empties it, before
    anything is written; the bytes handed to a file that was opened are
    taken to get into it, and the file is then found under the path it
    was written to. *)
Definition save_try (w : World) (d : Disk) (filename content : str)
    (is_base64 : bool) : (exn + (str * N)) * (World * Disk) :=
  let temp_dir := Server.temp_dir w in
  match (if negb (os_path_exists d temp_dir)
         then os_makedirs d temp_dir else None) with
  | Some e => (inl e, (w, d))
  | None =>
      let d1 := if negb (os_path_exists d temp_dir)
                then dir_made d temp_dir else d in
      let file_path := os_path_join w temp_dir filename in
      let written data :=
        let w2 := world_with_file w file_path data in
        let d2 := disk_with_file d1 file_path data in
        match os_path_getsize d2 file_path with
        | inl e => (inl e, (w2, d2))
        | inr file_size => (inr (file_path, file_size), (w2, d2))
        end in
      if is_base64 then
        match base64_b64decode d1 content with
        | inl e => (inl e, (w, d1))
        | inr file_data =>
            match open_for_writing d1 file_path with
            | Some e => (inl e, (w, d1))
            | None => written file_data
            end
        end
      else
        match open_for_writing d1 file_path with
        | Some e => (inl e, (w, d1))
        | None =>
            match text_bytes d1 content with
            | inl e => (inl e, (world_with_file w file_path [],
                                disk_with_file d1 file_path []))
            | inr data => written data
            end
        end
  end.

Definition save_temp_file (w : World) (d : Disk) (filename content : str)
    (is_base64 : bool) : str * (World * Disk) :=
  match save_try w d filename content is_base64 with
  | (inr (file_path, file_size), after) =>
      (saved_text d filename file_path file_size, after)
  | (inl e, after) => (lit "Error saving file: " ++ str_of_exn e, after)
  end.

End ServerFiles.

(** A machine with the directory [/srv/app] holding [names], each of
    [size] bytes, where the staging directory is still to be made. *)
Definition mk_disk (names : list str) (size : N) : Disk :=
  {| os_path_isdir := fun p => str_eqb p (lit "/srv/app");
     os_path_exists := fun p => str_eqb p (lit "/srv/app");
     os_listdir := fun p => if str_eqb p (lit "/srv/app") then inr names
                            else inl (LibraryError (lit "No such directory"));
     os_path_getsize := fun _ => inr size;
     os_makedirs := fun _ => None;
     open_for_writing := fun _ => None;
     base64_b64decode :=
       fun s => if str_eqb s (lit "aGk=") then inr [104%N; 105%N]
                else inl (LibraryError (lit "Incorrect padding"));
     text_bytes := fun s => inr s;
     format_mb := fun _ => lit "1.0" |}.

(* ===================================================================== *)
(** ** Shapes of a run *)
(* ===================================================================== *)

(** The SMTP sessions [send_email] can have with the relay, from the
    one that ends at a refused connection to the complete one. *)
Definition session_shapes (w : World) (to_addrs : list str) (msg : Message)
    : list (list event) :=
  let connect := SmtpConnect (SMTP_SERVER w) (SMTP_PORT w) in
  let login := SmtpLogin (SMTP_EMAIL w) (SMTP_PASSWORD w) in
  let sendmail := SmtpSendmail (SMTP_EMAIL w) to_addrs msg in
  [ [connect];
    [connect; SmtpStarttls; SmtpQuit];
    [connect; SmtpStarttls; login; SmtpQuit];
    [connect; SmtpStarttls; login; sendmail; SmtpQuit] ].

(** The complete session. *)
Definition full_session (w : World) (to_addrs : list str) (msg : Message)
    : list event :=
  [ SmtpConnect (SMTP_SERVER w) (SMTP_PORT w); SmtpStarttls;
    SmtpLogin (SMTP_EMAIL w) (SMTP_PASSWORD w);
    SmtpSendmail (SMTP_EMAIL w) to_addrs msg; SmtpQuit ].

(** The messages handed to [sendmail], with their envelopes, in order. *)
Fixpoint sent (evs : list event) : list (list str * Message) :=
  match evs with
  | [] => []
  | SmtpSendmail _ to_addrs msg :: evs' => (to_addrs, msg) :: sent evs'
  | _ :: evs' => sent evs'
  end.

(** The connections opened to the relay. *)
Fixpoint connections (evs : list event) : nat :=
  match evs with
  | [] => 0
  | SmtpConnect _ _ :: evs' => S (connections evs')
  | _ :: evs' => connections evs'
  end.

(** No backtick in [s]. *)
Definition backtick_free (s : str) : Prop := ~ In 96%N s.

(** [s] does not begin with the letter j. *)
Definition no_j_first (s : str) : Prop :=
  match s with
  | c :: _ => c <> 106%N
  | [] => True
  end.

(** The envelope and the message are those of a copy made for
    [recipient] alone: it is the one primary recipient of the envelope
    and the one address in the [To] header. *)
Definition addressed_to (w : World) (cc bcc : option (list str))
    (recipient : str) (item : list str * Message) : Prop :=
  fst item = recipient :: or_nil cc ++ or_nil bcc /\
  exists subject, headers (snd item) = new_message w recipient subject cc.

(** The prompts [server.py]'s tool sends for its recipients. *)
Definition prompts_for (main_idea tone : str) (pairs : list (str * str))
    : list str :=
  map (fun p => prompt main_idea tone (Server.greeting_instruction (snd p)))
      pairs.

(** [s] does not begin with white space. *)
Definition starts_clean (s : str) : Prop :=
  match s with
  | c :: _ => isspace c = false
  | [] => True
  end.

(** [item] of [directory] is a regular file. *)
Definition regular (w : World) (directory item : str) : bool :=
  os_path_isfile w (os_path_join w directory item).

(** The size of a file whose size can be read. *)
Definition size_of (d : Disk) (path : str) : N :=
  match os_path_getsize d path with
  | inr size => size
  | inl _ => 0%N
  end.

(** The line of the listing for [item] of [directory]. *)
Definition entry_for (w : World) (d : Disk) (directory item : str) : str :=
  ServerFiles.file_entry d item (os_path_join w directory item)
    (size_of d (os_path_join w directory item)).

(** The directory a listing is made of. *)
Definition listed_directory (w : World) (directory : str) : str :=
  if negb (nonempty directory) then module_dir w else directory.

(** A world with the given files, all of them readable and empty. *)
Definition files_world (files : list str) : World :=
  mk_world None (fun _ _ => inl (LibraryError (lit "unreachable")))
           (fun _ => inl (LibraryError (lit "Expecting value")))
           files (fun _ => None).

(** [offline_world] with a file that exists and cannot be read. *)
Definition locked_world : World :=
  {| GEMINI_API_KEY := None;
     SMTP_SERVER := lit "smtp.gmail.com";
     SMTP_PORT := 587%Z;
     SMTP_EMAIL := Some (lit "me@x.com");
     SMTP_PASSWORD := Some (lit "secret");
     SENDER_NAME := lit "Professional Sender";
     module_dir := lit "/srv/app";
     generate_content := fun _ _ _ => inl (LibraryError (lit "unreachable"));
     json_loads := fun _ => inl (LibraryError (lit "Expecting value"));
     str_of_value := fun _ => lit "<value>";
     os_path_isfile := fun p => str_eqb p (lit "/srv/app/locked.pdf");
     os_path_isabs := posixpath.isabs;
     os_path_join := posixpath.join;
     os_path_basename := posixpath.basename;
     guess_type := fun _ => (Some (lit "application/pdf"), None);
     read_binary := fun _ => inl (LibraryError (lit "Permission denied"));
     smtp_connect := fun _ _ _ => None;
     smtp_starttls := fun _ => None;
     smtp_login := fun _ _ _ => None;
     as_string_error := plain_as_string;
     smtp_sendmail := fun _ _ _ _ => None;
     smtp_quit := fun _ => None;
     set_order := nodup (list_eq_dec N.eq_dec) |}.

(** A machine where the size of [b.pdf] cannot be read. *)
Definition broken_disk : Disk :=
  {| os_path_isdir := fun p => str_eqb p (lit "/srv/app");
     os_path_exists := fun p => str_eqb p (lit "/srv/app");
     os_listdir := fun _ => inr [lit "a.txt"; lit "b.pdf"];
     os_path_getsize :=
       fun p => if str_eqb p (lit "/srv/app/b.pdf")
                then inl (LibraryError (lit "Permission denied"))
                else inr 5%N;
     os_makedirs := fun _ => None;
     open_for_writing := fun _ => None;
     base64_b64decode := fun _ => inl (LibraryError (lit "Incorrect padding"));
     text_bytes := fun s => inr s;
     format_mb := fun _ => lit "1.0" |}.

(** A machine that lets nothing be made or read. *)
Definition readonly_disk : Disk :=
  {| os_path_isdir := fun _ => true;
     os_path_exists := fun _ => false;
     os_listdir := fun _ => inl (LibraryError (lit "Permission denied"));
     os_path_getsize := fun _ => inl (LibraryError (lit "Permission denied"));
     os_makedirs := fun _ => Some (LibraryError (lit "Read-only file system"));
     open_for_writing := fun _ => Some (LibraryError (lit "Read-only file system"));
     base64_b64decode := fun s => inr s;
     text_bytes := fun s => inr s;
     format_mb := fun _ => lit "1.0" |}.

(** A machine with the staging directory in place, where no content
    decodes and no text can be encoded. *)
Definition strict_disk : Disk :=
  {| os_path_isdir := fun _ => true;
     os_path_exists := fun _ => true;
     os_listdir := fun _ => inr [];
     os_path_getsize := fun _ => inl (LibraryError (lit "No such file"));
     os_makedirs := fun _ => None;
     open_for_writing := fun _ => None;
     base64_b64decode := fun _ => inl (LibraryError (lit "Incorrect padding"));
     text_bytes := fun _ => inl (LibraryError (lit "surrogates not allowed"));
     format_mb := fun _ => lit "1.0" |}.

(** An object with the four keys and one more. *)
Definition extra_object : list (str * value) :=
  sample_object ++ [(lit "note", PyNum (lit "7"))].

(** [extra_object] as JSON text. *)
Definition extra_text : str :=
  lit "{" ++ q "subject" ++ lit ": " ++ q "Launch" ++ lit ", "
  ++ q "greeting" ++ lit ": " ++ q "Hi Alice," ++ lit ", "
  ++ q "body" ++ lit ": " ++ q "The dashboard is live." ++ lit ", "
  ++ q "closing" ++ lit ": " ++ q "Cheers" ++ lit ", "
  ++ q "note" ++ lit ": 7}".

(** The endpoint answers with [extra_text], unfenced. *)
Definition extra_world : World :=
  mk_world (Some (lit "key"))
           (fun _ _ => inr extra_text)
           (loads_only extra_text (PyDict extra_object))
           [] (fun _ => None).

(** The machine once the staging directory is there. *)
Definition staged (w : World) (d : Disk) : Disk :=
  if negb (os_path_exists d (Server.temp_dir w))
  then dir_made d (Server.temp_dir w) else d.

(** An object of the four keys whose body speaks of a code fence. *)
Definition fence_talk_object : list (str * value) :=
  [ (lit "subject", PyStr (lit "Docs"));
    (lit "greeting", PyStr (lit "Hi,"));
    (lit "body", PyStr (lit "Put the code between ``` marks."));
    (lit "closing", PyStr (lit "Bye")) ].

(** [fence_talk_object] as JSON text. *)
Definition fence_talk_text : str :=
  lit "{" ++ q "subject" ++ lit ": " ++ q "Docs" ++ lit ", "
  ++ q "greeting" ++ lit ": " ++ q "Hi," ++ lit ", "
  ++ q "body" ++ lit ": " ++ q "Put the code between ``` marks." ++ lit ", "
  ++ q "closing" ++ lit ": " ++ q "Bye" ++ lit "}".

(** An object that binds the subject and nothing else, as JSON text. *)
Definition short_text : str :=
  lit "{" ++ q "subject" ++ lit ": " ++ q "Launch" ++ lit "}".

(** The endpoint answers with [short_text]. *)
Definition short_world : World :=
  mk_world (Some (lit "key"))
           (fun _ _ => inr short_text)
           (loads_only short_text (PyDict [(lit "subject", PyStr (lit "Launch"))]))
           [] (fun _ => None).

(** The endpoint answers with [answer]; [json.loads] knows
    [fence_talk_text]. *)
Definition fence_talk_world (answer : str) : World :=
  mk_world (Some (lit "key"))
           (fun _ _ => inr answer)
           (loads_only fence_talk_text (PyDict fence_talk_object))
           [] (fun _ => None).

(* ===================================================================== *)
(** ** Strings: prefixes, occurrences and splitting *)
(* ===================================================================== *)

Lemma str_eqb_eq (a b : str) : str_eqb a b = true <-> a = b.
Proof.
  revert b; induction a as [|x a IH]; intros [|y b]; simpl;
    try (split; intros; congruence).
  rewrite andb_true_iff, N.eqb_eq, IH.
  split; [intros [-> ->]; reflexivity | intros H; inversion H; auto].
Qed.

Lemma str_eqb_refl (a : str) : str_eqb a a = true.
Proof. apply str_eqb_eq; reflexivity. Qed.

Lemma startswith_app (p s : str) : startswith p (p ++ s) = true.
Proof.
  induction p as [|x p IH]; simpl; [reflexivity|].
  rewrite N.eqb_refl; exact IH.
Qed.

Lemma startswith_split (p s : str) :
  startswith p s = true -> exists t, s = p ++ t.
Proof.
  revert s; induction p as [|x p IH]; intros s H; simpl in *.
  - exists s; reflexivity.
  - destruct s as [|y s]; [discriminate|].
    apply andb_true_iff in H; destruct H as [Hxy Hps].
    apply N.eqb_eq in Hxy; subst y.
    destruct (IH _ Hps) as [t ->]. exists t; reflexivity.
Qed.

Lemma contains_start (sub s : str) :
  startswith sub s = true -> contains sub s = true.
Proof. intros H; destruct s; simpl; rewrite H; reflexivity. Qed.

Lemma contains_occurs (sub s : str) :
  contains sub s = true <-> occurs_in sub s.
Proof.
  split.
  - induction s as [|c s IH]; simpl; intros H.
    + rewrite orb_false_r in H.
      destruct (startswith_split _ _ H) as [t Ht].
      exists [], t; exact Ht.
    + apply orb_true_iff in H; destruct H as [H|H].
      * destruct (startswith_split _ _ H) as [t Ht].
        exists [], t; exact Ht.
      * destruct (IH H) as (a & b & ->). exists (c :: a), b; reflexivity.
  - intros (a & b & ->).
    induction a as [|c a IH].
    + change ([] ++ sub ++ b) with (sub ++ b).
      apply contains_start, startswith_app.
    + cbn [app contains]. rewrite IH; apply orb_true_r.
Qed.



Lemma occurs_in_here (sub b : str) : occurs_in sub (sub ++ b).
Proof. exists [], b; reflexivity. Qed.

Lemma split_go_nonempty sep skip cur s : split_go sep skip cur s <> [].
Proof.
  revert skip cur; induction s as [|c s IH]; intros skip cur; simpl.
  - discriminate.
  - destruct skip; [destruct (startswith sep (c :: s))|]; try discriminate;
      apply IH.
Qed.

(** Where the separator occurs, [split] yields two fields at least:
    [split(sep)[1]] is always there. *)
Lemma split_two_fields sep cur s :
  sep <> [] -> contains sep s = true ->
  2 <= length (split_go sep 0 cur s).
Proof.
  intros Hsep; revert cur; induction s as [|c s IH]; intros cur H.
  - simpl in H. destruct sep; [congruence | discriminate].
  - cbn [split_go]. cbn [contains] in H.
    destruct (startswith sep (c :: s)) eqn:E.
    + cbn [length].
      pose proof (split_go_nonempty sep (length sep - 1) [] s) as Hne.
      destruct (split_go sep (length sep - 1) [] s); [congruence|].
      simpl; lia.
    + simpl in H. apply IH; exact H.
Qed.

Lemma index_split_1 sep s :
  sep <> [] -> contains sep s = true ->
  exists t, index (split sep s) 1 = inr t.
Proof.
  intros Hsep H. pose proof (split_two_fields sep [] s Hsep H) as L.
  unfold split, index.
  destruct (split_go sep 0 [] s) as [|a [|b l]]; simpl in *; try lia.
  exists b; reflexivity.
Qed.

Lemma index_split_0 sep s : exists t, index (split sep s) 0 = inr t.
Proof.
  unfold split, index.
  pose proof (split_go_nonempty sep 0 [] s) as Hne.
  destruct (split_go sep 0 [] s) as [|a l]; [congruence|].
  exists a; reflexivity.
Qed.

(** Taking the text out of its code fences never raises. *)
Lemma extract_json_total (text : str) : exists t, extract_json text = inr t.
Proof.
  unfold extract_json.
  destruct (contains fence_json text) eqn:E1.
  - destruct (index_split_1 fence_json text) as [t ->];
      [discriminate | exact E1 |].
    destruct (index_split_0 fence t) as [t' ->]. eexists; reflexivity.
  - destruct (contains fence text) eqn:E2.
    + destruct (index_split_1 fence text) as [t ->];
        [discriminate | exact E2 |].
      destruct (index_split_0 fence t) as [t' ->]. eexists; reflexivity.
    + eexists; reflexivity.
Qed.

(* ===================================================================== *)
(** ** Histories only grow *)
(* ===================================================================== *)

Lemma new_events_app (h evs : list event) : new_events h (h ++ evs) = evs.
Proof.
  unfold new_events. induction h as [|e h IH]; simpl; auto.
Qed.

Lemma attempts_app (a b : list event) : attempts (a ++ b) = attempts a ++ attempts b.
Proof.
  induction a as [|e a IH]; simpl; [reflexivity|].
  destruct e; simpl; rewrite IH; reflexivity.
Qed.

Lemma prompts_app (a b : list event) : prompts (a ++ b) = prompts a ++ prompts b.
Proof.
  induction a as [|e a IH]; simpl; [reflexivity|].
  destruct e; simpl; rewrite IH; reflexivity.
Qed.

(** The shape of an SMTP session: it starts by connecting, enters no
    [send_email], and whatever it hands to [sendmail] goes to the
    primary recipient, then the copies, then the blind copies. *)
Lemma smtp_session_events w to_email cc bcc msg h :
  exists r evs,
    smtp_session w to_email cc bcc msg h = (r, h ++ evs) /\
    In (SmtpConnect (SMTP_SERVER w) (SMTP_PORT w)) evs /\
    attempts evs = [] /\ prompts evs = [] /\
    forall from_addr to_addrs m,
      In (SmtpSendmail from_addr to_addrs m) evs ->
      from_addr = SMTP_EMAIL w /\
      to_addrs = extend_if (extend_if [to_email] cc) bcc /\ m = msg.
Proof.
  unfold smtp_session, with_smtp, bind, call, unit_answer.
  destruct (smtp_connect w h (SMTP_SERVER w) (SMTP_PORT w)).
  - do 2 eexists; split; [reflexivity|]. simpl.
    split; [auto|]. do 2 (split; [reflexivity|]).
    intros ? ? ? [H|[]]; discriminate.
  - unfold lift.
    destruct (smtp_starttls w _);
      [|destruct (smtp_login w _ _ _);
        [|destruct (as_string_error w msg);
          [|destruct (smtp_sendmail w _ _ _ _)]]];
      destruct (smtp_quit w _);
      repeat rewrite <- app_assoc; simpl;
      (do 2 eexists; split; [reflexivity|]); simpl;
      (split; [auto|]); (do 2 (split; [reflexivity|]));
      intros ? ? ? H;
      repeat (destruct H as [H|H]; try discriminate; try contradiction);
      inversion H; subst; auto.
Qed.

(* ===================================================================== *)
(** ** One delivery *)
(* ===================================================================== *)

(** Replaces the SMTP session in the goal by its result [r] and the
    events [evs] it added, with what is known of them. *)
Ltac run_session r evs Hc Ha Hp Hs :=
  match goal with
  | |- context [smtp_session ?w ?t ?c ?b ?msg ?h0] =>
      destruct (smtp_session_events w t c b msg h0)
        as (r & evs & -> & Hc & Ha & Hp & Hs)
  end.

Lemma extend_if_envelope (to_email : str) (cc bcc : option (list str)) :
  extend_if (extend_if [to_email] cc) bcc = to_email :: or_nil cc ++ or_nil bcc.
Proof.
  unfold extend_if.
  destruct cc as [[|c cc]|], bcc as [[|b bcc]|]; simpl;
    rewrite ?app_nil_r; reflexivity.
Qed.

(** [server.py]'s [send_email], step by step. *)
Lemma server_send_email_run w to_email subject body cc bcc attachments h :
  Server.send_email w to_email subject body cc bcc attachments h =
  match utf8_encode_error body with
  | Some e => (inr (failed_to_send to_email e), h ++ [SendEmailCalled to_email])
  | None =>
      match Server.prepare w attachments with
      | inl e =>
          (inr (failed_to_send to_email e), h ++ [SendEmailCalled to_email])
      | inr (ps, attached_files, missing_files) =>
          let msg := {| headers := new_message w to_email subject cc;
                        parts := TextPart body (lit "plain") :: ps |} in
          match smtp_session w to_email cc bcc msg
                  (h ++ [SendEmailCalled to_email]) with
          | (inl e, h') => (inr (failed_to_send to_email e), h')
          | (inr _, h') =>
              (inr {| status := lit "success";
                      message := Server.success_message w to_email
                                   attached_files missing_files;
                      attached := Some attached_files;
                      missing := Some missing_files |}, h')
          end
      end
  end.
Proof.
  unfold Server.send_email, bind, try_except, call, lift, ret, unit_answer.
  destruct (utf8_encode_error body) as [e|]; [reflexivity|].
  destruct (Server.prepare w attachments) as [e|[[ps a] m]]; [reflexivity|].
  cbv zeta.
  destruct (smtp_session _ _ _ _ _ _) as [[e|[]] h']; reflexivity.
Qed.

(** [main.py]'s [send_email], step by step. *)
Lemma main_send_email_run w to_email subject body cc bcc h :
  Main.send_email w to_email subject body cc bcc h =
  match utf8_encode_error body with
  | Some e => (inr (failed_to_send to_email e), h ++ [SendEmailCalled to_email])
  | None =>
      let msg := {| headers := new_message w to_email subject cc;
                    parts := [TextPart body (lit "plain")] |} in
      match smtp_session w to_email cc bcc msg
              (h ++ [SendEmailCalled to_email]) with
      | (inl e, h') => (inr (failed_to_send to_email e), h')
      | (inr _, h') =>
          (inr {| status := lit "success";
                  message := lit "Email sent to " ++ to_email;
                  attached := None;
                  missing := None |}, h')
      end
  end.
Proof.
  unfold Main.send_email, bind, try_except, call, lift, ret, unit_answer.
  destruct (utf8_encode_error body) as [e|]; [reflexivity|]. cbv zeta.
  destruct (smtp_session _ _ _ _ _ _) as [[e|[]] h']; reflexivity.
Qed.

(** What one call of [server.py]'s [send_email] adds to the history:
    its own entry, then at most one SMTP session. *)
Lemma server_send_email_events w to_email subject body cc bcc attachments h :
  exists r evs,
    Server.send_email w to_email subject body cc bcc attachments h
      = (inr r, h ++ SendEmailCalled to_email :: evs) /\
    attempts evs = [] /\ prompts evs = [] /\
    forall from_addr to_addrs m,
      In (SmtpSendmail from_addr to_addrs m) evs ->
      to_addrs = to_email :: or_nil cc ++ or_nil bcc /\
      headers m = new_message w to_email subject cc.
Proof.
  rewrite server_send_email_run.
  destruct (utf8_encode_error body) as [e|];
    [|destruct (Server.prepare w attachments) as [e|[[ps a] m]]].
  - exists (failed_to_send to_email e), [].
    split; [reflexivity|]. do 2 (split; [reflexivity|]). intros ? ? ? [].
  - exists (failed_to_send to_email e), [].
    split; [reflexivity|]. do 2 (split; [reflexivity|]). intros ? ? ? [].
  - cbv zeta.
    run_session r evs Hc Ha Hp Hs.
    rewrite <- app_assoc. simpl.
    assert (Hs' : forall from_addr to_addrs m0,
               In (SmtpSendmail from_addr to_addrs m0) evs ->
               to_addrs = to_email :: or_nil cc ++ or_nil bcc /\
               headers m0 = new_message w to_email subject cc).
    { intros f t m0 Hin. destruct (Hs f t m0 Hin) as (_ & -> & ->).
      split; [apply extend_if_envelope | reflexivity]. }
    destruct r as [e|[]]; eexists; exists evs;
      (split; [reflexivity|]); (do 2 (split; [assumption|])); exact Hs'.
Qed.

Lemma main_send_email_events w to_email subject body cc bcc h :
  exists r evs,
    Main.send_email w to_email subject body cc bcc h
      = (inr r, h ++ SendEmailCalled to_email :: evs) /\
    attempts evs = [] /\ prompts evs = [] /\
    forall from_addr to_addrs m,
      In (SmtpSendmail from_addr to_addrs m) evs ->
      to_addrs = to_email :: or_nil cc ++ or_nil bcc /\
      headers m = new_message w to_email subject cc.
Proof.
  rewrite main_send_email_run.
  destruct (utf8_encode_error body) as [e|].
  { exists (failed_to_send to_email e), [].
    split; [reflexivity|]. do 2 (split; [reflexivity|]). intros ? ? ? []. }
  cbv zeta.
  run_session r evs Hc Ha Hp Hs.
  rewrite <- app_assoc. simpl.
  assert (Hs' : forall from_addr to_addrs m0,
             In (SmtpSendmail from_addr to_addrs m0) evs ->
             to_addrs = to_email :: or_nil cc ++ or_nil bcc /\
             headers m0 = new_message w to_email subject cc).
  { intros f t m0 Hin. destruct (Hs f t m0 Hin) as (_ & -> & ->).
    split; [apply extend_if_envelope | reflexivity]. }
  destruct r as [e|[]]; eexists; exists evs;
    (split; [reflexivity|]); (do 2 (split; [assumption|])); exact Hs'.
Qed.

Lemma new_message_names w to_email subject cc name :
  In name (map fst (new_message w to_email subject cc)) ->
  In name written_headers.
Proof.
  unfold new_message, written_headers.
  destruct (truthy cc); simpl; intuition.
Qed.

Lemma new_message_cc w to_email subject cc :
  truthy cc = true ->
  In (lit "Cc", PyStr (join (lit ", ") (or_nil cc)))
     (new_message w to_email subject cc).
Proof.
  intros H. unfold new_message. rewrite H.
  apply in_or_app; right; left; reflexivity.
Qed.

(** What was handed to [sendmail] is in the history as a call of it. *)
Lemma sent_in (evs : list event) item :
  In item (sent evs) ->
  exists from_addr, In (SmtpSendmail from_addr (fst item) (snd item)) evs.
Proof.
  induction evs as [|ev evs IH]; simpl; [contradiction|].
  destruct ev; simpl; intros H;
    try (destruct (IH H) as [f Hf]; exists f; right; exact Hf).
  destruct H as [<-|H].
  - eexists. left. reflexivity.
  - destruct (IH H) as [f Hf]. exists f. right. exact Hf.
Qed.

(** With a relay that lets the client in and a message that can be
    serialised, the session gets to [sendmail]. *)
Lemma smtp_session_reaches w to_email cc bcc msg h :
  relay_lets_in w -> as_string_error w msg = None ->
  exists r,
    smtp_session w to_email cc bcc msg h
    = (r, h ++ [ SmtpConnect (SMTP_SERVER w) (SMTP_PORT w); SmtpStarttls;
                 SmtpLogin (SMTP_EMAIL w) (SMTP_PASSWORD w);
                 SmtpSendmail (SMTP_EMAIL w)
                   (to_email :: or_nil cc ++ or_nil bcc) msg;
                 SmtpQuit ]).
Proof.
  intros Hr Hs.
  unfold smtp_session, with_smtp, bind, call, lift, unit_answer.
  rewrite extend_if_envelope, Hs.
  destruct (Hr h) as (-> & _ & _).
  destruct (Hr (h ++ [SmtpConnect (SMTP_SERVER w) (SMTP_PORT w)]))
    as (_ & -> & _).
  destruct (Hr ((h ++ [SmtpConnect (SMTP_SERVER w) (SMTP_PORT w)])
                ++ [SmtpStarttls])) as (_ & _ & ->).
  destruct (smtp_sendmail w _ _ _ _); destruct (smtp_quit w _);
    repeat rewrite <- app_assoc; eexists; reflexivity.
Qed.

(** C1.  Whatever [send_email] (of [server.py] or of [main.py]) hands to
    the relay has the envelope "primary recipient, then every Cc, then
    every Bcc", so the Bcc addresses are in the envelope; the message
    carries no [Bcc] header (its header names are among those the
    function sets), and a non-empty Cc list is written, joined by
    commas, into the [Cc] header.  And the call does hand its message
    over, once and with that envelope and those headers, whenever the
    body can be encoded, the attachments can be loaded, the relay lets
    the client in and the message can be serialised. *)
Theorem C1_bcc_in_envelope_never_in_headers
    w to_email subject body cc bcc attachments h :
  (forall item,
     In item (sent (new_events h
                      (snd (Server.send_email w to_email subject body
                              cc bcc attachments h)))) \/
     In item (sent (new_events h
                      (snd (Main.send_email w to_email subject body
                              cc bcc h)))) ->
     fst item = to_email :: or_nil cc ++ or_nil bcc /\
     incl (or_nil bcc) (fst item) /\
     ~ In (lit "Bcc") (header_names (snd item)) /\
     (forall name, In name (header_names (snd item)) ->
                   In name written_headers) /\
     (truthy cc = true ->
      In (lit "Cc", PyStr (join (lit ", ") (or_nil cc)))
         (headers (snd item)))) /\
  (relay_lets_in w ->
   utf8_encode_error body = None ->
   (exists ps attached_files missing_files,
      Server.prepare w attachments = inr (ps, attached_files, missing_files) /\
      as_string_error w {| headers := new_message w to_email subject cc;
                           parts := TextPart body (lit "plain") :: ps |}
      = None) ->
   exists msg,
     sent (new_events h
             (snd (Server.send_email w to_email subject body
                     cc bcc attachments h)))
     = [(to_email :: or_nil cc ++ or_nil bcc, msg)] /\
     headers msg = new_message w to_email subject cc) /\
  (relay_lets_in w ->
   utf8_encode_error body = None ->
   as_string_error w {| headers := new_message w to_email subject cc;
                        parts := [TextPart body (lit "plain")] |} = None ->
   exists msg,
     sent (new_events h
             (snd (Main.send_email w to_email subject body cc bcc h)))
     = [(to_email :: or_nil cc ++ or_nil bcc, msg)] /\
     headers msg = new_message w to_email subject cc).
Proof.
  split; [|split].
  - intros item H.
    assert (E : fst item = to_email :: or_nil cc ++ or_nil bcc /\
                headers (snd item) = new_message w to_email subject cc).
    { destruct H as [H|H]; apply sent_in in H; destruct H as [f H].
      - destruct (server_send_email_events w to_email subject body cc bcc
                    attachments h) as (r & evs & E & _ & _ & Hs).
        rewrite E in H. cbn [snd] in H. rewrite new_events_app in H.
        destruct H as [H|H]; [discriminate|]. eapply Hs; eauto.
      - destruct (main_send_email_events w to_email subject body cc bcc h)
          as (r & evs & E & _ & _ & Hs).
        rewrite E in H. cbn [snd] in H. rewrite new_events_app in H.
        destruct H as [H|H]; [discriminate|]. eapply Hs; eauto. }
    destruct E as [Ee Hh].
    assert (Hn : forall name, In name (header_names (snd item)) ->
                              In name written_headers).
    { unfold header_names; rewrite Hh. apply new_message_names. }
    split; [exact Ee|]. split; [|split; [|split]].
    + rewrite Ee. intros x Hx. right. apply in_or_app; right; exact Hx.
    + intros Hb. apply Hn in Hb. unfold written_headers in Hb. simpl in Hb.
      repeat (destruct Hb as [Hb|Hb]; [discriminate Hb|]). exact Hb.
    + exact Hn.
    + intros Hc. rewrite Hh. apply new_message_cc; exact Hc.
  - intros Hr Hu (ps & a & m & Hp & Hs).
    rewrite server_send_email_run, Hu, Hp. cbv zeta.
    destruct (smtp_session_reaches w to_email cc bcc _
                (h ++ [SendEmailCalled to_email]) Hr Hs) as [r ->].
    exists {| headers := new_message w to_email subject cc;
              parts := TextPart body (lit "plain") :: ps |}.
    split; [|reflexivity].
    destruct r as [e|[]]; cbn [snd]; rewrite <- app_assoc;
      rewrite new_events_app; reflexivity.
  - intros Hr Hu Hs.
    rewrite main_send_email_run, Hu. cbv zeta.
    destruct (smtp_session_reaches w to_email cc bcc _
                (h ++ [SendEmailCalled to_email]) Hr Hs) as [r ->].
    exists {| headers := new_message w to_email subject cc;
              parts := [TextPart body (lit "plain")] |}.
    split; [|reflexivity].
    destruct r as [e|[]]; cbn [snd]; rewrite <- app_assoc;
      rewrite new_events_app; reflexivity.
Qed.

(** C1 at work: a message with one Cc and one Bcc address, sent by
    either module. *)
Lemma C1_witness :
  (relay_lets_in offline_world /\
   utf8_encode_error (lit "B") = None /\
   as_string_error offline_world sample_message = None) /\
  sent (new_events []
          (snd (Server.send_email offline_world (lit "a@x.com")
                  (PyStr (lit "S")) (lit "B") (Some [lit "c@x.com"])
                  (Some [lit "d@x.com"]) None [])))
  = [([lit "a@x.com"; lit "c@x.com"; lit "d@x.com"], sample_message)] /\
  sent (new_events []
          (snd (Main.send_email offline_world (lit "a@x.com")
                  (PyStr (lit "S")) (lit "B") (Some [lit "c@x.com"])
                  (Some [lit "d@x.com"]) [])))
  = [([lit "a@x.com"; lit "c@x.com"; lit "d@x.com"], sample_message)] /\
  ~ In (lit "Bcc") (header_names sample_message) /\
  In (lit "Cc", PyStr (lit "c@x.com")) (headers sample_message) /\
  In (lit "d@x.com") [lit "a@x.com"; lit "c@x.com"; lit "d@x.com"].
Proof.
  assert (H1 : relay_lets_in offline_world)
    by (intros h; repeat split; reflexivity).
  assert (H2 : utf8_encode_error (lit "B") = None) by reflexivity.
  assert (H3 : as_string_error offline_world sample_message = None)
    by reflexivity.
  destruct (C1_bcc_in_envelope_never_in_headers offline_world (lit "a@x.com")
              (PyStr (lit "S")) (lit "B") (Some [lit "c@x.com"])
              (Some [lit "d@x.com"]) None []) as (Hall & Hs & Hm).
  destruct Hs as (ms & Es & Hhs); [exact H1 | exact H2 | |].
  { exists [], [], []. split; [reflexivity | exact H3]. }
  destruct (Hm H1 H2 H3) as (mm & Em & Hhm).
  assert (Ms : ms = sample_message).
  { clear - Es. vm_compute in Es. inversion Es. reflexivity. }
  assert (Mm : mm = sample_message).
  { clear - Em. vm_compute in Em. inversion Em. reflexivity. }
  subst ms mm.
  destruct (Hall ([lit "a@x.com"; lit "c@x.com"; lit "d@x.com"],
                  sample_message)) as (_ & Hi & Hb & _ & Hc).
  { left. rewrite Es. left. reflexivity. }
  split; [repeat split; assumption|].
  split; [exact Es|]. split; [exact Em|]. split; [exact Hb|].
  split; [apply Hc; reflexivity|].
  apply Hi. left. reflexivity.
Defined.

(* ===================================================================== *)
(** ** Enhancement *)
(* ===================================================================== *)

Lemma all_in_true result keys :
  all_in result keys = inr true ->
  forall key, In key keys -> value_contains result key = inr true.
Proof.
  induction keys as [|k keys IH]; simpl; intros H key Hin; [contradiction|].
  destruct (value_contains result k) as [e|[|]] eqn:E; try discriminate.
  destruct Hin as [<-|Hin]; auto.
Qed.

Lemma all_in_complete result keys :
  (forall key, In key keys -> value_contains result key = inr true) ->
  all_in result keys = inr true.
Proof.
  induction keys as [|k keys IH]; simpl; intros H; [reflexivity|].
  rewrite (H k (or_introl eq_refl)). apply IH. intros; apply H; auto.
Qed.

Lemma keys_bound (d : list (str * value)) key :
  existsb (fun kv => str_eqb (fst kv) key) d = true <-> In key (map fst d).
Proof.
  rewrite existsb_exists, in_map_iff. split.
  - intros (kv & Hin & E). apply str_eqb_eq in E. eauto.
  - intros (kv & E & Hin). exists kv. split; auto. apply str_eqb_eq; auto.
Qed.

Lemma subscript_bound (d : list (str * value)) key :
  In key (map fst d) ->
  exists v, In (key, v) d /\ subscript (PyDict d) key = inr v.
Proof.
  intros H. apply keys_bound in H. simpl.
  induction d as [|[k v] d IH]; simpl in *; [discriminate|].
  destruct (str_eqb k key) eqn:E.
  - apply str_eqb_eq in E; subst. exists v; auto.
  - destruct (IH H) as (v' & Hin & Hs). exists v'; split; auto.
Qed.

(** [server.py]'s [enhance_email_with_ai], step by step. *)
Lemma server_enhance_run w main_idea tone recipient_name h :
  Server.enhance_email_with_ai w main_idea tone recipient_name h =
  let p := prompt main_idea tone (Server.greeting_instruction recipient_name) in
  if is_set (GEMINI_API_KEY w) then
    match generate_content w h Server.model_name p with
    | inl _ => (inr (fallback main_idea),
                h ++ [GenerateContent Server.model_name p])
    | inr text =>
        match parse_response w text with
        | inl _ => (inr (fallback main_idea),
                    h ++ [GenerateContent Server.model_name p])
        | inr result => (inr result, h ++ [GenerateContent Server.model_name p])
        end
    end
  else (inr (fallback main_idea), h).
Proof.
  unfold Server.enhance_email_with_ai, Server.enhance_try,
    try_except, bind, call, lift, raise, ret. cbv zeta.
  destruct (is_set (GEMINI_API_KEY w)); simpl; [|reflexivity].
  destruct (generate_content w h _ _) as [e|text]; [reflexivity|].
  destruct (parse_response w text); reflexivity.
Qed.

(** [main.py]'s [enhance_email_with_ai], step by step. *)
Lemma main_enhance_run w main_idea tone h :
  Main.enhance_email_with_ai w main_idea tone h =
  let p := prompt main_idea tone [] in
  match generate_content w h Main.model_name p with
  | inl _ => (inr (fallback main_idea), h ++ [GenerateContent Main.model_name p])
  | inr text =>
      match parse_response w text with
      | inl _ => (inr (fallback main_idea),
                  h ++ [GenerateContent Main.model_name p])
      | inr result => (inr result, h ++ [GenerateContent Main.model_name p])
      end
  end.
Proof.
  unfold Main.enhance_email_with_ai, Main.enhance_try,
    try_except, bind, call, lift, raise, ret. cbv zeta.
  destruct (generate_content w h _ _) as [e|text]; [reflexivity|].
  destruct (parse_response w text); reflexivity.
Qed.

Lemma fallback_fields main_idea key :
  In key required_keys ->
  exists s, subscript (fallback main_idea) key = inr (PyStr s) /\ s <> [].
Proof.
  unfold required_keys. simpl.
  intros [<-|[<-|[<-|[<-|[]]]]]; eexists; (split; [reflexivity|discriminate]).
Qed.

(** C2, where the code departs from it.  The check for the required
    keys is Python's [in], which an array answers by its elements: when
    the endpoint answers with the array of the four key names, the
    parsed value binds no key at all (indexing it by a key raises), and
    yet it gets through the check and [enhance_email_with_ai], of
    either module, returns it in place of the fallback; the caller then
    fails on reading the subject. *)
Theorem C2_array_of_key_names_is_returned :
  generate_content array_world [] Server.model_name
    (prompt (lit "Hi") (lit "professional") (Server.greeting_instruction []))
  = inr array_text /\
  json_loads array_world array_text = inr (PyList (map PyStr required_keys)) /\
  (forall key, In key required_keys ->
     exists msg,
       subscript (PyList (map PyStr required_keys)) key = inl (TypeError msg)) /\
  fst (Server.enhance_email_with_ai array_world (lit "Hi")
         (lit "professional") [] [])
  = inr (PyList (map PyStr required_keys)) /\
  fst (Main.enhance_email_with_ai array_world (lit "Hi")
         (lit "professional") [])
  = inr (PyList (map PyStr required_keys)) /\
  PyList (map PyStr required_keys) <> fallback (lit "Hi") /\
  four_fields (PyList (map PyStr required_keys))
  = inl (TypeError (lit "list indices must be integers or slices, not str")).
Proof.
  split; [reflexivity|]. split; [vm_compute; reflexivity|].
  split; [intros key _; eexists; reflexivity|].
  split; [vm_compute; reflexivity|]. split; [vm_compute; reflexivity|].
  split; [discriminate | reflexivity].
Qed.

(** C6, where the code departs from it.  The fences are taken off by
    cutting the answer at the first three backticks, wherever they are.
    An answer that is a JSON object of exactly the four keys, with
    three backticks inside its body, is cut in the middle of that
    body, bare and also when it is properly fenced; what is left does
    not parse, and [enhance_email_with_ai], of either module, returns
    the fallback in place of the four values of the answer. *)
Theorem C6_fence_inside_a_value_loses_the_answer :
  json_loads (fence_talk_world fence_talk_text) fence_talk_text
  = inr (PyDict fence_talk_object) /\
  map fst fence_talk_object = required_keys /\
  extract_json (strip fence_talk_text)
  = inr (lit "marks." ++ dq ++ lit ", " ++ q "closing" ++ lit ": "
         ++ q "Bye" ++ lit "}") /\
  fst (Server.enhance_email_with_ai (fence_talk_world fence_talk_text)
         (lit "Hi") (lit "professional") [] [])
  = inr (fallback (lit "Hi")) /\
  fst (Main.enhance_email_with_ai (fence_talk_world fence_talk_text)
         (lit "Hi") (lit "professional") [])
  = inr (fallback (lit "Hi")) /\
  extract_json (strip (fence_json ++ nl ++ fence_talk_text ++ nl ++ fence))
  = inr (lit "{" ++ q "subject" ++ lit ": " ++ q "Docs" ++ lit ", "
         ++ q "greeting" ++ lit ": " ++ q "Hi," ++ lit ", "
         ++ q "body" ++ lit ": " ++ dq ++ lit "Put the code between") /\
  fst (Server.enhance_email_with_ai
         (fence_talk_world (fence_json ++ nl ++ fence_talk_text ++ nl ++ fence))
         (lit "Hi") (lit "professional") [] [])
  = inr (fallback (lit "Hi")) /\
  fst (Main.enhance_email_with_ai
         (fence_talk_world (fence_json ++ nl ++ fence_talk_text ++ nl ++ fence))
         (lit "Hi") (lit "professional") [])
  = inr (fallback (lit "Hi")) /\
  subscript (PyDict fence_talk_object) (lit "body")
  = inr (PyStr (lit "Put the code between ``` marks.")) /\
  subscript (fallback (lit "Hi")) (lit "body")
  <> subscript (PyDict fence_talk_object) (lit "body").
Proof.
  split; [vm_compute; reflexivity|]. split; [reflexivity|].
  split; [vm_compute; reflexivity|].
  split; [vm_compute; reflexivity|]. split; [vm_compute; reflexivity|].
  split; [vm_compute; reflexivity|].
  split; [vm_compute; reflexivity|]. split; [vm_compute; reflexivity|].
  split; [reflexivity|]. vm_compute. discriminate.
Qed.

(* ===================================================================== *)
(** ** The input checks *)
(* ===================================================================== *)

Lemma nonempty_false {A} (l : list A) : nonempty l = false <-> l = [].
Proof. destruct l; simpl; split; congruence. Qed.

Lemma nonempty_true {A} (l : list A) : nonempty l = true <-> l <> [].
Proof. destruct l; simpl; split; congruence. Qed.

(** C3.  When there is no recipient, or the idea is empty, or the SMTP
    address or password is not configured, the tool (of either module)
    answers with one of its three one-line error texts, the first check
    that fails deciding which, and the history is left as it was: no
    enhancement call, no send attempt. *)
Theorem C3_invalid_input_short_circuits
    w main_idea recipients tone cc bcc attachments recipient_names h :
  parse_list recipients = [] \/ main_idea = [] \/
  is_set (SMTP_EMAIL w) = false \/ is_set (SMTP_PASSWORD w) = false ->
  let answer :=
    if negb (nonempty (parse_list recipients)) then no_recipients
    else if negb (nonempty main_idea) then no_main_idea
    else no_credentials in
  Server.send_professional_email w main_idea recipients tone cc bcc
    attachments recipient_names h = (inr answer, h) /\
  Main.send_professional_email w main_idea recipients tone cc bcc h
  = (inr answer, h) /\
  In answer [no_recipients; no_main_idea; no_credentials] /\
  ~ In 10%N answer /\
  new_events h (snd (Server.send_professional_email w main_idea recipients
                       tone cc bcc attachments recipient_names h)) = [] /\
  new_events h (snd (Main.send_professional_email w main_idea recipients
                       tone cc bcc h)) = [].
Proof.
  intros H answer.
  assert (Hnl : forall s, In s [no_recipients; no_main_idea; no_credentials] ->
                          ~ In 10%N s).
  { intros s [<-|[<-|[<-|[]]]]; vm_compute; intuition discriminate. }
  assert (Hne : new_events h h = []).
  { rewrite <- (app_nil_r h) at 2. apply new_events_app. }
  assert (Hrun :
    Server.send_professional_email w main_idea recipients tone cc bcc
      attachments recipient_names h = (inr answer, h) /\
    Main.send_professional_email w main_idea recipients tone cc bcc h
    = (inr answer, h) /\
    In answer [no_recipients; no_main_idea; no_credentials]).
  { subst answer.
    unfold Server.send_professional_email, Main.send_professional_email,
      Server.recipient_list_of, ret.
    destruct (nonempty (parse_list recipients)) eqn:E1; cbn [negb].
    - destruct (nonempty main_idea) eqn:E2; cbn [negb].
      + assert (E3 : negb (is_set (SMTP_EMAIL w))
                     || negb (is_set (SMTP_PASSWORD w)) = true).
        { destruct H as [H|[H|[H|H]]].
          - apply nonempty_false in H; congruence.
          - apply nonempty_false in H; congruence.
          - rewrite H; reflexivity.
          - rewrite H; apply orb_true_r. }
        rewrite E3. do 2 (split; [reflexivity|]). simpl; auto.
      + do 2 (split; [reflexivity|]). simpl; auto.
    - do 2 (split; [reflexivity|]). simpl; auto. }
  destruct Hrun as (Es & Em & Hin).
  rewrite Es, Em. cbn [snd].
  split; [reflexivity|]. split; [reflexivity|]. split; [exact Hin|].
  split; [apply Hnl; exact Hin|]. split; exact Hne.
Qed.

(** C3 at work: a recipient list made of commas and blanks. *)
Lemma C3_witness :
  parse_list (lit " , ,") = [] /\
  Server.send_professional_email offline_world (lit "Hello") (lit " , ,")
    (lit "formal") [] [] [] [] [] = (inr no_recipients, []) /\
  Main.send_professional_email offline_world (lit "Hello") (lit " , ,")
    (lit "formal") [] [] [] = (inr no_recipients, []).
Proof.
  assert (H : parse_list (lit " , ,") = []) by reflexivity.
  destruct (C3_invalid_input_short_circuits offline_world (lit "Hello")
              (lit " , ,") (lit "formal") [] [] [] [] [] (or_introl H))
    as (Hs & Hm & _).
  split; [exact H|]. split; [exact Hs | exact Hm].
Defined.

(* ===================================================================== *)
(** ** Names *)
(* ===================================================================== *)

Lemma pad_names_spec rounds :
  forall name_list n,
    Server.pad_names rounds name_list n
    = name_list ++ repeat [] (Nat.min rounds (n - length name_list)).
Proof.
  induction rounds as [|rounds IH]; intros name_list n; simpl.
  - rewrite app_nil_r; reflexivity.
  - destruct (length name_list <? n) eqn:E.
    + apply Nat.ltb_lt in E. rewrite IH, length_app. simpl.
      replace (n - length name_list) with (S (n - (length name_list + 1))) by lia.
      simpl. rewrite <- app_assoc. reflexivity.
    + apply Nat.ltb_ge in E.
      replace (n - length name_list) with 0 by lia.
      simpl. rewrite app_nil_r; reflexivity.
Qed.

(** The padding loop is given rounds enough: afterwards there is a name
    for every recipient. *)
Lemma pad_names_enough name_list n :
  Server.pad_names n name_list n = name_list ++ repeat [] (n - length name_list).
Proof.
  rewrite pad_names_spec. f_equal. f_equal. lia.
Qed.

Lemma map_fst_combine {A B} (l : list A) (l' : list B) :
  length l <= length l' -> map fst (combine l l') = l.
Proof.
  revert l'; induction l as [|a l IH]; intros [|b l'] L; simpl in *;
    try lia; auto.
  f_equal. apply IH. lia.
Qed.

Lemma combine_padded_nth (l names : list str) :
  length names <= length l ->
  forall i r,
    nth_error l i = Some r ->
    nth_error (combine l (names ++ repeat [] (length l - length names))) i
    = Some (r, nth i names []).
Proof.
  revert names; induction l as [|a l IH]; intros names Hlen [|i] r H;
    simpl in *; try discriminate.
  - inversion H; subst. destruct names; reflexivity.
  - destruct names as [|n ns]; simpl in *.
    + specialize (IH [] (Nat.le_0_l _) i r H). simpl in IH.
      rewrite Nat.sub_0_r in IH. rewrite IH. destruct i; reflexivity.
    + apply IH; auto. lia.
Qed.

(** C7.  A name list that is shorter than the recipient list (or
    empty) is padded with empty strings up to the length of the
    recipient list, and names go to recipients by position: the i-th
    recipient gets the i-th name, or the empty name when there is none.
    For ["a@x.com, b@x.com"] and ["Alice"], Alice goes with a@x.com and
    b@x.com gets the empty name: the tool asks the endpoint for a
    greeting with Alice's name first, then for one without a name. *)
Theorem C7_names_padded_and_paired_by_position recipients recipient_names :
  let recipient_list := Server.recipient_list_of recipients in
  let names :=
    if nonempty recipient_names then parse_list recipient_names else [] in
  length names <= length recipient_list ->
  Server.name_list_of recipients recipient_names
  = names ++ repeat [] (length recipient_list - length names) /\
  length (Server.name_list_of recipients recipient_names)
  = length recipient_list /\
  map fst (Server.pairing recipients recipient_names) = recipient_list /\
  (forall i recipient,
     nth_error recipient_list i = Some recipient ->
     nth_error (Server.pairing recipients recipient_names) i
     = Some (recipient, nth i names [])) /\
  Server.pairing (lit "a@x.com, b@x.com") (lit "Alice")
  = [(lit "a@x.com", lit "Alice"); (lit "b@x.com", [])] /\
  prompts (snd (Server.send_professional_email online_world (lit "Hi")
                  (lit "a@x.com, b@x.com") (lit "friendly") [] [] []
                  (lit "Alice") []))
  = [ prompt (lit "Hi") (lit "friendly")
        (Server.greeting_instruction (lit "Alice"));
      prompt (lit "Hi") (lit "friendly") (Server.greeting_instruction []) ].
Proof.
  intros recipient_list names Hlen.
  assert (E : Server.name_list_of recipients recipient_names
              = names ++ repeat [] (length recipient_list - length names)).
  { unfold Server.name_list_of. apply pad_names_enough. }
  assert (L : length (Server.name_list_of recipients recipient_names)
              = length recipient_list).
  { rewrite E, length_app, repeat_length. lia. }
  split; [exact E|]. split; [exact L|].
  unfold Server.pairing. fold recipient_list.
  split; [|split].
  - apply map_fst_combine. rewrite L; auto.
  - rewrite E. apply combine_padded_nth; exact Hlen.
  - split; [reflexivity | vm_compute; reflexivity].
Qed.

(** C7 at work: three recipients, two names, a stray comma. *)
Lemma C7_witness :
  length (parse_list (lit "Ann, Bob,")) <= length (parse_list (lit "a@x.com,b@x.com, c@x.com")) /\
  Server.name_list_of (lit "a@x.com,b@x.com, c@x.com") (lit "Ann, Bob,")
  = [lit "Ann"; lit "Bob"; []].
Proof.
  assert (H : length (parse_list (lit "Ann, Bob,"))
              <= length (parse_list (lit "a@x.com,b@x.com, c@x.com"))).
  { vm_compute. lia. }
  split; [exact H|].
  destruct (C7_names_padded_and_paired_by_position
              (lit "a@x.com,b@x.com, c@x.com") (lit "Ann, Bob,") H) as (E & _).
  rewrite E. reflexivity.
Defined.

(* ===================================================================== *)
(** ** The delivery loop *)
(* ===================================================================== *)

Lemma server_enhance_events w main_idea tone recipient_name h :
  exists v evs,
    Server.enhance_email_with_ai w main_idea tone recipient_name h
      = (inr v, h ++ evs) /\
    attempts evs = [] /\
    (v = fallback main_idea \/ exists text, parse_response w text = inr v).
Proof.
  rewrite server_enhance_run. cbv zeta.
  destruct (is_set _).
  - destruct (generate_content _ _ _ _) as [e|text].
    + do 2 eexists. split; [reflexivity|]. split; [reflexivity | left; auto].
    + destruct (parse_response w text) eqn:E.
      * do 2 eexists. split; [reflexivity|]. split; [reflexivity | left; auto].
      * do 2 eexists. split; [reflexivity|]. split; [reflexivity | right; eauto].
  - exists (fallback main_idea), []. rewrite app_nil_r. auto.
Qed.

Lemma main_enhance_events w main_idea tone h :
  exists v evs,
    Main.enhance_email_with_ai w main_idea tone h = (inr v, h ++ evs) /\
    attempts evs = [] /\
    (v = fallback main_idea \/ exists text, parse_response w text = inr v).
Proof.
  rewrite main_enhance_run. cbv zeta.
  destruct (generate_content _ _ _ _) as [e|text].
  - do 2 eexists. split; [reflexivity|]. split; [reflexivity | left; auto].
  - destruct (parse_response w text) eqn:E.
    + do 2 eexists. split; [reflexivity|]. split; [reflexivity | left; auto].
    + do 2 eexists. split; [reflexivity|]. split; [reflexivity | right; eauto].
Qed.

Lemma parse_response_checked w text v :
  parse_response w text = inr v ->
  (exists t, json_loads w t = inr v) /\ all_in v required_keys = inr true.
Proof.
  unfold parse_response.
  destruct (extract_json _) as [e|t]; [discriminate|].
  destruct (json_loads w t) as [e|result] eqn:E; [discriminate|].
  destruct (all_in result required_keys) as [e|[|]] eqn:A; try discriminate.
  intros H; inversion H; subst. eauto.
Qed.

(** An object that passed the key check can be indexed by the four
    keys. *)
Lemma four_fields_object d :
  all_in (PyDict d) required_keys = inr true ->
  exists fields, four_fields (PyDict d) = inr fields.
Proof.
  intros H.
  assert (K : forall key, In key required_keys ->
                          exists v, subscript (PyDict d) key = inr v).
  { intros key Hin. pose proof (all_in_true _ _ H key Hin) as Hc.
    simpl in Hc. inversion Hc as [Hc'].
    destruct (subscript_bound d key) as (v & _ & Hv); [|eauto].
    apply keys_bound; exact Hc'. }
  unfold four_fields.
  destruct (K (lit "subject")) as [v1 ->]; [unfold required_keys; simpl; auto|].
  destruct (K (lit "greeting")) as [v2 ->]; [unfold required_keys; simpl; auto|].
  destruct (K (lit "body")) as [v3 ->]; [unfold required_keys; simpl; auto|].
  destruct (K (lit "closing")) as [v4 ->]; [unfold required_keys; simpl; auto|].
  eauto.
Qed.

Lemma four_fields_fallback main_idea :
  exists fields, four_fields (fallback main_idea) = inr fields.
Proof. eexists; reflexivity. Qed.

Lemma four_fields_enhanced w main_idea v :
  object_answers w ->
  (v = fallback main_idea \/ exists text, parse_response w text = inr v) ->
  exists fields, four_fields v = inr fields.
Proof.
  intros Ho [->|[text Hp]]; [apply four_fields_fallback|].
  destruct (parse_response_checked _ _ _ Hp) as ((t & Ht) & Ha).
  destruct (Ho _ _ Ht) as [d ->]. apply four_fields_object; exact Ha.
Qed.

Lemma error_for_not_attempted recipient e :
  attempted (fst (Server.error_for recipient e)) = false /\
  recorded_error recipient (fst (Server.error_for recipient e)).
Proof.
  unfold attempted, recorded_error, Server.error_for. cbn [fst message status].
  split; [|split].
  - rewrite startswith_app. reflexivity.
  - reflexivity.
  - rewrite app_assoc. apply startswith_app.
Qed.

Lemma server_send_email_attempted w to_email subject body cc bcc attachments h :
  exists r h',
    Server.send_email w to_email subject body cc bcc attachments h = (inr r, h')
    /\ attempted r = true.
Proof.
  rewrite server_send_email_run.
  destruct (utf8_encode_error body) as [e|];
    [|destruct (Server.prepare w attachments) as [e|[[ps a] m]]].
  - do 2 eexists; split; reflexivity.
  - do 2 eexists; split; reflexivity.
  - cbv zeta. destruct (smtp_session _ _ _ _ _ _) as [[e|[]] h'];
      do 2 eexists; split; reflexivity.
Qed.

(** The body of the loop, step by step. *)
Lemma deliver_one_run w main_idea tone cc_list bcc_list attachment_list
    recipient recipient_name h :
  Server.deliver_one w main_idea tone cc_list bcc_list attachment_list
    recipient recipient_name h =
  match Server.enhance_email_with_ai w main_idea tone recipient_name h with
  | (inl e, h1) => (inr (Server.error_for recipient e), h1)
  | (inr enhanced, h1) =>
      match four_fields enhanced with
      | inl e => (inr (Server.error_for recipient e), h1)
      | inr (subject, greeting, body_text, closing) =>
          let full_body := full_body_of w greeting body_text closing in
          match Server.send_email w recipient subject full_body
                  cc_list bcc_list attachment_list h1 with
          | (inl e, h2) => (inr (Server.error_for recipient e), h2)
          | (inr r, h2) =>
              (inr (r, {| Server.content_recipient := Some recipient;
                          Server.content_subject := subject;
                          Server.content_body := full_body |}), h2)
          end
      end
  end.
Proof.
  unfold Server.deliver_one, try_except, bind, lift, ret.
  destruct (Server.enhance_email_with_ai _ _ _ _ _) as [[e|enhanced] h1];
    [reflexivity|].
  destruct (four_fields enhanced) as [e|[[[subject greeting] body_text] closing]];
    [reflexivity|].
  cbv zeta. destruct (Server.send_email _ _ _ _ _ _ _ _) as [[e|r] h2];
    reflexivity.
Qed.

(** One round of the loop always yields an outcome; it enters
    [send_email] once, for its recipient, unless the enhancement result
    could not be indexed, and then it records the error. *)
Lemma deliver_one_spec w main_idea tone cc_list bcc_list attachment_list
    recipient recipient_name h :
  exists r c evs,
    Server.deliver_one w main_idea tone cc_list bcc_list attachment_list
      recipient recipient_name h = (inr (r, c), h ++ evs) /\
    attempts evs = (if attempted r then [recipient] else []) /\
    (attempted r = false -> recorded_error recipient r) /\
    (object_answers w -> attempted r = true).
Proof.
  rewrite deliver_one_run.
  destruct (server_enhance_events w main_idea tone recipient_name h)
    as (v & evs1 & -> & Ha1 & Hv).
  destruct (four_fields v) as [e|[[[subject greeting] body_text] closing]] eqn:F.
  - destruct (error_for_not_attempted recipient e) as (Hn & Hr).
    destruct (Server.error_for recipient e) as [r c] eqn:E. cbn [fst] in *.
    exists r, c, evs1. split; [reflexivity|]. rewrite Hn.
    split; [exact Ha1|]. split; [auto|].
    intros Ho. destruct (four_fields_enhanced w main_idea v Ho Hv) as [f Hf].
    congruence.
  - cbv zeta.
    destruct (server_send_email_events w recipient subject
                (full_body_of w greeting body_text closing)
                cc_list bcc_list attachment_list (h ++ evs1))
      as (r & evs2 & E & Ha2 & _).
    destruct (server_send_email_attempted w recipient subject
                (full_body_of w greeting body_text closing)
                cc_list bcc_list attachment_list (h ++ evs1))
      as (r' & h' & E' & Hatt).
    rewrite E in E'. inversion E'; subst r' h'. rewrite E.
    do 2 eexists. exists (evs1 ++ SendEmailCalled recipient :: evs2).
    rewrite app_assoc. split; [reflexivity|].
    rewrite Hatt, attempts_app, Ha1. simpl. rewrite Ha2.
    split; [reflexivity|]. split; [discriminate | auto].
Qed.

Lemma deliver_all_spec w main_idea tone cc_list bcc_list attachment_list pairs :
  forall results contents h,
  exists rs cs evs,
    Server.deliver_all w main_idea tone cc_list bcc_list attachment_list
      pairs results contents h
    = (inr (results ++ rs, contents ++ cs), h ++ evs) /\
    length rs = length pairs /\ length cs = length pairs /\
    attempts evs
    = map fst (filter (fun p => attempted (snd p)) (combine (map fst pairs) rs)) /\
    (object_answers w -> attempts evs = map fst pairs) /\
    Forall2 (fun recipient r => attempted r = false -> recorded_error recipient r)
            (map fst pairs) rs.
Proof.
  induction pairs as [|[recipient recipient_name] pairs IH];
    intros results contents h.
  - exists [], [], []. simpl. unfold ret. rewrite !app_nil_r.
    repeat split; auto.
  - cbn [Server.deliver_all]. unfold bind at 1.
    destruct (deliver_one_spec w main_idea tone cc_list bcc_list
                attachment_list recipient recipient_name h)
      as (r & c & evs1 & -> & Ha & Hr & Ho).
    destruct (IH (results ++ [r]) (contents ++ [c]) (h ++ evs1))
      as (rs & cs & evs2 & -> & Lr & Lc & Ha2 & Ho2 & F).
    exists (r :: rs), (c :: cs), (evs1 ++ evs2).
    rewrite <- !app_assoc. simpl.
    split; [reflexivity|]. split; [lia|]. split; [lia|].
    split; [|split].
    + rewrite attempts_app, Ha, Ha2. destruct (attempted r); reflexivity.
    + intros O. rewrite attempts_app, Ha, (Ho O), (Ho2 O). reflexivity.
    + constructor; auto.
Qed.

(* ===================================================================== *)
(** ** The report *)
(* ===================================================================== *)

Lemma pairing_fst recipients recipient_names :
  map fst (Server.pairing recipients recipient_names)
  = Server.recipient_list_of recipients.
Proof.
  unfold Server.pairing. apply map_fst_combine.
  unfold Server.name_list_of. rewrite pad_names_enough, length_app, repeat_length.
  lia.
Qed.



Lemma report_head_header w first_content recipient_list results :
  exists rest,
    Server.report_head w first_content recipient_list results
    = success_header ++ rest.
Proof.
  unfold Server.report_head, success_header.
  eexists. repeat rewrite <- app_assoc. reflexivity.
Qed.




(** Once the input checks pass, [server.py]'s tool runs its loop over
    the paired recipients and names and returns a report made of the
    head, the status entries and the tail. *)
Lemma server_tool_run
    w main_idea recipients tone cc bcc attachments recipient_names h :
  Server.recipient_list_of recipients <> [] ->
  main_idea <> [] ->
  is_set (SMTP_EMAIL w) = true -> is_set (SMTP_PASSWORD w) = true ->
  exists results contents evs first_content,
    Server.deliver_all w main_idea tone (parse_optional_list cc)
      (parse_optional_list bcc) (Server.attachment_list_of w attachments)
      (Server.pairing recipients recipient_names) [] [] h
    = (inr (results, contents), h ++ evs) /\
    Server.send_professional_email w main_idea recipients tone cc bcc
      attachments recipient_names h
    = (inr (Server.report_head w first_content
              (Server.recipient_list_of recipients) results
            ++ Server.status_lines
                 (Server.name_list_of recipients recipient_names) 0
                 (combine (Server.recipient_list_of recipients) results)
            ++ Server.report_tail w (parse_optional_list cc)
                 (parse_optional_list bcc) results),
       h ++ evs) /\
    length results = length (Server.recipient_list_of recipients) /\
    attempts evs
    = map fst (filter (fun p => attempted (snd p))
                 (combine (Server.recipient_list_of recipients) results)) /\
    (object_answers w -> attempts evs = Server.recipient_list_of recipients) /\
    Forall2 (fun recipient r => attempted r = false -> recorded_error recipient r)
            (Server.recipient_list_of recipients) results.
Proof.
  intros H1 H2 H3 H4.
  destruct (deliver_all_spec w main_idea tone (parse_optional_list cc)
              (parse_optional_list bcc) (Server.attachment_list_of w attachments)
              (Server.pairing recipients recipient_names) [] [] h)
    as (rs & cs & evs & E & Lr & Lc & Ha & Ho & F).
  rewrite pairing_fst in Ha, Ho, F.
  assert (L : length (Server.pairing recipients recipient_names)
              = length (Server.recipient_list_of recipients)).
  { rewrite <- (pairing_fst recipients recipient_names), length_map.
    reflexivity. }
  simpl in E.
  exists rs, cs, evs. eexists.
  split; [exact E|].
  split.
  - unfold Server.send_professional_email.
    apply nonempty_true in H1, H2. rewrite H1, H2, H3, H4. cbn [negb orb].
    unfold bind. rewrite E. unfold ret. reflexivity.
  - split; [congruence|]. auto.
Qed.



(** C4, where the code departs from it.  Where the endpoint answers
    with the array of the four key names, the key check lets the array
    through, reading the subject off it raises, and the loop of
    [server.py] records the recipient as failed without ever entering
    [send_email]: with two recipients there is no send attempt and no
    connection at all, and the report counts two failures. *)
Theorem C4_recipients_without_send_attempt :
  Server.recipient_list_of (lit "a@x.com, b@x.com")
  = [lit "a@x.com"; lit "b@x.com"] /\
  exists report h',
    Server.send_professional_email array_world (lit "Hi")
      (lit "a@x.com, b@x.com") (lit "professional") [] [] [] [] []
    = (inr report, h') /\
    attempts h' = [] /\
    connections h' = 0 /\
    prompts h'
    = [ prompt (lit "Hi") (lit "professional") [];
        prompt (lit "Hi") (lit "professional") [] ] /\
    occurs_in (lit "Recipients: 2 (0 sent, 2 failed)") report /\
    occurs_in
      (cross_mark
       ++ lit " a@x.com: Error for a@x.com: list indices must be integers or slices, not str")
      report /\
    occurs_in
      (cross_mark
       ++ lit " b@x.com: Error for b@x.com: list indices must be integers or slices, not str")
      report.
Proof.
  split; [vm_compute; reflexivity|].
  do 2 eexists. split; [vm_compute; reflexivity|].
  split; [reflexivity|]. split; [reflexivity|]. split; [reflexivity|].
  split; [|split]; apply contains_occurs; vm_compute; reflexivity.
Qed.

(* ===================================================================== *)
(** ** The first line of the report *)
(* ===================================================================== *)

Lemma main_send_all_spec w subject full_body cc_list bcc_list recipient_list :
  forall results h,
  exists rs evs,
    Main.send_all w subject full_body cc_list bcc_list recipient_list results h
    = (inr (results ++ rs), h ++ evs) /\
    length rs = length recipient_list /\
    attempts evs = recipient_list.
Proof.
  induction recipient_list as [|recipient rest IH]; intros results h.
  - exists [], []. simpl. unfold ret. rewrite !app_nil_r. auto.
  - cbn [Main.send_all]. unfold bind at 1.
    destruct (main_send_email_events w recipient subject full_body
                cc_list bcc_list h) as (r & evs1 & -> & Ha & _).
    destruct (IH (results ++ [r]) (h ++ SendEmailCalled recipient :: evs1))
      as (rs & evs2 & -> & L & Ha2).
    exists (r :: rs), (SendEmailCalled recipient :: evs1 ++ evs2).
    rewrite <- !app_assoc. simpl.
    split; [reflexivity|]. split; [lia|].
    rewrite attempts_app, Ha, Ha2. reflexivity.
Qed.

Lemma main_compose_run w main_idea tone h :
  Main.compose w main_idea tone h =
  match Main.enhance_email_with_ai w main_idea tone h with
  | (inl e, h1) => (inl e, h1)
  | (inr enhanced, h1) =>
      match four_fields enhanced with
      | inl e => (inl e, h1)
      | inr (subject, greeting, body_text, closing) =>
          (inr (subject, full_body_of w greeting body_text closing), h1)
      end
  end.
Proof.
  unfold Main.compose, bind, lift, ret.
  destruct (Main.enhance_email_with_ai _ _ _ _) as [[e|enhanced] h1];
    [reflexivity|].
  destruct (four_fields enhanced) as [e|[[[subject greeting] body_text] closing]];
    reflexivity.
Qed.

(** X19.  The first line of [server.py]'s report.  Once the three input
    checks pass, the report of [server.py]'s tool begins with the line
    "(check mark) Email Sent Successfully" for every outcome, also when
    every delivery failed. *)
Theorem X19_server_report_begins_with_success_header
    w main_idea recipients tone cc bcc attachments recipient_names h :
  parse_list recipients <> [] ->
  main_idea <> [] ->
  is_set (SMTP_EMAIL w) = true -> is_set (SMTP_PASSWORD w) = true ->
  exists results contents report h',
    Server.send_professional_email w main_idea recipients tone cc bcc
      attachments recipient_names h = (inr report, h') /\
    Server.deliver_all w main_idea tone (parse_optional_list cc)
      (parse_optional_list bcc) (Server.attachment_list_of w attachments)
      (Server.pairing recipients recipient_names) [] [] h
    = (inr (results, contents), h') /\
    startswith success_header report = true.
Proof.
  intros H1 H2 H3 H4.
  destruct (server_tool_run w main_idea recipients tone cc bcc attachments
              recipient_names h H1 H2 H3 H4)
    as (results & contents & evs & first_content & E & R & _).
  destruct (report_head_header w first_content
              (Server.recipient_list_of recipients) results) as [rest Hh].
  rewrite Hh, <- app_assoc in R.
  exists results, contents. do 2 eexists.
  split; [exact R|]. split; [exact E|]. apply startswith_app.
Qed.

(** X19 at work: the relay is down, so both deliveries fail, and the
    report of [server.py] begins with the success line all the same. *)
Lemma X19_witness :
  (parse_list (lit "a@x.com, b@x.com") <> [] /\ lit "Hi" <> [] /\
   is_set (SMTP_EMAIL staged_world) = true /\
   is_set (SMTP_PASSWORD staged_world) = true) /\
  exists results contents report h',
    Server.send_professional_email staged_world (lit "Hi")
      (lit "a@x.com, b@x.com") (lit "professional") [] [] [] [] []
    = (inr report, h') /\
    Server.deliver_all staged_world (lit "Hi") (lit "professional")
      (parse_optional_list []) (parse_optional_list [])
      (Server.attachment_list_of staged_world [])
      (Server.pairing (lit "a@x.com, b@x.com") []) [] [] []
    = (inr (results, contents), h') /\
    failed_count results = 2 /\
    startswith success_header report = true.
Proof.
  assert (H1 : parse_list (lit "a@x.com, b@x.com") <> [])
    by (vm_compute; discriminate).
  assert (H2 : lit "Hi" <> []) by (vm_compute; discriminate).
  assert (H3 : is_set (SMTP_EMAIL staged_world) = true) by reflexivity.
  assert (H4 : is_set (SMTP_PASSWORD staged_world) = true) by reflexivity.
  split; [repeat split; assumption|].
  destruct (X19_server_report_begins_with_success_header staged_world
              (lit "Hi") (lit "a@x.com, b@x.com") (lit "professional")
              [] [] [] [] [] H1 H2 H3 H4)
    as (results & contents & report & h' & R & E & S).
  exists results, contents, report, h'.
  split; [exact R|]. split; [exact E|]. split; [|exact S].
  vm_compute in E. inversion E. reflexivity.
Defined.

(** [main.py]'s tool always returns a text. *)
Lemma main_tool_answers w main_idea recipients tone cc bcc h :
  exists answer h',
    Main.send_professional_email w main_idea recipients tone cc bcc h
    = (inr answer, h') /\
    (In answer [no_recipients; no_main_idea; no_credentials] \/
     (exists e, answer = lit "Error enhancing email: " ++ str_of_exn e) \/
     (exists rest, answer = main_success_header ++ rest)).
Proof.
  unfold Main.send_professional_email, ret.
  destruct (negb (nonempty (parse_list recipients)));
    [do 2 eexists; split; [reflexivity | left; simpl; auto]|].
  destruct (negb (nonempty main_idea));
    [do 2 eexists; split; [reflexivity | left; simpl; auto]|].
  destruct (negb (is_set (SMTP_EMAIL w)) || negb (is_set (SMTP_PASSWORD w)));
    [do 2 eexists; split; [reflexivity | left; simpl; auto]|].
  destruct (Main.compose w main_idea tone h) as [[e|[subject full_body]] h1].
  - do 2 eexists. split; [reflexivity|]. right. left. eauto.
  - unfold bind.
    destruct (main_send_all_spec w subject full_body (parse_optional_list cc)
                (parse_optional_list bcc) (parse_list recipients) [] h1)
      as (rs & evs2 & -> & _).
    do 2 eexists. split; [reflexivity|]. right. right.
    unfold Main.report_head, main_success_header.
    eexists. repeat rewrite <- app_assoc. reflexivity.
Qed.

(** C10, where the code departs from it.  No answer of [main.py]'s tool
    begins with the line "(check mark) Email Sent Successfully": the
    header of its report is stored as the three characters U+00E2
    U+0153 U+201C where the check mark U+2713 was meant, the one
    [server.py] has in its place; and once the input checks have
    passed, [main.py] returns one line of error text and no report at
    all where the endpoint answers with the array of the four key
    names, which the key check lets through.  In the same worlds the
    report of [server.py] begins with the header. *)
Theorem C10_main_report_lacks_the_success_header :
  (forall w main_idea recipients tone cc bcc h,
   exists answer h',
     Main.send_professional_email w main_idea recipients tone cc bcc h
     = (inr answer, h') /\
     startswith success_header answer = false) /\
  (parse_list (lit "a@x.com") <> [] /\ lit "Hi" <> [] /\
   is_set (SMTP_EMAIL array_world) = true /\
   is_set (SMTP_PASSWORD array_world) = true) /\
  fst (Main.send_professional_email array_world (lit "Hi") (lit "a@x.com")
         (lit "professional") [] [] [])
  = inr (lit "Error enhancing email: list indices must be integers or slices, not str") /\
  attempts (snd (Main.send_professional_email array_world (lit "Hi")
                   (lit "a@x.com") (lit "professional") [] [] [])) = [] /\
  (exists report h',
     Main.send_professional_email offline_world (lit "Hi") (lit "a@x.com")
       (lit "professional") [] [] [] = (inr report, h') /\
     startswith ([226%N; 339%N; 8220%N] ++ lit " Email Sent Successfully" ++ nl)
       report = true /\
     startswith success_header report = false) /\
  (exists report h',
     Server.send_professional_email offline_world (lit "Hi") (lit "a@x.com")
       (lit "professional") [] [] [] [] [] = (inr report, h') /\
     startswith success_header report = true) /\
  (exists report h',
     Server.send_professional_email array_world (lit "Hi") (lit "a@x.com")
       (lit "professional") [] [] [] [] [] = (inr report, h') /\
     startswith success_header report = true).
Proof.
  split; [|split; [|split; [|split; [|split; [|split]]]]].
  - intros w main_idea recipients tone cc bcc h.
    destruct (main_tool_answers w main_idea recipients tone cc bcc h)
      as (answer & h' & E & H).
    exists answer, h'. split; [exact E|].
    destruct H as [H|[[e ->]|[rest ->]]]; [|reflexivity|reflexivity].
    simpl in H. destruct H as [<-|[<-|[<-|[]]]]; reflexivity.
  - split; [vm_compute; discriminate|]. split; [vm_compute; discriminate|].
    split; reflexivity.
  - vm_compute. reflexivity.
  - vm_compute. reflexivity.
  - do 2 eexists. split; [vm_compute; reflexivity|].
    split; vm_compute; reflexivity.
  - do 2 eexists. split; [vm_compute; reflexivity|]. vm_compute. reflexivity.
  - do 2 eexists. split; [vm_compute; reflexivity|]. vm_compute. reflexivity.
Qed.

(** C9, where the code departs from it.  For every recipient the loop
    of [server.py] appends two status entries to the report, the one
    with the name and the one without, glued into one line after an
    empty one; so for one recipient the report carries the status mark
    of that recipient twice, where the report of [main.py] carries it
    once. *)
Theorem C9_status_entry_written_twice :
  (forall name_list k recipient r rest,
     exists name_info,
       Server.status_lines name_list k ((recipient, r) :: rest)
       = nl ++ (status_icon r ++ lit " " ++ recipient ++ name_info ++ lit ": "
                ++ message r)
         ++ status_entry recipient r ++ nl
         ++ Server.status_lines name_list (S k) rest) /\
  (exists report h',
     Server.send_professional_email offline_world (lit "Hi") (lit "a@x.com")
       (lit "professional") [] [] [] [] [] = (inr report, h') /\
     count (check_mark ++ lit " a@x.com") report = 2) /\
  (exists report h',
     Main.send_professional_email offline_world (lit "Hi") (lit "a@x.com")
       (lit "professional") [] [] [] = (inr report, h') /\
     count (Main.check_mark ++ lit " a@x.com") report = 1).
Proof.
  split; [|split].
  - intros name_list k recipient r rest. cbn [Server.status_lines]. cbv zeta.
    exists (if (k <? length name_list) && nonempty (nth k name_list [])
            then lit " (" ++ nth k name_list [] ++ lit ")" else []).
    unfold status_entry, status_icon.
    repeat rewrite <- app_assoc. reflexivity.
  - do 2 eexists. split; [vm_compute; reflexivity|]. vm_compute. reflexivity.
  - do 2 eexists. split; [vm_compute; reflexivity|]. vm_compute. reflexivity.
Qed.

(* ===================================================================== *)
(** ** Attachments *)
(* ===================================================================== *)

(** What the attachment loop has gathered when it gets to its end. *)
Lemma attach_files_spec w files :
  forall ps attached_files missing_files ps' attached' missing',
    Server.attach_files w files (ps, attached_files, missing_files)
    = inr (ps', attached', missing') ->
    missing' = missing_files ++ filter (is_missing w) files /\
    attached' = attached_files
                ++ map (os_path_basename w) (filter (os_path_isfile w) files) /\
    file_names ps' = file_names ps
                     ++ map (os_path_basename w) (filter (os_path_isfile w) files).
Proof.
  assert (FN : forall a b, file_names (a ++ b) = file_names a ++ file_names b).
  { induction a as [|[|] a IH]; intros b; simpl; rewrite ?IH; reflexivity. }
  induction files as [|file_path rest IH];
    intros ps attached_files missing_files ps' attached' missing' H.
  - simpl in H. inversion H; subst. simpl. rewrite !app_nil_r. auto.
  - cbn [Server.attach_files] in H. cbn [filter]. unfold is_missing at 1.
    destruct (os_path_isfile w file_path) eqn:E; cbn [negb] in *.
    + destruct (split1 (lit "/") (Server.content_type w file_path))
        as [|maintype [|subtype [|x l]]]; try discriminate.
      destruct (read_binary w file_path) as [e|data]; [discriminate|].
      cbv zeta in H.
      destruct (utf8_encode_error (os_path_basename w file_path));
        [discriminate|].
      apply IH in H. destruct H as (-> & -> & ->).
      rewrite FN. simpl. rewrite <- !app_assoc. auto.
    + apply IH in H. destruct H as (-> & -> & ->).
      rewrite <- !app_assoc. auto.
Qed.

(** A missing file raises nothing: the loop gets to its end when the
    files that exist can be loaded. *)
Lemma attach_files_total w files :
  (forall p, In p files -> os_path_isfile w p = true -> loadable w p = true) ->
  forall acc, exists res, Server.attach_files w files acc = inr res.
Proof.
  induction files as [|file_path rest IH]; intros Hl [[ps a] m].
  - eexists; reflexivity.
  - cbn [Server.attach_files].
    destruct (os_path_isfile w file_path) eqn:E; cbn [negb].
    + pose proof (Hl file_path (or_introl eq_refl) E) as L.
      unfold loadable in L.
      destruct (split1 (lit "/") (Server.content_type w file_path))
        as [|maintype [|subtype [|x l]]]; try discriminate.
      destruct (read_binary w file_path) as [e|data]; [discriminate|].
      cbv zeta.
      destruct (utf8_encode_error (os_path_basename w file_path));
        [discriminate|].
      apply IH. intros; apply Hl; simpl; auto.
    + apply IH. intros; apply Hl; simpl; auto.
Qed.

Lemma prepare_spec w attachments ps attached_files missing_files :
  Server.prepare w attachments = inr (ps, attached_files, missing_files) ->
  missing_files = filter (is_missing w) (or_nil attachments) /\
  file_names ps
  = map (os_path_basename w) (filter (os_path_isfile w) (or_nil attachments)).
Proof.
  unfold Server.prepare. destruct (truthy attachments) eqn:T.
  - intros H. apply attach_files_spec in H. destruct H as (-> & _ & ->). auto.
  - intros H. inversion H; subst.
    destruct attachments as [[|a l]|]; try discriminate; auto.
Qed.

(** The loop gathers the same parts and names, or stops on the same
    exception, when the paths that name no file are left out. *)
Lemma attach_files_existing w files :
  forall ps attached_files missing_files missing0,
    match Server.attach_files w files (ps, attached_files, missing_files) with
    | inl e =>
        Server.attach_files w (filter (os_path_isfile w) files)
          (ps, attached_files, missing0) = inl e
    | inr (ps', attached', _) =>
        Server.attach_files w (filter (os_path_isfile w) files)
          (ps, attached_files, missing0) = inr (ps', attached', missing0)
    end.
Proof.
  induction files as [|file_path rest IH]; intros ps a m m0; [reflexivity|].
  cbn [Server.attach_files filter].
  destruct (os_path_isfile w file_path) eqn:E; cbn [negb].
  - cbn [Server.attach_files]. rewrite E. cbn [negb].
    destruct (split1 (lit "/") (Server.content_type w file_path))
      as [|maintype [|subtype [|x l]]]; try reflexivity.
    destruct (read_binary w file_path) as [e|data]; [reflexivity|].
    cbv zeta.
    destruct (utf8_encode_error (os_path_basename w file_path));
      [reflexivity|].
    apply IH.
  - apply IH.
Qed.

Lemma prepare_existing w attachments :
  truthy attachments = true ->
  match Server.prepare w attachments with
  | inl e =>
      Server.prepare w (Some (filter (os_path_isfile w) (or_nil attachments)))
      = inl e
  | inr (ps, attached_files, _) =>
      Server.prepare w (Some (filter (os_path_isfile w) (or_nil attachments)))
      = inr (ps, attached_files, [])
  end.
Proof.
  intros T. unfold Server.prepare. rewrite T. cbn [or_nil].
  pose proof (attach_files_existing w (or_nil attachments) [] [] [] []) as H.
  destruct (filter (os_path_isfile w) (or_nil attachments)) as [|p l] eqn:F.
  - cbn [truthy]. cbn [Server.attach_files] in H.
    destruct (Server.attach_files w (or_nil attachments) ([], [], []))
      as [e|[[ps a] m]]; [discriminate|]. inversion H; subst. reflexivity.
  - cbn [truthy]. exact H.
Qed.

(** C5, as the code has it.  An attachment path that names no file
    when [send_email] runs never gets into the message: the file parts
    of what is sent are those of the paths that exist, in order.  It
    does not abort the send: the call does with the relay what it does
    when only the paths that exist are given, with the same status and
    the same names attached, and the connection to the relay is opened
    whenever the body can be encoded and the files that do exist can be
    loaded.  The path is in the missing list of the outcome when the
    delivery succeeds; the outcome of a failed delivery has a status and
    a message only. *)
Theorem C5_missing_attachment_is_skipped
    w to_email subject body cc bcc attachments h path :
  In path (or_nil attachments) ->
  os_path_isfile w path = false ->
  exists r h',
    Server.send_email w to_email subject body cc bcc attachments h
    = (inr r, h') /\
    (is_success r = true -> exists ms, missing r = Some ms /\ In path ms) /\
    (is_success r = false -> missing r = None) /\
    (forall from_addr to_addrs msg,
       In (SmtpSendmail from_addr to_addrs msg) (new_events h h') ->
       file_names (parts msg)
       = map (os_path_basename w)
             (filter (os_path_isfile w) (or_nil attachments))) /\
    ~ In path (filter (os_path_isfile w) (or_nil attachments)) /\
    (exists r0,
       Server.send_email w to_email subject body cc bcc
         (Some (filter (os_path_isfile w) (or_nil attachments))) h
       = (inr r0, h') /\
       status r0 = status r /\ attached r0 = attached r) /\
    (utf8_encode_error body = None ->
     (forall p, In p (or_nil attachments) -> os_path_isfile w p = true ->
                loadable w p = true) ->
     In (SmtpConnect (SMTP_SERVER w) (SMTP_PORT w)) (new_events h h')).
Proof.
  intros Hin Hmiss.
  assert (Hnot : ~ In path (filter (os_path_isfile w) (or_nil attachments))).
  { intros Hf. apply filter_In in Hf. destruct Hf as [_ Hf]. congruence. }
  assert (T : truthy attachments = true).
  { destruct attachments as [[|a l]|]; simpl in *; auto; contradiction. }
  pose proof (prepare_existing w attachments T) as Hex.
  rewrite !server_send_email_run.
  destruct (utf8_encode_error body) as [e|] eqn:U.
  { do 2 eexists. split; [reflexivity|].
    split; [discriminate|]. split; [reflexivity|].
    rewrite new_events_app. split; [|split; [exact Hnot|split]].
    - intros ? ? ? [H|[]]. discriminate.
    - eexists. split; [reflexivity|]. split; reflexivity.
    - discriminate. }
  destruct (Server.prepare w attachments) as [e|[[ps a] m]] eqn:P.
  - rewrite Hex. do 2 eexists. split; [reflexivity|].
    split; [discriminate|]. split; [reflexivity|].
    rewrite new_events_app. split; [|split; [exact Hnot|split]].
    + intros ? ? ? [H|[]]. discriminate.
    + eexists. split; [reflexivity|]. split; reflexivity.
    + intros _ Hl. exfalso. unfold Server.prepare in P. rewrite T in P.
      destruct (attach_files_total w (or_nil attachments) Hl ([], [], []))
        as [res Hres]. congruence.
  - rewrite Hex. destruct (prepare_spec w attachments ps a m P) as (Hm & Hf).
    cbv zeta.
    run_session r evs Hc Ha Hp Hs.
    rewrite <- app_assoc.
    assert (Hparts : forall from_addr to_addrs msg,
               In (SmtpSendmail from_addr to_addrs msg)
                  (new_events h (h ++ [SendEmailCalled to_email] ++ evs)) ->
               file_names (parts msg)
               = map (os_path_basename w)
                     (filter (os_path_isfile w) (or_nil attachments))).
    { intros f t m0 H. rewrite new_events_app in H.
      destruct H as [H|H]; [discriminate|].
      destruct (Hs f t m0 H) as (_ & _ & ->). simpl. exact Hf. }
    assert (Hconn : In (SmtpConnect (SMTP_SERVER w) (SMTP_PORT w))
                       (new_events h (h ++ [SendEmailCalled to_email] ++ evs))).
    { rewrite new_events_app. right. exact Hc. }
    destruct r as [e|[]]; do 2 eexists; (split; [reflexivity|]).
    + split; [discriminate|]. split; [reflexivity|].
      split; [exact Hparts|]. split; [exact Hnot|]. split; [|auto].
      eexists. split; [reflexivity|]. split; reflexivity.
    + split.
      * intros _. exists m. split; [reflexivity|]. rewrite Hm.
        apply filter_In. split; [exact Hin|]. unfold is_missing.
        rewrite Hmiss. reflexivity.
      * split; [discriminate|].
        split; [exact Hparts|]. split; [exact Hnot|]. split; [|auto].
        eexists. split; [reflexivity|]. split; reflexivity.
Qed.

(** C5 at work: a missing file, a relay that accepts the message. *)
Lemma C5_witness :
  (In (lit "/tmp/none.pdf") (or_nil (Some [lit "/tmp/none.pdf"])) /\
   os_path_isfile offline_world (lit "/tmp/none.pdf") = false /\
   utf8_encode_error (lit "B") = None) /\
  exists r h',
    Server.send_email offline_world (lit "a@x.com") (PyStr (lit "S")) (lit "B")
      None None (Some [lit "/tmp/none.pdf"]) [] = (inr r, h') /\
    missing r = Some [lit "/tmp/none.pdf"] /\
    In (SmtpConnect (SMTP_SERVER offline_world) (SMTP_PORT offline_world))
       (new_events [] h') /\
    snd (Server.send_email offline_world (lit "a@x.com") (PyStr (lit "S"))
           (lit "B") None None (Some []) []) = h'.
Proof.
  assert (H1 : In (lit "/tmp/none.pdf") (or_nil (Some [lit "/tmp/none.pdf"])))
    by (left; reflexivity).
  assert (H2 : os_path_isfile offline_world (lit "/tmp/none.pdf") = false)
    by reflexivity.
  assert (H3 : utf8_encode_error (lit "B") = None) by reflexivity.
  split; [repeat split; assumption|].
  destruct (C5_missing_attachment_is_skipped offline_world (lit "a@x.com")
              (PyStr (lit "S")) (lit "B") None None
              (Some [lit "/tmp/none.pdf"]) [] (lit "/tmp/none.pdf") H1 H2)
    as (r & h' & E & _ & _ & _ & _ & (r0 & E0 & _) & Hc).
  exists r, h'. split; [exact E|]. split; [|split].
  - vm_compute in E. inversion E. reflexivity.
  - apply Hc; [exact H3|]. intros p _ Hp. discriminate Hp.
  - cbn [or_nil filter] in E0. rewrite H2 in E0. rewrite E0. reflexivity.
Defined.

(** C5 as stated fails where the delivery itself fails: the outcome
    is the error dictionary, which has no list of missing files. *)
Lemma C5_counterexample :
  os_path_isfile staged_world (lit "/tmp/none.pdf") = false /\
  exists r h',
    Server.send_email staged_world (lit "a@x.com") (PyStr (lit "S")) (lit "B")
      None None (Some [lit "/tmp/none.pdf"]) [] = (inr r, h') /\
    missing r = None /\
    ~ In (lit "/tmp/none.pdf") (or_nil (missing r)).
Proof.
  split; [reflexivity|].
  do 2 eexists. split; [vm_compute; reflexivity|].
  split; [reflexivity|]. simpl. auto.
Qed.

(* ===================================================================== *)
(** ** Attachment paths *)
(* ===================================================================== *)

(** C8, as the code has it.  Every relative attachment path is
    resolved against the directory of the module, the parent of the
    staging directory [temp_attachments], and not against the staging
    directory; an absolute path is left as it is.  The existence check
    of [send_email] is made on the resolved paths. *)
Theorem C8_relative_paths_resolved_against_module_directory w attachments :
  or_nil (Server.attachment_list_of w attachments)
  = map (Server.resolve w) (path_pieces attachments) /\
  (forall path, os_path_isabs w path = false ->
                Server.resolve w path = os_path_join w (module_dir w) path) /\
  (forall path, os_path_isabs w path = true -> Server.resolve w path = path) /\
  Server.temp_dir w = os_path_join w (module_dir w) (lit "temp_attachments") /\
  (forall ps attached_files missing_files,
     Server.prepare w (Server.attachment_list_of w attachments)
     = inr (ps, attached_files, missing_files) ->
     missing_files
     = filter (is_missing w) (map (Server.resolve w) (path_pieces attachments))).
Proof.
  assert (E : or_nil (Server.attachment_list_of w attachments)
              = map (Server.resolve w) (path_pieces attachments)).
  { unfold Server.attachment_list_of, path_pieces.
    destruct (nonempty attachments) eqn:N.
    - destruct (map (Server.resolve w) _); reflexivity.
    - apply nonempty_false in N; subst. reflexivity. }
  split; [exact E|]. split; [|split; [|split]].
  - intros path H. unfold Server.resolve. rewrite H. reflexivity.
  - intros path H. unfold Server.resolve. rewrite H. reflexivity.
  - reflexivity.
  - intros ps a m H. apply prepare_spec in H. destruct H as [-> _].
    rewrite E. reflexivity.
Qed.

(** C8 as stated fails for an upload that [save_temp_file] stored:
    given by its bare name, it is looked for next to the module, where
    it is not, instead of in the staging directory, where it is. *)
Lemma C8_counterexample :
  os_path_isabs staged_world (lit "report.pdf") = false /\
  Server.saved_path staged_world (lit "report.pdf")
  = lit "/srv/app/temp_attachments/report.pdf" /\
  os_path_isfile staged_world (Server.saved_path staged_world (lit "report.pdf"))
  = true /\
  Server.attachment_list_of staged_world (lit "report.pdf")
  = Some [lit "/srv/app/report.pdf"] /\
  Server.attachment_list_of staged_world (lit "report.pdf")
  <> Some [Server.saved_path staged_world (lit "report.pdf")] /\
  Server.prepare staged_world
    (Server.attachment_list_of staged_world (lit "report.pdf"))
  = inr ([], [], [lit "/srv/app/report.pdf"]).
Proof.
  repeat split; try reflexivity.
  vm_compute. discriminate.
Qed.

(* ===================================================================== *)
(** ** More on one delivery *)
(* ===================================================================== *)

Lemma smtp_session_shape w to_email cc bcc msg h :
  exists r evs,
    smtp_session w to_email cc bcc msg h = (r, h ++ evs) /\
    In evs (session_shapes w (to_email :: or_nil cc ++ or_nil bcc) msg) /\
    (r = inr tt -> evs = full_session w (to_email :: or_nil cc ++ or_nil bcc) msg).
Proof.
  unfold smtp_session, with_smtp, bind, call, unit_answer.
  rewrite extend_if_envelope.
  unfold session_shapes, full_session.
  destruct (smtp_connect w h (SMTP_SERVER w) (SMTP_PORT w)).
  - do 2 eexists. split; [reflexivity|]. split; [left; reflexivity|].
    discriminate.
  - unfold lift.
    destruct (smtp_starttls w _);
      [|destruct (smtp_login w _ _ _);
        [|destruct (as_string_error w msg);
          [|destruct (smtp_sendmail w _ _ _ _)]]];
      destruct (smtp_quit w _);
      repeat rewrite <- app_assoc; cbn [app];
      (do 2 eexists; split; [reflexivity|]);
      (split; [cbn [In]; auto 6 | try discriminate; auto]).
Qed.

(** X1.  What an outcome says of the session.  [send_email] (of either
    module) reports success only after a complete session: connection,
    STARTTLS, login, one [sendmail] with the message and the envelope,
    and a QUIT that went through; the outcome of [server.py] then lists
    the names attached and the paths missing.  Otherwise the outcome is
    the error dictionary with the text "Failed to send to (recipient):
    (exception)". *)
Theorem X1_send_email_success_means_full_session
    w to_email subject body cc bcc attachments h :
  (exists r evs,
     Server.send_email w to_email subject body cc bcc attachments h
     = (inr r, h ++ SendEmailCalled to_email :: evs) /\
     (is_success r = true ->
      exists ps attached_files missing_files,
        Server.prepare w attachments = inr (ps, attached_files, missing_files) /\
        evs = full_session w (to_email :: or_nil cc ++ or_nil bcc)
                {| headers := new_message w to_email subject cc;
                   parts := TextPart body (lit "plain") :: ps |} /\
        attached r = Some attached_files /\ missing r = Some missing_files) /\
     (is_success r = false -> exists e, r = failed_to_send to_email e)) /\
  (exists r evs,
     Main.send_email w to_email subject body cc bcc h
     = (inr r, h ++ SendEmailCalled to_email :: evs) /\
     (is_success r = true ->
      evs = full_session w (to_email :: or_nil cc ++ or_nil bcc)
              {| headers := new_message w to_email subject cc;
                 parts := [TextPart body (lit "plain")] |} /\
      message r = lit "Email sent to " ++ to_email) /\
     (is_success r = false -> exists e, r = failed_to_send to_email e)).
Proof.
  split.
  - rewrite server_send_email_run.
    destruct (utf8_encode_error body) as [e|];
      [|destruct (Server.prepare w attachments) as [e|[[ps a] m]]].
    + exists (failed_to_send to_email e), [].
      split; [reflexivity|]. split; [discriminate | eauto].
    + exists (failed_to_send to_email e), [].
      split; [reflexivity|]. split; [discriminate | eauto].
    + cbv zeta.
      match goal with
      | |- context [smtp_session ?w ?t ?c ?b ?msg ?h0] =>
          destruct (smtp_session_shape w t c b msg h0) as (r & evs & -> & _ & Hf)
      end.
      rewrite <- app_assoc. cbn [app].
      destruct r as [e|[]]; do 2 eexists; (split; [reflexivity|]).
      * split; [discriminate | eauto].
      * split; [|discriminate]. intros _. exists ps, a, m.
        rewrite (Hf eq_refl). auto.
  - rewrite main_send_email_run.
    destruct (utf8_encode_error body) as [e|].
    { exists (failed_to_send to_email e), [].
      split; [reflexivity|]. split; [discriminate | eauto]. }
    cbv zeta.
    match goal with
    | |- context [smtp_session ?w ?t ?c ?b ?msg ?h0] =>
        destruct (smtp_session_shape w t c b msg h0) as (r & evs & -> & _ & Hf)
    end.
    rewrite <- app_assoc. cbn [app].
    destruct r as [e|[]]; do 2 eexists; (split; [reflexivity|]).
    + split; [discriminate | eauto].
    + split; [|discriminate]. intros _. rewrite (Hf eq_refl). auto.
Qed.

(** X1 at work: a relay that takes the message, and one that refuses it. *)
Lemma X1_witness :
  (exists r,
     Server.send_email offline_world (lit "a@x.com") (PyStr (lit "S"))
       (lit "B") None None None []
     = (inr r,
        SendEmailCalled (lit "a@x.com")
        :: full_session offline_world [lit "a@x.com"]
             {| headers := new_message offline_world (lit "a@x.com")
                             (PyStr (lit "S")) None;
                parts := [TextPart (lit "B") (lit "plain")] |}) /\
     is_success r = true /\ attached r = Some [] /\ missing r = Some []) /\
  (exists r e,
     fst (Main.send_email refusing_world (lit "b@x.com") (PyStr (lit "S"))
            (lit "B") None None [])
     = inr r /\
     is_success r = false /\
     r = failed_to_send (lit "b@x.com") e /\
     message r = lit "Failed to send to b@x.com: recipient refused").
Proof.
  destruct (X1_send_email_success_means_full_session offline_world
              (lit "a@x.com") (PyStr (lit "S")) (lit "B") None None None [])
    as [(r & evs & E & Hs & _) _].
  destruct (X1_send_email_success_means_full_session refusing_world
              (lit "b@x.com") (PyStr (lit "S")) (lit "B") None None None [])
    as [_ (r' & evs' & E' & _ & Hf)].
  split.
  - assert (R : is_success r = true).
    { clear - E. vm_compute in E. inversion E. reflexivity. }
    destruct (Hs R) as (ps & a & m & P & Eevs & Ha & Hm).
    vm_compute in P. inversion P; subst ps a m.
    exists r. rewrite E, Eevs. repeat split; assumption.
  - assert (R : is_success r' = false).
    { clear - E'. vm_compute in E'. inversion E'. reflexivity. }
    destruct (Hf R) as [e He].
    exists r', e. rewrite E'. split; [reflexivity|]. split; [exact R|].
    split; [exact He|].
    clear - E'. vm_compute in E'. inversion E'. reflexivity.
Defined.


(** X2.  The order of a session.  Whatever the relay answers, what one call
    of [send_email] (of either module) does after it is entered is
    nothing at all (when the body cannot be encoded, or, in
    [server.py], when an attachment could not be loaded) or one of the
    four sessions of [session_shapes]: one connection, STARTTLS before
    the login, the login before the one [sendmail], and a QUIT at the
    end of every session that got connected.  [main.py]'s [send_email]
    connects exactly when the body can be encoded. *)
Theorem X2_send_email_session_order
    w to_email subject body cc bcc attachments h :
  (exists r evs,
     Server.send_email w to_email subject body cc bcc attachments h
     = (inr r, h ++ SendEmailCalled to_email :: evs) /\
     (evs = [] \/
      exists msg,
        In evs (session_shapes w (to_email :: or_nil cc ++ or_nil bcc) msg)) /\
     connections evs <= 1 /\ length (sent evs) <= 1 /\
     (utf8_encode_error body <> None -> evs = [])) /\
  (exists r evs,
     Main.send_email w to_email subject body cc bcc h
     = (inr r, h ++ SendEmailCalled to_email :: evs) /\
     (evs = [] \/
      exists msg,
        In evs (session_shapes w (to_email :: or_nil cc ++ or_nil bcc) msg)) /\
     connections evs = match utf8_encode_error body with
                       | Some _ => 0
                       | None => 1
                       end /\
     length (sent evs) <= 1 /\
     (utf8_encode_error body <> None -> evs = [])).
Proof.
  assert (C : forall to_addrs msg evs,
             In evs (session_shapes w to_addrs msg) ->
             connections evs = 1 /\ length (sent evs) <= 1).
  { intros to_addrs msg evs H. unfold session_shapes in H. cbn [In] in H.
    destruct H as [<-|[<-|[<-|[<-|[]]]]]; simpl; auto. }
  split.
  - rewrite server_send_email_run.
    destruct (utf8_encode_error body) as [e|];
      [|destruct (Server.prepare w attachments) as [e|[[ps a] m]]].
    + do 2 eexists. split; [reflexivity|]. simpl. auto.
    + do 2 eexists. split; [reflexivity|]. simpl.
      split; [auto|]. split; [auto|]. split; [auto|]. congruence.
    + cbv zeta.
      match goal with
      | |- context [smtp_session ?w ?t ?c ?b ?msg ?h0] =>
          destruct (smtp_session_shape w t c b msg h0) as (r & evs & -> & Hs & _)
      end.
      rewrite <- app_assoc. cbn [app].
      destruct (C _ _ _ Hs) as [C1 C2].
      destruct r as [e|[]]; do 2 eexists; (split; [reflexivity|]);
        (split; [right; eauto|]); (split; [rewrite C1; auto|]);
        (split; [exact C2 | congruence]).
  - rewrite main_send_email_run.
    destruct (utf8_encode_error body) as [e|].
    { do 2 eexists. split; [reflexivity|]. simpl. auto. }
    cbv zeta.
    match goal with
    | |- context [smtp_session ?w ?t ?c ?b ?msg ?h0] =>
        destruct (smtp_session_shape w t c b msg h0) as (r & evs & -> & Hs & _)
    end.
    rewrite <- app_assoc. cbn [app].
    destruct (C _ _ _ Hs) as [C1 C2].
    destruct r as [e|[]]; do 2 eexists; (split; [reflexivity|]);
      (split; [right; eauto|]); (split; [exact C1|]);
      (split; [exact C2 | congruence]).
Qed.

(** X2 at work: a body that cannot be encoded, and one that can. *)
Lemma X2_witness :
  (utf8_encode_error [72%N; 55357%N] <> None /\
   snd (Main.send_email offline_world (lit "a@x.com") (PyStr (lit "S"))
          [72%N; 55357%N] None None [])
   = [SendEmailCalled (lit "a@x.com")]) /\
  connections
    (snd (Main.send_email offline_world (lit "a@x.com") (PyStr (lit "S"))
            (lit "B") None None [])) = 1.
Proof.
  assert (H : utf8_encode_error [72%N; 55357%N] <> None) by discriminate.
  destruct (X2_send_email_session_order offline_world (lit "a@x.com")
              (PyStr (lit "S")) [72%N; 55357%N] None None None [])
    as [_ (r & evs & E & _ & _ & _ & Hn)].
  destruct (X2_send_email_session_order offline_world (lit "a@x.com")
              (PyStr (lit "S")) (lit "B") None None None [])
    as [_ (r' & evs' & E' & _ & Hc & _)].
  split.
  - split; [exact H|]. rewrite E, (Hn H). reflexivity.
  - rewrite E'. cbn [snd app connections]. exact Hc.
Defined.

(** An attachment that exists but cannot be loaded stops the loop. *)
Lemma attach_files_stops w files :
  (exists p, In p files /\ os_path_isfile w p = true /\ loadable w p = false) ->
  forall acc, exists e, Server.attach_files w files acc = inl e.
Proof.
  induction files as [|file_path rest IH]; intros (p & Hin & Hf & Hl) [[ps a] m].
  - destruct Hin.
  - cbn [Server.attach_files].
    destruct (os_path_isfile w file_path) eqn:E; cbn [negb].
    + destruct (loadable w file_path) eqn:L.
      * assert (Hrest : exists p, In p rest /\ os_path_isfile w p = true /\
                                  loadable w p = false).
        { destruct Hin as [<-|Hin]; [congruence | eauto]. }
        unfold loadable in L.
        destruct (split1 (lit "/") (Server.content_type w file_path))
          as [|maintype [|subtype [|x l]]]; try discriminate.
        destruct (read_binary w file_path) as [e|data]; [discriminate|].
        cbv zeta.
        destruct (utf8_encode_error (os_path_basename w file_path));
          [discriminate|].
        apply IH. exact Hrest.
      * unfold loadable in L.
        destruct (split1 (lit "/") (Server.content_type w file_path))
          as [|maintype [|subtype [|x l]]]; eauto.
        destruct (read_binary w file_path) as [e|data]; [eauto|].
        cbv zeta.
        destruct (utf8_encode_error (os_path_basename w file_path));
          [eauto|discriminate].
    + apply IH. destruct Hin as [<-|Hin]; [congruence|]. eauto.
Qed.

(** X3.  No mail without its attachments.  When one of the attachments of
    [server.py]'s [send_email] names a file that exists and cannot be
    loaded (it cannot be read, its content type has no subtype, or its
    name cannot be encoded), the outcome is an error and no connection
    to the relay is opened: the message is not sent without the file. *)
Theorem X3_unloadable_attachment_stops_the_send
    w to_email subject body cc bcc attachments h path :
  In path (or_nil attachments) ->
  os_path_isfile w path = true ->
  loadable w path = false ->
  exists e,
    Server.send_email w to_email subject body cc bcc attachments h
    = (inr (failed_to_send to_email e), h ++ [SendEmailCalled to_email]).
Proof.
  intros Hin Hf Hl. rewrite server_send_email_run.
  destruct (utf8_encode_error body) as [e|]; [exists e; reflexivity|].
  unfold Server.prepare.
  assert (T : truthy attachments = true).
  { destruct attachments as [[|a l]|]; simpl in *; auto; contradiction. }
  rewrite T.
  destruct (attach_files_stops w (or_nil attachments)
              (ex_intro _ path (conj Hin (conj Hf Hl))) ([], [], []))
    as [e ->].
  exists e. reflexivity.
Qed.

(** X3 at work: a file that is there and cannot be read. *)
Lemma X3_witness :
  (In (lit "/srv/app/locked.pdf") (or_nil (Some [lit "/srv/app/locked.pdf"])) /\
   os_path_isfile locked_world (lit "/srv/app/locked.pdf") = true /\
   loadable locked_world (lit "/srv/app/locked.pdf") = false) /\
  new_events []
    (snd (Server.send_email locked_world (lit "a@x.com") (PyStr (lit "S"))
            (lit "B") None None (Some [lit "/srv/app/locked.pdf"]) []))
  = [SendEmailCalled (lit "a@x.com")].
Proof.
  assert (H1 : In (lit "/srv/app/locked.pdf")
                  (or_nil (Some [lit "/srv/app/locked.pdf"])))
    by (left; reflexivity).
  assert (H2 : os_path_isfile locked_world (lit "/srv/app/locked.pdf") = true)
    by reflexivity.
  assert (H3 : loadable locked_world (lit "/srv/app/locked.pdf") = false)
    by reflexivity.
  split; [repeat split; assumption|].
  destruct (X3_unloadable_attachment_stops_the_send locked_world
              (lit "a@x.com") (PyStr (lit "S")) (lit "B") None None
              (Some [lit "/srv/app/locked.pdf"]) [] (lit "/srv/app/locked.pdf")
              H1 H2 H3) as [e He].
  rewrite He. reflexivity.
Defined.

(* ===================================================================== *)
(** ** More on enhancement *)
(* ===================================================================== *)

(** X4.  One call at most.  An enhancement calls the endpoint once, with the
    model of its module and the prompt, and never a second time,
    whatever comes back; [server.py] does not call it at all when the
    key is not configured.  The prompt carries the idea and the tone,
    and in [server.py] the name of the recipient when there is one. *)
Theorem X4_enhancement_calls_endpoint_once
    w main_idea tone recipient_name h :
  snd (Server.enhance_email_with_ai w main_idea tone recipient_name h)
  = h ++ (if is_set (GEMINI_API_KEY w)
          then [GenerateContent Server.model_name
                  (prompt main_idea tone
                     (Server.greeting_instruction recipient_name))]
          else []) /\
  snd (Main.enhance_email_with_ai w main_idea tone h)
  = h ++ [GenerateContent Main.model_name (prompt main_idea tone [])] /\
  (forall greeting_instruction,
     occurs_in (lit "Main idea: " ++ main_idea ++ nl ++ lit "Tone: " ++ tone
                ++ greeting_instruction ++ nl)
               (prompt main_idea tone greeting_instruction)) /\
  (recipient_name <> [] ->
   occurs_in (lit "Recipient name: " ++ recipient_name ++ nl)
             (Server.greeting_instruction recipient_name)).
Proof.
  rewrite server_enhance_run, main_enhance_run. cbv zeta.
  split; [|split; [|split]].
  - destruct (is_set _); [|rewrite app_nil_r; reflexivity].
    destruct (generate_content _ _ _ _); [reflexivity|].
    destruct (parse_response _ _); reflexivity.
  - destruct (generate_content _ _ _ _); [reflexivity|].
    destruct (parse_response _ _); reflexivity.
  - intros gi. unfold prompt, occurs_in.
    exists (lit "You are a professional email writing assistant. Given a short main idea, create a polished, concise, and natural-sounding email."
            ++ nl ++ nl).
    eexists. repeat rewrite <- app_assoc. reflexivity.
  - intros Hn. unfold Server.greeting_instruction.
    apply nonempty_true in Hn. rewrite Hn. unfold occurs_in.
    exists nl. eexists. repeat rewrite <- app_assoc. reflexivity.
Qed.

(** X4 at work: an enhancement for Alice on a machine without a key. *)
Lemma X4_witness :
  lit "Alice" <> [] /\
  snd (Server.enhance_email_with_ai offline_world (lit "We launched")
         (lit "friendly") (lit "Alice") [])
  = [] /\
  occurs_in (lit "Recipient name: Alice" ++ nl)
            (Server.greeting_instruction (lit "Alice")).
Proof.
  assert (H : lit "Alice" <> []) by discriminate.
  destruct (X4_enhancement_calls_endpoint_once offline_world
              (lit "We launched") (lit "friendly") (lit "Alice") [])
    as (E & _ & _ & Hn).
  split; [exact H|]. split; [rewrite E; reflexivity | exact (Hn H)].
Defined.


Lemma startswith_other_first x p c s :
  c <> x -> startswith (x :: p) (c :: s) = false.
Proof.
  intros H. cbn [startswith].
  replace (N.eqb x c) with false; [reflexivity|].
  symmetry. apply N.eqb_neq. congruence.
Qed.

Lemma startswith_same_first x p s :
  startswith (x :: p) (x :: s) = startswith p s.
Proof. cbn [startswith]. rewrite N.eqb_refl. reflexivity. Qed.

Lemma contains_cons sub c s :
  contains sub (c :: s) = startswith sub (c :: s) || contains sub s.
Proof. reflexivity. Qed.

Lemma startswith_backtick_sep sep' c s :
  c <> 96%N -> startswith (96%N :: sep') (c :: s) = false.
Proof. apply startswith_other_first. Qed.

Lemma startswith_json_no_j s :
  no_j_first s -> startswith (lit "json") s = false.
Proof.
  destruct s as [|c s]; [reflexivity|]. simpl no_j_first. intros H.
  change (lit "json") with (106%N :: lit "son").
  apply startswith_other_first; exact H.
Qed.

(** Scanning over a stretch without backticks moves it into the field. *)
Lemma split_go_scan sep' s :
  backtick_free s ->
  forall cur rest,
    split_go (96%N :: sep') 0 cur (s ++ rest)
    = split_go (96%N :: sep') 0 (rev s ++ cur) rest.
Proof.
  induction s as [|c s IH]; intros Hs cur rest; [reflexivity|].
  cbn [app split_go].
  rewrite startswith_backtick_sep by (intros ->; apply Hs; left; reflexivity).
  rewrite IH by (intros Hin; apply Hs; right; exact Hin).
  cbn [rev]. rewrite <- app_assoc. reflexivity.
Qed.

Lemma split_go_skip sep pre :
  forall cur rest,
    split_go sep (length pre) cur (pre ++ rest) = split_go sep 0 cur rest.
Proof.
  induction pre as [|c pre IH]; intros cur rest; [reflexivity|].
  cbn [length app split_go]. apply IH.
Qed.

(** At a separator the field ends and the scan goes on behind it. *)
Lemma split_go_cut a sep' cur rest :
  split_go (a :: sep') 0 cur ((a :: sep') ++ rest)
  = rev cur :: split_go (a :: sep') 0 [] rest.
Proof.
  cbn [app split_go].
  change (a :: sep' ++ rest) with ((a :: sep') ++ rest).
  rewrite startswith_app.
  replace (length (a :: sep') - 1) with (length sep') by (simpl; lia).
  rewrite split_go_skip. reflexivity.
Qed.

Lemma split_go_end sep' s cur :
  backtick_free s ->
  split_go (96%N :: sep') 0 cur s = [rev cur ++ s].
Proof.
  intros Hs. rewrite <- (app_nil_r s) at 1.
  rewrite split_go_scan by exact Hs. cbn [split_go].
  rewrite rev_app_distr, rev_involutive. reflexivity.
Qed.

Lemma contains_scan sep' s rest :
  backtick_free s ->
  contains (96%N :: sep') (s ++ rest) = contains (96%N :: sep') rest.
Proof.
  induction s as [|c s IH]; intros Hs; [reflexivity|].
  cbn [app contains].
  rewrite startswith_backtick_sep by (intros ->; apply Hs; left; reflexivity).
  apply IH. intros Hin; apply Hs; right; exact Hin.
Qed.

Lemma startswith_prefix p p' s :
  startswith (p ++ p') s = true -> startswith p s = true.
Proof.
  revert s; induction p as [|x p IH]; intros s H; [reflexivity|].
  destruct s as [|y s]; simpl in *; [discriminate|].
  apply andb_true_iff in H. destruct H as [-> H]. apply IH; exact H.
Qed.

Lemma contains_prefix p p' s :
  contains (p ++ p') s = true -> contains p s = true.
Proof.
  induction s as [|c s IH]; cbn [contains]; intros H.
  - rewrite orb_false_r in *. eapply startswith_prefix; eauto.
  - apply orb_true_iff in H. destruct H as [H|H].
    + rewrite (startswith_prefix _ _ _ H). reflexivity.
    + rewrite (IH H). apply orb_true_r.
Qed.

Lemma fence_json_text : fence_json = 96%N :: 96%N :: 96%N :: lit "json".
Proof. reflexivity. Qed.

Lemma fence_text : fence = [96%N; 96%N; 96%N].
Proof. reflexivity. Qed.

Lemma fence_json_fence : fence_json = fence ++ lit "json".
Proof. reflexivity. Qed.

(** Behind the closing fence: a text without backticks that does not
    begin with j cannot complete the word json, nor a fence. *)
Lemma no_fence_json_at_close post :
  backtick_free post -> no_j_first post ->
  contains fence_json (fence ++ post) = false.
Proof.
  intros Hb Hj. rewrite fence_json_text, fence_text.
  assert (H0 : forall p, startswith (96%N :: p) post = false).
  { intros p. destruct post as [|c post]; [reflexivity|].
    apply startswith_backtick_sep. intros ->. apply Hb. left; reflexivity. }
  assert (H1 : startswith (lit "json") post = false)
    by (apply startswith_json_no_j; exact Hj).
  assert (H2 : contains (96%N :: 96%N :: 96%N :: lit "json") post = false).
  { rewrite <- (app_nil_r post). rewrite contains_scan by exact Hb.
    reflexivity. }
  cbn [app]. rewrite !contains_cons, !startswith_same_first.
  rewrite H1, !H0, H2. reflexivity.
Qed.

(** A text without three backticks in a row is left as it is. *)
Lemma extract_json_plain text :
  contains fence text = false -> extract_json text = inr text.
Proof.
  intros H. unfold extract_json. rewrite H.
  destruct (contains fence_json text) eqn:E; [|reflexivity].
  rewrite fence_json_fence in E. apply contains_prefix in E. congruence.
Qed.

(** The content of a block behind the fence with the word json. *)
Lemma extract_json_json_block before content after :
  backtick_free before -> backtick_free content -> backtick_free after ->
  extract_json (before ++ fence_json ++ content ++ fence ++ after)
  = inr (strip content).
Proof.
  intros Hb Hc Ha. unfold extract_json.
  assert (C : contains fence_json
                (before ++ fence_json ++ content ++ fence ++ after) = true).
  { apply contains_occurs. exists before. eexists. reflexivity. }
  rewrite C. unfold split. rewrite fence_json_text at 1 2.
  rewrite split_go_scan by exact Hb.
  rewrite <- fence_json_text.
  rewrite fence_json_text at 1 2. rewrite split_go_cut.
  rewrite split_go_scan by exact Hc. unfold index at 1. cbn [nth_error].
  rewrite app_nil_r.
  assert (F : exists field,
             hd_error (split_go (96%N :: 96%N :: 96%N :: lit "json") 0
                         (rev content) (fence ++ after)) = Some field /\
             index (split_go fence 0 [] field) 0 = inr content).
  { rewrite fence_text.
    assert (H0 : forall p, startswith (96%N :: p) after = false).
    { intros p. destruct after as [|c a]; [reflexivity|].
      apply startswith_backtick_sep. intros ->. apply Ha. left; reflexivity. }
    cbn [app]. cbn [split_go]. rewrite !startswith_same_first.
    destruct (startswith (lit "json") after) eqn:J.
    - eexists. split; [reflexivity|]. rewrite rev_involutive.
      rewrite split_go_end by exact Hc. reflexivity.
    - rewrite !H0. rewrite split_go_end by exact Ha.
      eexists. split; [reflexivity|].
      cbn [rev]. rewrite <- !app_assoc. rewrite rev_involutive. cbn [app].
      change (content ++ 96%N :: 96%N :: 96%N :: after)
        with (content ++ [96%N; 96%N; 96%N] ++ after).
      rewrite split_go_scan by exact Hc. rewrite split_go_cut.
      rewrite app_nil_r, rev_involutive. reflexivity. }
  destruct F as (field & Hf & Hi).
  destruct (split_go _ 0 (rev content) (fence ++ after)) as [|f l];
    [discriminate|].
  inversion Hf; subst f. rewrite Hi. reflexivity.
Qed.

(** The content of a block behind the bare fence. *)
Lemma extract_json_bare_block before content after :
  backtick_free before -> backtick_free content -> backtick_free after ->
  no_j_first content -> no_j_first after ->
  extract_json (before ++ fence ++ content ++ fence ++ after)
  = inr (strip content).
Proof.
  intros Hb Hc Ha Jc Ja. unfold extract_json.
  assert (C : contains fence_json
                (before ++ fence ++ content ++ fence ++ after) = false).
  { rewrite fence_json_text. rewrite contains_scan by exact Hb.
    rewrite <- fence_json_text.
    assert (H1 : startswith (lit "json") (content ++ fence ++ after) = false).
    { apply startswith_json_no_j.
      destruct content as [|c content]; [simpl; discriminate | exact Jc]. }
    assert (H0 : forall p,
               startswith (96%N :: p) (content ++ fence ++ after) = true ->
               content = []).
    { intros p. destruct content as [|c content]; [reflexivity|].
      cbn [app]. rewrite startswith_backtick_sep; [discriminate|].
      intros ->. apply Hc. left; reflexivity. }
    assert (H2 : contains fence_json (content ++ fence ++ after) = false).
    { rewrite fence_json_text. rewrite contains_scan by exact Hc.
      rewrite <- fence_json_text. apply no_fence_json_at_close; assumption. }
    assert (J : startswith (lit "json") after = false)
      by (apply startswith_json_no_j; exact Ja).
    assert (B : forall p, startswith (96%N :: p) after = false).
    { intros p. destruct after as [|c a]; [reflexivity|].
      apply startswith_backtick_sep. intros ->. apply Ha. left; reflexivity. }
    rewrite fence_json_text, fence_text in *.
    cbn [app] in *. rewrite !contains_cons, !startswith_same_first.
    rewrite H1.
    destruct (startswith (96%N :: lit "json")
                (content ++ 96%N :: 96%N :: 96%N :: after)) eqn:S1.
    { pose proof (H0 _ S1) as E0. subst content. cbn [app] in *.
      rewrite !startswith_same_first in S1.
      change (lit "json") with (106%N :: lit "son") in S1.
      rewrite startswith_other_first in S1; discriminate. }
    destruct (startswith (96%N :: 96%N :: lit "json")
                (content ++ 96%N :: 96%N :: 96%N :: after)) eqn:S2.
    { pose proof (H0 _ S2) as E0. subst content. cbn [app] in *.
      rewrite !startswith_same_first in S2.
      change (lit "json") with (106%N :: lit "son") in S2.
      rewrite startswith_other_first in S2; discriminate. }
    cbn [orb].
    apply orb_false_intro; [exact S1|].
    apply orb_false_intro; [exact S2 | exact H2]. }
  rewrite C.
  assert (C' : contains fence (before ++ fence ++ content ++ fence ++ after)
               = true).
  { apply contains_occurs. exists before. eexists. reflexivity. }
  rewrite C'. unfold split. rewrite fence_text.
  rewrite split_go_scan by exact Hb. rewrite split_go_cut.
  rewrite split_go_scan by exact Hc. rewrite split_go_cut.
  unfold index at 1. cbn [nth_error].
  rewrite app_nil_r, rev_involutive.
  rewrite split_go_end by exact Hc. reflexivity.
Qed.

(** X5.  Fences off.  A text without code fence is handed to the parser as
    it is.  Where a fenced block follows some prose, the parser gets
    the content of the block, stripped, and nothing of the prose before
    or after; this is so for the fence with the word json, and for the
    bare fence when neither the content nor what follows the block
    begins with j (the prose and the content holding no backtick). *)
Theorem X5_fenced_block_is_unwrapped before content after :
  (forall text, contains fence text = false -> extract_json text = inr text) /\
  (backtick_free before -> backtick_free content -> backtick_free after ->
   extract_json (before ++ fence_json ++ content ++ fence ++ after)
   = inr (strip content)) /\
  (backtick_free before -> backtick_free content -> backtick_free after ->
   no_j_first content -> no_j_first after ->
   extract_json (before ++ fence ++ content ++ fence ++ after)
   = inr (strip content)).
Proof.
  split; [|split].
  - apply extract_json_plain.
  - apply extract_json_json_block.
  - apply extract_json_bare_block.
Qed.

Lemma backtick_free_by_test (s : str) :
  existsb (N.eqb 96) s = false -> backtick_free s.
Proof.
  intros H Hin. assert (E : existsb (N.eqb 96) s = true).
  { apply existsb_exists. exists 96%N. split; [exact Hin | reflexivity]. }
  congruence.
Qed.

(** X5 at work: an object between fences, with prose around it. *)
Lemma X5_witness :
  (backtick_free (lit "Here is the email:" ++ nl) /\
   backtick_free (nl ++ sample_text ++ nl) /\
   backtick_free (nl ++ lit "Anything else?") /\
   no_j_first (nl ++ sample_text ++ nl) /\
   no_j_first (nl ++ lit "Anything else?")) /\
  extract_json ((lit "Here is the email:" ++ nl) ++ fence_json
                ++ (nl ++ sample_text ++ nl) ++ fence
                ++ (nl ++ lit "Anything else?"))
  = inr sample_text /\
  extract_json ((lit "Here is the email:" ++ nl) ++ fence
                ++ (nl ++ sample_text ++ nl) ++ fence
                ++ (nl ++ lit "Anything else?"))
  = inr sample_text.
Proof.
  assert (H1 : backtick_free (lit "Here is the email:" ++ nl))
    by (apply backtick_free_by_test; vm_compute; reflexivity).
  assert (H2 : backtick_free (nl ++ sample_text ++ nl))
    by (apply backtick_free_by_test; vm_compute; reflexivity).
  assert (H3 : backtick_free (nl ++ lit "Anything else?"))
    by (apply backtick_free_by_test; vm_compute; reflexivity).
  assert (H4 : no_j_first (nl ++ sample_text ++ nl))
    by (vm_compute; discriminate).
  assert (H5 : no_j_first (nl ++ lit "Anything else?"))
    by (vm_compute; discriminate).
  split; [repeat split; assumption|].
  destruct (X5_fenced_block_is_unwrapped (lit "Here is the email:" ++ nl)
              (nl ++ sample_text ++ nl) (nl ++ lit "Anything else?"))
    as (_ & Hj & Hb).
  split.
  - rewrite (Hj H1 H2 H3). vm_compute. reflexivity.
  - rewrite (Hb H1 H2 H3 H4 H5). vm_compute. reflexivity.
Defined.

(** X6.  An object of the four keys comes back whole.  When the answer of
    the endpoint is a text without three backticks in a row that parses
    to an object, or such a text between a fence with the word json and
    a closing fence (no backtick in it, nor before or after the block),
    and the object binds the four keys, the enhancement of either
    module returns the whole object, whatever else it binds: each of
    the four keys then yields the value the answer binds it to. *)
Theorem X6_object_with_extra_keys_is_returned_whole
    w main_idea tone recipient_name h text d :
  (contains fence (strip text) = false /\
   json_loads w (strip text) = inr (PyDict d)) \/
  (exists before content after,
     strip text = before ++ fence_json ++ content ++ fence ++ after /\
     backtick_free before /\ backtick_free content /\ backtick_free after /\
     json_loads w (strip content) = inr (PyDict d)) ->
  (forall key, In key required_keys -> In key (map fst d)) ->
  (is_set (GEMINI_API_KEY w) = true ->
   generate_content w h Server.model_name
     (prompt main_idea tone (Server.greeting_instruction recipient_name))
   = inr text ->
   fst (Server.enhance_email_with_ai w main_idea tone recipient_name h)
   = inr (PyDict d)) /\
  (generate_content w h Main.model_name (prompt main_idea tone []) = inr text ->
   fst (Main.enhance_email_with_ai w main_idea tone h) = inr (PyDict d)) /\
  (forall key, In key required_keys ->
     exists v, In (key, v) d /\ subscript (PyDict d) key = inr v).
Proof.
  intros Ha Hk.
  assert (Hp : parse_response w text = inr (PyDict d)).
  { unfold parse_response.
    assert (E : exists t, extract_json (strip text) = inr t /\
                          json_loads w t = inr (PyDict d)).
    { destruct Ha as [[Hf Hj]|(before & content & after & -> & Hb & Hc & Hx & Hj)].
      - exists (strip text). split; [apply extract_json_plain; exact Hf | exact Hj].
      - exists (strip content).
        split; [apply extract_json_json_block; assumption | exact Hj]. }
    destruct E as (t & -> & ->).
    rewrite all_in_complete; [reflexivity|].
    intros key Hin. simpl. f_equal. apply keys_bound, Hk, Hin. }
  rewrite server_enhance_run, main_enhance_run. cbv zeta.
  split; [|split].
  - intros -> ->. rewrite Hp. reflexivity.
  - intros ->. rewrite Hp. reflexivity.
  - intros key Hin. apply subscript_bound, Hk, Hin.
Qed.

(** X6 at work: a bare object with a fifth key, and a fenced object. *)
Lemma X6_witness :
  (contains fence (strip extra_text) = false /\
   json_loads extra_world (strip extra_text) = inr (PyDict extra_object) /\
   strip sample_answer = [] ++ fence_json ++ (nl ++ sample_text ++ nl)
                         ++ fence ++ [] /\
   backtick_free (nl ++ sample_text ++ nl) /\
   json_loads online_world (strip (nl ++ sample_text ++ nl))
   = inr (PyDict sample_object)) /\
  fst (Server.enhance_email_with_ai extra_world (lit "We launched")
         (lit "friendly") (lit "Alice") [])
  = inr (PyDict extra_object) /\
  fst (Main.enhance_email_with_ai extra_world (lit "We launched")
         (lit "friendly") [])
  = inr (PyDict extra_object) /\
  fst (Server.enhance_email_with_ai online_world (lit "We launched")
         (lit "friendly") (lit "Alice") [])
  = inr (PyDict sample_object) /\
  subscript (PyDict sample_object) (lit "body")
  = inr (PyStr (lit "The dashboard is live.")).
Proof.
  assert (H1 : contains fence (strip extra_text) = false)
    by (vm_compute; reflexivity).
  assert (H2 : json_loads extra_world (strip extra_text)
               = inr (PyDict extra_object)) by (vm_compute; reflexivity).
  assert (H3 : forall key,
             In key required_keys -> In key (map fst extra_object)).
  { intros key. unfold extra_object, sample_object, required_keys. simpl.
    tauto. }
  assert (H4 : strip sample_answer
               = [] ++ fence_json ++ (nl ++ sample_text ++ nl) ++ fence ++ [])
    by (vm_compute; reflexivity).
  assert (H5 : backtick_free (nl ++ sample_text ++ nl))
    by (apply backtick_free_by_test; vm_compute; reflexivity).
  assert (H6 : json_loads online_world (strip (nl ++ sample_text ++ nl))
               = inr (PyDict sample_object)) by (vm_compute; reflexivity).
  assert (H7 : forall key,
             In key required_keys -> In key (map fst sample_object)).
  { intros key. unfold sample_object, required_keys. simpl. tauto. }
  assert (H8 : backtick_free []) by (intros []).
  split; [repeat split; assumption|].
  destruct (X6_object_with_extra_keys_is_returned_whole extra_world
              (lit "We launched") (lit "friendly") (lit "Alice") []
              extra_text extra_object (or_introl (conj H1 H2)) H3)
    as (Hs & Hm & _).
  destruct (X6_object_with_extra_keys_is_returned_whole online_world
              (lit "We launched") (lit "friendly") (lit "Alice") []
              sample_answer sample_object) as (Hs' & _ & Hv); [|exact H7|].
  { right. exists [], (nl ++ sample_text ++ nl), [].
    split; [exact H4|]. repeat split; assumption. }
  split; [apply Hs; reflexivity|]. split; [apply Hm; reflexivity|].
  split; [apply Hs'; reflexivity|].
  reflexivity.
Defined.

Lemma all_in_iff result keys :
  all_in result keys = inr true <->
  forall key, In key keys -> value_contains result key = inr true.
Proof. split; [apply all_in_true | apply all_in_complete]. Qed.

Lemma strings_listed (l : list value) key :
  existsb (fun v => match v with
                    | PyStr s => str_eqb s key
                    | _ => false
                    end) l = true <-> In (PyStr key) l.
Proof.
  rewrite existsb_exists. split.
  - intros (v & Hin & E). destruct v; try discriminate.
    apply str_eqb_eq in E. subst. exact Hin.
  - intros Hin. exists (PyStr key). split; [exact Hin | apply str_eqb_refl].
Qed.

(** X7.  What passes the key check.  An object passes when it binds the
    four keys; but the check is Python's [in], so an array passes when
    the four key names are among its elements, and a string passes when
    the four names occur in it.  Numbers, booleans and [null] make the
    check raise.  An array or a string that passed cannot be indexed by
    a key afterwards: reading the subject off it raises [TypeError]. *)
Theorem X7_key_check_by_kind_of_value :
  (forall d, all_in (PyDict d) required_keys = inr true <->
             forall key, In key required_keys -> In key (map fst d)) /\
  (forall l, all_in (PyList l) required_keys = inr true <->
             forall key, In key required_keys -> In (PyStr key) l) /\
  (forall s, all_in (PyStr s) required_keys = inr true <->
             forall key, In key required_keys -> occurs_in key s) /\
  (forall v, v = PyNone \/ (exists b, v = PyBool b) \/ (exists n, v = PyNum n) ->
             exists msg, all_in v required_keys = inl (TypeError msg)) /\
  (forall l, exists msg, four_fields (PyList l) = inl (TypeError msg)) /\
  (forall s, exists msg, four_fields (PyStr s) = inl (TypeError msg)).
Proof.
  split; [|split; [|split; [|split; [|split]]]].
  - intros d. rewrite all_in_iff. split; intros H key Hin.
    + apply keys_bound. specialize (H key Hin). simpl in H. congruence.
    + simpl. f_equal. apply keys_bound. auto.
  - intros l. rewrite all_in_iff. split; intros H key Hin.
    + apply strings_listed. specialize (H key Hin). simpl in H. congruence.
    + simpl. f_equal. apply strings_listed. auto.
  - intros s. rewrite all_in_iff. split; intros H key Hin.
    + apply contains_occurs. specialize (H key Hin). simpl in H. congruence.
    + simpl. f_equal. apply contains_occurs. auto.
  - intros v [->|[[b ->]|[n ->]]]; eexists; reflexivity.
  - intros l. eexists; reflexivity.
  - intros s. eexists; reflexivity.
Qed.

(** X8.  The fallback and the idea.  The subject of the fallback is never
    longer than 58 characters and is the whole idea behind ["Update: "]
    when the idea has 50 characters at most; the body carries the whole
    idea, however long. *)
Theorem X8_fallback_subject_is_bounded main_idea :
  exists subject body,
    subscript (fallback main_idea) (lit "subject") = inr (PyStr subject) /\
    subscript (fallback main_idea) (lit "body") = inr (PyStr body) /\
    length subject <= 58 /\
    length subject = 8 + Nat.min 50 (length main_idea) /\
    (length main_idea <= 50 -> subject = lit "Update: " ++ main_idea) /\
    occurs_in main_idea body.
Proof.
  do 2 eexists. split; [reflexivity|]. split; [reflexivity|].
  rewrite length_app, length_firstn.
  change (length (lit "Update: ")) with 8.
  split; [lia|]. split; [reflexivity|]. split.
  - intros H. rewrite firstn_all2 by exact H. reflexivity.
  - exists (lit "I wanted to reach out regarding: "). eexists. reflexivity.
Qed.

(** A value that does not get through the key check is not returned. *)
Lemma fails_key_check_rejected v :
  fails_key_check v -> all_in v required_keys <> inr true.
Proof.
  intros F A. rewrite all_in_iff in A.
  destruct v as [|b|n|s|l|d]; try (specialize (A _ (or_introl eq_refl));
                                   discriminate A);
    destruct F as (key & Hin & Hn); specialize (A key Hin); simpl in A;
    apply Hn; inversion A as [A'].
  - apply contains_occurs. exact A'.
  - apply strings_listed. exact A'.
  - apply keys_bound. exact A'.
Qed.

Lemma answer_fails_parse w text :
  answer_fails w (inr text) -> exists e, parse_response w text = inl e.
Proof.
  intros (t & Ht & H). unfold parse_response. rewrite Ht.
  destruct (json_loads w t) as [e|v]; [eauto|].
  apply fails_key_check_rejected in H.
  destruct (all_in v required_keys) as [e|[|]]; eauto. congruence.
Qed.

(** X17.  The enhancement never raises.  [enhance_email_with_ai], of either
    module, always returns a value.  It returns the fallback, four
    non-empty strings, when the key is not configured ([server.py]),
    when the endpoint raises, when what is left of the answer once the
    fences are off does not parse, and when the parsed value does not
    get through the key check: an object that lacks a required key, an
    array or a string without one of the four names in it, a number, a
    boolean or [null]. *)
Theorem X17_enhancement_never_raises
    w main_idea tone recipient_name h :
  (exists v h', Server.enhance_email_with_ai w main_idea tone recipient_name h
                = (inr v, h')) /\
  (exists v h', Main.enhance_email_with_ai w main_idea tone h = (inr v, h')) /\
  (is_set (GEMINI_API_KEY w) = false \/
   answer_fails w
     (generate_content w h Server.model_name
        (prompt main_idea tone (Server.greeting_instruction recipient_name))) ->
   fst (Server.enhance_email_with_ai w main_idea tone recipient_name h)
   = inr (fallback main_idea)) /\
  (answer_fails w
     (generate_content w h Main.model_name (prompt main_idea tone [])) ->
   fst (Main.enhance_email_with_ai w main_idea tone h)
   = inr (fallback main_idea)) /\
  (forall key, In key required_keys ->
     exists s, subscript (fallback main_idea) key = inr (PyStr s) /\ s <> []).
Proof.
  rewrite server_enhance_run, main_enhance_run. cbv zeta.
  split; [|split; [|split; [|split]]].
  - destruct (is_set _); [|eauto].
    destruct (generate_content _ _ _ _); [eauto|].
    destruct (parse_response _ _); eauto.
  - destruct (generate_content _ _ _ _); [eauto|].
    destruct (parse_response _ _); eauto.
  - intros [-> | Hf]; [reflexivity|].
    destruct (is_set _); [|reflexivity].
    destruct (generate_content _ _ _ _) as [e|text]; [reflexivity|].
    destruct (answer_fails_parse _ _ Hf) as [e ->]. reflexivity.
  - intros Hf.
    destruct (generate_content _ _ _ _) as [e|text]; [reflexivity|].
    destruct (answer_fails_parse _ _ Hf) as [e ->]. reflexivity.
  - apply fallback_fields.
Qed.

(** X17 at work: no key for [server.py], an endpoint that raises for
    [main.py], and an answer that is an object without a closing. *)
Lemma X17_witness :
  (is_set (GEMINI_API_KEY offline_world) = false /\
   answer_fails offline_world
     (generate_content offline_world [] Main.model_name
        (prompt (lit "Quarterly numbers are in") (lit "formal") [])) /\
   answer_fails short_world
     (generate_content short_world [] Main.model_name
        (prompt (lit "Hi") (lit "formal") []))) /\
  fst (Server.enhance_email_with_ai offline_world
         (lit "Quarterly numbers are in") (lit "formal") (lit "Ann") [])
  = inr (fallback (lit "Quarterly numbers are in")) /\
  fst (Main.enhance_email_with_ai offline_world
         (lit "Quarterly numbers are in") (lit "formal") [])
  = inr (fallback (lit "Quarterly numbers are in")) /\
  fst (Main.enhance_email_with_ai short_world (lit "Hi") (lit "formal") [])
  = inr (fallback (lit "Hi")).
Proof.
  assert (H1 : is_set (GEMINI_API_KEY offline_world) = false) by reflexivity.
  assert (H2 : answer_fails offline_world
                 (generate_content offline_world [] Main.model_name
                    (prompt (lit "Quarterly numbers are in") (lit "formal") [])))
    by exact I.
  assert (H3 : answer_fails short_world
                 (generate_content short_world [] Main.model_name
                    (prompt (lit "Hi") (lit "formal") []))).
  { exists short_text. split; [vm_compute; reflexivity|].
    assert (E : json_loads short_world short_text
                = inr (PyDict [(lit "subject", PyStr (lit "Launch"))]))
      by (vm_compute; reflexivity).
    rewrite E. exists (lit "closing").
    split; [unfold required_keys; simpl; auto|].
    simpl. intros [H|[]]. discriminate H. }
  destruct (X17_enhancement_never_raises offline_world
              (lit "Quarterly numbers are in") (lit "formal") (lit "Ann") [])
    as (_ & _ & Hs & Hm & _).
  destruct (X17_enhancement_never_raises short_world
              (lit "Hi") (lit "formal") [] [])
    as (_ & _ & _ & Hm' & _).
  split; [repeat split; assumption|].
  split; [apply Hs; left; exact H1|].
  split; [apply Hm; exact H2 | apply Hm'; exact H3].
Defined.

(* ===================================================================== *)
(** ** More on the batch *)
(* ===================================================================== *)

Lemma sent_app (a b : list event) : sent (a ++ b) = sent a ++ sent b.
Proof.
  induction a as [|e a IH]; simpl; [reflexivity|].
  destruct e; simpl; rewrite IH; reflexivity.
Qed.

Lemma connections_app (a b : list event) :
  connections (a ++ b) = connections a + connections b.
Proof.
  induction a as [|e a IH]; simpl; [reflexivity|].
  destruct e; simpl; rewrite IH; reflexivity.
Qed.

(** What a session leaves in the history, by its result. *)
Lemma session_shape_facts w to_addrs msg evs :
  In evs (session_shapes w to_addrs msg) ->
  attempts evs = [] /\ prompts evs = [] /\ connections evs = 1 /\
  (sent evs = [] \/ sent evs = [(to_addrs, msg)]) /\
  (evs = full_session w to_addrs msg -> sent evs = [(to_addrs, msg)]).
Proof.
  unfold session_shapes, full_session. cbn [In].
  intros [<-|[<-|[<-|[<-|[]]]]]; simpl;
    repeat split; auto; intros H; inversion H.
Qed.

Lemma server_send_email_trace w to_email subject body cc bcc attachments h :
  exists r evs,
    Server.send_email w to_email subject body cc bcc attachments h
      = (inr r, h ++ SendEmailCalled to_email :: evs) /\
    prompts evs = [] /\ connections evs <= 1 /\
    (sent evs = [] \/
     exists item, sent evs = [item] /\ addressed_to w cc bcc to_email item) /\
    (is_success r = true -> length (sent evs) = 1).
Proof.
  rewrite server_send_email_run.
  destruct (utf8_encode_error body) as [e|];
    [|destruct (Server.prepare w attachments) as [e|[[ps a] m]]].
  - do 2 eexists. split; [reflexivity|]. simpl.
    repeat split; auto. discriminate.
  - do 2 eexists. split; [reflexivity|]. simpl.
    repeat split; auto. discriminate.
  - cbv zeta.
    match goal with
    | |- context [smtp_session ?w ?t ?c ?b ?msg ?h0] =>
        destruct (smtp_session_shape w t c b msg h0) as (r & evs & -> & Hs & Hf)
    end.
    rewrite <- app_assoc. cbn [app].
    destruct (session_shape_facts _ _ _ _ Hs) as (_ & Hp & Hc & Hsent & Hfull).
    assert (A : sent evs = [] \/
                exists item, sent evs = [item] /\
                             addressed_to w cc bcc to_email item).
    { destruct Hsent as [E|E]; [left; exact E|]. right.
      eexists. split; [exact E|]. split; [reflexivity|].
      exists subject. reflexivity. }
    destruct r as [e|[]]; do 2 eexists; (split; [reflexivity|]);
      (split; [exact Hp|]); (split; [rewrite Hc; auto|]);
      (split; [exact A|]).
    + discriminate.
    + intros _. rewrite (Hfull (Hf eq_refl)). reflexivity.
Qed.

Lemma main_send_email_trace w to_email subject body cc bcc h :
  exists r evs,
    Main.send_email w to_email subject body cc bcc h
      = (inr r, h ++ SendEmailCalled to_email :: evs) /\
    prompts evs = [] /\
    connections evs = match utf8_encode_error body with
                      | Some _ => 0
                      | None => 1
                      end /\
    (sent evs = [] \/
     sent evs = [(to_email :: or_nil cc ++ or_nil bcc,
                  {| headers := new_message w to_email subject cc;
                     parts := [TextPart body (lit "plain")] |})]) /\
    (is_success r = true -> length (sent evs) = 1).
Proof.
  rewrite main_send_email_run.
  destruct (utf8_encode_error body) as [e|].
  { do 2 eexists. split; [reflexivity|]. simpl.
    repeat split; auto. discriminate. }
  cbv zeta.
  match goal with
  | |- context [smtp_session ?w ?t ?c ?b ?msg ?h0] =>
      destruct (smtp_session_shape w t c b msg h0) as (r & evs & -> & Hs & Hf)
  end.
  rewrite <- app_assoc. cbn [app].
  destruct (session_shape_facts _ _ _ _ Hs) as (_ & Hp & Hc & Hsent & Hfull).
  destruct r as [e|[]]; do 2 eexists; (split; [reflexivity|]);
    (split; [exact Hp|]); (split; [exact Hc|]); (split; [exact Hsent|]).
  - discriminate.
  - intros _. rewrite (Hfull (Hf eq_refl)). reflexivity.
Qed.

Lemma server_enhance_trace w main_idea tone recipient_name h :
  exists v,
    Server.enhance_email_with_ai w main_idea tone recipient_name h
    = (inr v,
       h ++ (if is_set (GEMINI_API_KEY w)
             then [GenerateContent Server.model_name
                     (prompt main_idea tone
                        (Server.greeting_instruction recipient_name))]
             else [])).
Proof.
  rewrite server_enhance_run. cbv zeta.
  destruct (is_set _); [|rewrite app_nil_r; eauto].
  destruct (generate_content _ _ _ _); [eauto|].
  destruct (parse_response _ _); eauto.
Qed.

Lemma main_enhance_trace w main_idea tone h :
  exists v,
    Main.enhance_email_with_ai w main_idea tone h
    = (inr v, h ++ [GenerateContent Main.model_name (prompt main_idea tone [])]).
Proof.
  rewrite main_enhance_run. cbv zeta.
  destruct (generate_content _ _ _ _); [eauto|].
  destruct (parse_response _ _); eauto.
Qed.

(** One round of [server.py]'s loop, by what it leaves in the history. *)
Lemma deliver_one_trace w main_idea tone cc_list bcc_list attachment_list
    recipient recipient_name h :
  exists r c evs,
    Server.deliver_one w main_idea tone cc_list bcc_list attachment_list
      recipient recipient_name h = (inr (r, c), h ++ evs) /\
    prompts evs
    = (if is_set (GEMINI_API_KEY w)
       then [prompt main_idea tone (Server.greeting_instruction recipient_name)]
       else []) /\
    connections evs <= 1 /\
    (sent evs = [] \/
     exists item, sent evs = [item] /\
                  addressed_to w cc_list bcc_list recipient item) /\
    (is_success r = true -> length (sent evs) = 1).
Proof.
  rewrite deliver_one_run.
  destruct (server_enhance_trace w main_idea tone recipient_name h) as (v & ->).
  set (enh := if is_set (GEMINI_API_KEY w)
              then [GenerateContent Server.model_name
                      (prompt main_idea tone
                         (Server.greeting_instruction recipient_name))]
              else []).
  assert (Pe : prompts enh
               = (if is_set (GEMINI_API_KEY w)
                  then [prompt main_idea tone
                          (Server.greeting_instruction recipient_name)]
                  else [])).
  { unfold enh. destruct (is_set _); reflexivity. }
  assert (Ce : connections enh = 0 /\ sent enh = []).
  { unfold enh. destruct (is_set _); split; reflexivity. }
  destruct Ce as [Ce Se].
  destruct (four_fields v) as [e|[[[subject greeting] body_text] closing]].
  - destruct (Server.error_for recipient e) as [r c] eqn:E.
    exists r, c, enh. split; [reflexivity|]. split; [exact Pe|].
    rewrite Ce, Se. split; [lia|]. split; [left; reflexivity|].
    unfold Server.error_for in E. inversion E; subst. discriminate.
  - cbv zeta.
    destruct (server_send_email_trace w recipient subject
                (full_body_of w greeting body_text closing)
                cc_list bcc_list attachment_list (h ++ enh))
      as (r & evs & -> & Hp & Hc & Hs & Hok).
    do 2 eexists. exists (enh ++ SendEmailCalled recipient :: evs).
    rewrite app_assoc. split; [reflexivity|].
    rewrite prompts_app, connections_app, sent_app, Pe, Ce, Se.
    cbn [prompts connections sent app]. rewrite Hp, app_nil_r.
    split; [reflexivity|]. split; [exact Hc|]. split; [exact Hs | exact Hok].
Qed.

(** [server.py]'s loop, by what it leaves in the history. *)
Lemma deliver_all_trace w main_idea tone cc_list bcc_list attachment_list pairs :
  forall results contents h,
  exists rs cs evs,
    Server.deliver_all w main_idea tone cc_list bcc_list attachment_list
      pairs results contents h
    = (inr (results ++ rs, contents ++ cs), h ++ evs) /\
    prompts evs
    = (if is_set (GEMINI_API_KEY w)
       then prompts_for main_idea tone pairs else []) /\
    connections evs <= length pairs /\
    Forall (fun item => exists recipient,
                          In recipient (map fst pairs) /\
                          addressed_to w cc_list bcc_list recipient item)
           (sent evs) /\
    success_count rs <= length (sent evs) /\
    length (sent evs) <= length pairs.
Proof.
  induction pairs as [|[recipient recipient_name] pairs IH];
    intros results contents h.
  - exists [], [], []. simpl. unfold ret. rewrite !app_nil_r.
    split; [reflexivity|]. split; [destruct (is_set _); reflexivity|].
    split; [lia|]. split; [constructor|]. split; [reflexivity | lia].
  - cbn [Server.deliver_all]. unfold bind at 1.
    destruct (deliver_one_trace w main_idea tone cc_list bcc_list
                attachment_list recipient recipient_name h)
      as (r & c & evs1 & -> & Hp & Hc & Hs & Hok).
    destruct (IH (results ++ [r]) (contents ++ [c]) (h ++ evs1))
      as (rs & cs & evs2 & -> & Hp2 & Hc2 & Hs2 & Hn2 & Hl2).
    exists (r :: rs), (c :: cs), (evs1 ++ evs2).
    rewrite <- !app_assoc. cbn [app].
    split; [reflexivity|].
    rewrite prompts_app, connections_app, sent_app, Hp, Hp2.
    split; [destruct (is_set _); reflexivity|].
    split; [cbn [length]; lia|].
    assert (L1 : length (sent evs1) <= 1).
    { destruct Hs as [->|(item & -> & _)]; simpl; lia. }
    split; [|split].
    + apply Forall_app. split.
      * destruct Hs as [->|(item & -> & Ha)]; constructor; [|constructor].
        exists recipient. split; [left; reflexivity | exact Ha].
      * eapply Forall_impl; [|exact Hs2].
        intros item (x & Hin & Ha). exists x. split; [right; exact Hin | exact Ha].
    + rewrite length_app. unfold success_count in *. cbn [filter].
      destruct (is_success r) eqn:S; cbn [length].
      * rewrite (Hok eq_refl). lia.
      * lia.
    + rewrite length_app. cbn [length]. lia.
Qed.

(** X9.  One call of the endpoint for each recipient.  Once the input checks
    pass and the key is configured, [server.py]'s tool calls the
    endpoint once for every recipient, in input order, each time with
    the prompt that carries the name paired with that recipient; when
    the key is not configured it does not call it at all. *)
Theorem X9_server_tool_prompts_follow_the_pairing
    w main_idea recipients tone cc bcc attachments recipient_names h :
  Server.recipient_list_of recipients <> [] ->
  main_idea <> [] ->
  is_set (SMTP_EMAIL w) = true -> is_set (SMTP_PASSWORD w) = true ->
  prompts (new_events h
             (snd (Server.send_professional_email w main_idea recipients
                     tone cc bcc attachments recipient_names h)))
  = (if is_set (GEMINI_API_KEY w)
     then prompts_for main_idea tone (Server.pairing recipients recipient_names)
     else []) /\
  length (prompts_for main_idea tone (Server.pairing recipients recipient_names))
  = length (Server.recipient_list_of recipients).
Proof.
  intros H1 H2 H3 H4.
  destruct (server_tool_run w main_idea recipients tone cc bcc attachments
              recipient_names h H1 H2 H3 H4)
    as (results & contents & evs & first_content & E & R & _).
  destruct (deliver_all_trace w main_idea tone (parse_optional_list cc)
              (parse_optional_list bcc) (Server.attachment_list_of w attachments)
              (Server.pairing recipients recipient_names) [] [] h)
    as (rs & cs & evs' & E' & Hp & _).
  rewrite E in E'. cbn [app] in E'. inversion E' as [[Er Ec Eh]].
  apply app_inv_head in Eh. subst evs'.
  rewrite R. cbn [snd]. rewrite new_events_app.
  split; [exact Hp|].
  unfold prompts_for. rewrite length_map.
  rewrite <- (pairing_fst recipients recipient_names), length_map. reflexivity.
Qed.

(** X9 at work: two recipients, one name. *)
Lemma X9_witness :
  (Server.recipient_list_of (lit "a@x.com, b@x.com") <> [] /\
   lit "Hi" <> [] /\
   is_set (SMTP_EMAIL online_world) = true /\
   is_set (SMTP_PASSWORD online_world) = true) /\
  prompts (new_events []
             (snd (Server.send_professional_email online_world (lit "Hi")
                     (lit "a@x.com, b@x.com") (lit "friendly") [] [] []
                     (lit "Alice") [])))
  = [ prompt (lit "Hi") (lit "friendly")
        (Server.greeting_instruction (lit "Alice"));
      prompt (lit "Hi") (lit "friendly") [] ].
Proof.
  assert (H1 : Server.recipient_list_of (lit "a@x.com, b@x.com") <> [])
    by (vm_compute; discriminate).
  assert (H2 : lit "Hi" <> []) by (vm_compute; discriminate).
  assert (H3 : is_set (SMTP_EMAIL online_world) = true) by reflexivity.
  assert (H4 : is_set (SMTP_PASSWORD online_world) = true) by reflexivity.
  split; [repeat split; assumption|].
  destruct (X9_server_tool_prompts_follow_the_pairing online_world (lit "Hi")
              (lit "a@x.com, b@x.com") (lit "friendly") [] [] []
              (lit "Alice") [] H1 H2 H3 H4) as (E & _).
  rewrite E. reflexivity.
Defined.

(** X10.  Individually addressed copies.  Whatever [server.py]'s tool hands
    to the relay is a copy made for one recipient of the list: that
    recipient is the one address of the [To] header and the first of
    the envelope, which besides holds the Cc and Bcc addresses only; so
    no primary recipient is shown, or sent, the copy of another.  The
    tool hands over at most one message per recipient and opens at most
    one connection per recipient, and the outcomes it counts as sent
    are never more than the messages handed over. *)
Theorem X10_server_tool_sends_individual_copies
    w main_idea recipients tone cc bcc attachments recipient_names h :
  Server.recipient_list_of recipients <> [] ->
  main_idea <> [] ->
  is_set (SMTP_EMAIL w) = true -> is_set (SMTP_PASSWORD w) = true ->
  exists results contents h',
    Server.deliver_all w main_idea tone (parse_optional_list cc)
      (parse_optional_list bcc) (Server.attachment_list_of w attachments)
      (Server.pairing recipients recipient_names) [] [] h
    = (inr (results, contents), h') /\
    snd (Server.send_professional_email w main_idea recipients tone cc bcc
           attachments recipient_names h) = h' /\
    Forall (fun item =>
              exists recipient,
                In recipient (Server.recipient_list_of recipients) /\
                addressed_to w (parse_optional_list cc) (parse_optional_list bcc)
                             recipient item /\
                In (lit "To", PyStr recipient) (headers (snd item)))
           (sent (new_events h h')) /\
    success_count results <= length (sent (new_events h h')) /\
    length (sent (new_events h h'))
    <= length (Server.recipient_list_of recipients) /\
    connections (new_events h h')
    <= length (Server.recipient_list_of recipients).
Proof.
  intros H1 H2 H3 H4.
  destruct (server_tool_run w main_idea recipients tone cc bcc attachments
              recipient_names h H1 H2 H3 H4)
    as (results & contents & evs & first_content & E & R & _).
  destruct (deliver_all_trace w main_idea tone (parse_optional_list cc)
              (parse_optional_list bcc) (Server.attachment_list_of w attachments)
              (Server.pairing recipients recipient_names) [] [] h)
    as (rs & cs & evs' & E' & _ & Hc & Hs & Hn & Hl).
  rewrite E in E'. cbn [app] in E'. inversion E' as [[Er Ec Eh]].
  apply app_inv_head in Eh. subst evs' rs.
  assert (L : length (Server.pairing recipients recipient_names)
              = length (Server.recipient_list_of recipients)).
  { rewrite <- (pairing_fst recipients recipient_names), length_map.
    reflexivity. }
  rewrite pairing_fst in Hs. rewrite L in *.
  exists results, contents, (h ++ evs).
  split; [exact E|]. split; [rewrite R; reflexivity|].
  rewrite new_events_app.
  split; [|auto].
  eapply Forall_impl; [|exact Hs].
  intros item (recipient & Hin & Ha). exists recipient.
  split; [exact Hin|]. split; [exact Ha|].
  destruct Ha as (_ & subject & ->). unfold new_message.
  apply in_or_app. left. simpl. auto.
Qed.

(** X10 at work: the relay refuses the second of two recipients. *)
Lemma X10_witness :
  (Server.recipient_list_of (lit "a@x.com, b@x.com") <> [] /\
   lit "Hi" <> [] /\
   is_set (SMTP_EMAIL refusing_world) = true /\
   is_set (SMTP_PASSWORD refusing_world) = true) /\
  map fst
    (sent (new_events []
             (snd (Server.send_professional_email refusing_world (lit "Hi")
                     (lit "a@x.com, b@x.com") (lit "professional")
                     (lit "c@x.com") (lit "d@x.com") [] [] []))))
  = [ [lit "a@x.com"; lit "c@x.com"; lit "d@x.com"];
      [lit "b@x.com"; lit "c@x.com"; lit "d@x.com"] ] /\
  length (sent (new_events []
             (snd (Server.send_professional_email refusing_world (lit "Hi")
                     (lit "a@x.com, b@x.com") (lit "professional")
                     (lit "c@x.com") (lit "d@x.com") [] [] [])))) <= 2.
Proof.
  assert (H1 : Server.recipient_list_of (lit "a@x.com, b@x.com") <> [])
    by (vm_compute; discriminate).
  assert (H2 : lit "Hi" <> []) by (vm_compute; discriminate).
  assert (H3 : is_set (SMTP_EMAIL refusing_world) = true) by reflexivity.
  assert (H4 : is_set (SMTP_PASSWORD refusing_world) = true) by reflexivity.
  split; [repeat split; assumption|].
  destruct (X10_server_tool_sends_individual_copies refusing_world (lit "Hi")
              (lit "a@x.com, b@x.com") (lit "professional")
              (lit "c@x.com") (lit "d@x.com") [] [] [] H1 H2 H3 H4)
    as (results & contents & h' & _ & E & _ & _ & L & _).
  rewrite E. split; [|exact L].
  rewrite <- E. vm_compute. reflexivity.
Defined.

Lemma main_send_all_trace w subject full_body cc_list bcc_list recipient_list :
  forall results h,
  exists rs evs,
    Main.send_all w subject full_body cc_list bcc_list recipient_list results h
    = (inr (results ++ rs), h ++ evs) /\
    prompts evs = [] /\
    attempts evs = recipient_list /\
    connections evs = match utf8_encode_error full_body with
                      | Some _ => 0
                      | None => length recipient_list
                      end /\
    Forall (fun item =>
              exists recipient,
                In recipient recipient_list /\
                item = (recipient :: or_nil cc_list ++ or_nil bcc_list,
                        {| headers := new_message w recipient subject cc_list;
                           parts := [TextPart full_body (lit "plain")] |}))
           (sent evs) /\
    success_count rs <= length (sent evs).
Proof.
  induction recipient_list as [|recipient rest IH]; intros results h.
  - exists [], []. simpl. unfold ret. rewrite !app_nil_r.
    repeat split; auto. destruct (utf8_encode_error full_body); reflexivity.
  - cbn [Main.send_all]. unfold bind at 1.
    destruct (main_send_email_trace w recipient subject full_body
                cc_list bcc_list h) as (r & evs1 & E & Hp & Hc & Hs & Hok).
    destruct (main_send_email_events w recipient subject full_body
                cc_list bcc_list h) as (r' & evs1' & E2 & Ha & _).
    rewrite E in E2. inversion E2 as [[Er Eh]].
    apply app_inv_head in Eh. inversion Eh; subst r' evs1'. clear E2 Eh.
    rewrite E.
    destruct (IH (results ++ [r]) (h ++ SendEmailCalled recipient :: evs1))
      as (rs & evs2 & -> & Hp2 & Ha2 & Hc2 & Hs2 & Hn2).
    exists (r :: rs), (SendEmailCalled recipient :: evs1 ++ evs2).
    rewrite <- !app_assoc. cbn [app].
    split; [reflexivity|].
    cbn [prompts attempts connections sent].
    rewrite prompts_app, attempts_app, connections_app, sent_app.
    rewrite Hp, Hp2, Ha, Ha2, Hc, Hc2.
    split; [reflexivity|]. split; [reflexivity|].
    split; [destruct (utf8_encode_error full_body); reflexivity|].
    split.
    + apply Forall_app. split.
      * destruct Hs as [->| ->]; constructor; [|constructor].
        exists recipient. split; [left; reflexivity | reflexivity].
      * eapply Forall_impl; [|exact Hs2].
        intros item (x & Hin & Hx). exists x. split; [right; exact Hin | exact Hx].
    + rewrite length_app. unfold success_count in *. cbn [filter].
      destruct (is_success r) eqn:S; cbn [length].
      * rewrite (Hok eq_refl). lia.
      * lia.
Qed.

Lemma main_compose_trace w main_idea tone h :
  exists r,
    Main.compose w main_idea tone h
    = (r, h ++ [GenerateContent Main.model_name (prompt main_idea tone [])]).
Proof.
  rewrite main_compose_run.
  destruct (main_enhance_trace w main_idea tone h) as (v & ->).
  destruct (four_fields v) as [e|[[[subject greeting] body_text] closing]];
    eauto.
Qed.

(** X11.  One enhancement for the whole batch.  Once the input checks pass,
    [main.py]'s tool calls the endpoint exactly once, however many
    recipients there are.  When the four fields can be read off the
    result, it enters [send_email] once for every recipient, in input
    order, opens one connection for each when the one body it made can
    be encoded and none at all when it cannot, and every message it
    hands to the relay is the same subject and the same body, addressed
    to one recipient of the list.  When the fields cannot be read,
    nothing is sent. *)
Theorem X11_main_tool_shares_one_enhancement
    w main_idea recipients tone cc bcc h :
  parse_list recipients <> [] ->
  main_idea <> [] ->
  is_set (SMTP_EMAIL w) = true -> is_set (SMTP_PASSWORD w) = true ->
  exists answer evs,
    Main.send_professional_email w main_idea recipients tone cc bcc h
    = (inr answer, h ++ evs) /\
    prompts evs = [prompt main_idea tone []] /\
    match fst (Main.compose w main_idea tone h) with
    | inr (subject, full_body) =>
        attempts evs = parse_list recipients /\
        connections evs = match utf8_encode_error full_body with
                          | Some _ => 0
                          | None => length (parse_list recipients)
                          end /\
        Forall (fun item =>
                  exists recipient,
                    In recipient (parse_list recipients) /\
                    item = (recipient :: or_nil (parse_optional_list cc)
                                      ++ or_nil (parse_optional_list bcc),
                            {| headers := new_message w recipient subject
                                            (parse_optional_list cc);
                               parts := [TextPart full_body (lit "plain")] |}))
               (sent evs)
    | inl _ =>
        evs = [GenerateContent Main.model_name (prompt main_idea tone [])]
    end.
Proof.
  intros H1 H2 H3 H4.
  unfold Main.send_professional_email.
  apply nonempty_true in H1, H2. rewrite H1, H2, H3, H4. cbn [negb orb].
  destruct (main_compose_trace w main_idea tone h) as (r & E).
  rewrite E. cbn [fst].
  destruct r as [e|[subject full_body]].
  - do 2 eexists. split; [reflexivity|]. split; reflexivity.
  - unfold bind.
    destruct (main_send_all_trace w subject full_body (parse_optional_list cc)
                (parse_optional_list bcc) (parse_list recipients) []
                (h ++ [GenerateContent Main.model_name (prompt main_idea tone [])]))
      as (rs & evs2 & -> & Hp & Ha & Hc & Hs & _).
    unfold ret. rewrite <- app_assoc.
    do 2 eexists. split; [reflexivity|].
    cbn [app prompts attempts connections sent].
    rewrite Hp, Ha, Hc. split; [reflexivity|]. auto.
Qed.

(** X11 at work: two recipients, one call of the endpoint. *)
Lemma X11_witness :
  (parse_list (lit "a@x.com, b@x.com") <> [] /\ lit "Hi" <> [] /\
   is_set (SMTP_EMAIL online_world) = true /\
   is_set (SMTP_PASSWORD online_world) = true) /\
  exists answer evs,
    Main.send_professional_email online_world (lit "Hi")
      (lit "a@x.com, b@x.com") (lit "friendly") [] [] []
    = (inr answer, evs) /\
    prompts evs = [prompt (lit "Hi") (lit "friendly") []] /\
    attempts evs = [lit "a@x.com"; lit "b@x.com"].
Proof.
  assert (H1 : parse_list (lit "a@x.com, b@x.com") <> [])
    by (vm_compute; discriminate).
  assert (H2 : lit "Hi" <> []) by (vm_compute; discriminate).
  assert (H3 : is_set (SMTP_EMAIL online_world) = true) by reflexivity.
  assert (H4 : is_set (SMTP_PASSWORD online_world) = true) by reflexivity.
  split; [repeat split; assumption|].
  destruct (X11_main_tool_shares_one_enhancement online_world (lit "Hi")
              (lit "a@x.com, b@x.com") (lit "friendly") [] [] []
              H1 H2 H3 H4) as (answer & evs & E & Hp & Hm).
  exists answer, evs. split; [exact E|]. split; [exact Hp|].
  assert (C : fst (Main.compose online_world (lit "Hi") (lit "friendly") [])
              = inr (PyStr (lit "Launch"),
                     full_body_of online_world (PyStr (lit "Hi Alice,"))
                       (PyStr (lit "The dashboard is live."))
                       (PyStr (lit "Cheers"))))
    by (vm_compute; reflexivity).
  rewrite C in Hm. destruct Hm as (Ha & _). rewrite Ha. reflexivity.
Defined.

(* ===================================================================== *)
(** ** Lists of addresses *)
(* ===================================================================== *)

Lemma lstrip_clean s : starts_clean (lstrip s).
Proof.
  induction s as [|c s IH]; simpl; [exact I|].
  destruct (isspace c) eqn:E; [exact IH | exact E].
Qed.

Lemma lstrip_of_clean s : starts_clean s -> lstrip s = s.
Proof. destruct s as [|c s]; simpl; [reflexivity | intros ->; reflexivity]. Qed.

Lemma lstrip_suffix s : exists pre, s = pre ++ lstrip s.
Proof.
  induction s as [|c s IH]; simpl; [exists []; reflexivity|].
  destruct (isspace c).
  - destruct IH as [pre Hpre]. exists (c :: pre). simpl. congruence.
  - exists []. reflexivity.
Qed.

Lemma starts_clean_prefix x y : starts_clean (x ++ y) -> x <> [] -> starts_clean x.
Proof. destruct x; simpl; [congruence | auto]. Qed.

(** [strip] leaves nothing to strip. *)
Lemma strip_idempotent s : strip (strip s) = strip s.
Proof.
  unfold strip, rstrip.
  set (a := lstrip s).
  set (b := lstrip (rev a)).
  assert (Hb : starts_clean b) by apply lstrip_clean.
  assert (Ha : starts_clean a) by apply lstrip_clean.
  assert (Hc : starts_clean (rev b)).
  { destruct (lstrip_suffix (rev a)) as [pre Hpre]. fold b in Hpre.
    assert (E : a = rev b ++ rev pre).
    { rewrite <- rev_app_distr, <- Hpre, rev_involutive. reflexivity. }
    destruct (rev b) eqn:R; [exact I|].
    rewrite E in Ha. exact Ha. }
  rewrite (lstrip_of_clean _ Hc), rev_involutive, (lstrip_of_clean _ Hb).
  reflexivity.
Qed.

Lemma lstrip_incl s x : In x (lstrip s) -> In x s.
Proof.
  destruct (lstrip_suffix s) as [pre Hpre]. intros H.
  rewrite Hpre. apply in_or_app. right. exact H.
Qed.

Lemma strip_incl s x : In x (strip s) -> In x s.
Proof.
  unfold strip, rstrip. intros H.
  apply in_rev, lstrip_incl in H. apply in_rev in H.
  apply lstrip_incl in H. exact H.
Qed.

(** The fields cut at a one-character separator do not hold it. *)
Lemma split_go_fields x s :
  forall cur, ~ In x cur ->
  Forall (fun field => ~ In x field) (split_go [x] 0 cur s).
Proof.
  induction s as [|c s IH]; intros cur Hcur.
  - constructor; [|constructor]. intros H. apply in_rev in H. auto.
  - cbn [split_go]. cbn [startswith].
    destruct (N.eqb_spec x c) as [->|Hne]; cbn [andb].
    + constructor.
      * intros H. apply in_rev in H. auto.
      * apply IH. intros [].
    + apply IH. intros [H|H]; [congruence | auto].
Qed.

(** Where the first character of the separator does not occur, there
    is one field. *)
Lemma split_go_whole x sep' s :
  forall cur, ~ In x s -> split_go (x :: sep') 0 cur s = [rev cur ++ s].
Proof.
  induction s as [|c s IH]; intros cur Hs.
  - cbn [split_go]. rewrite app_nil_r. reflexivity.
  - cbn [split_go].
    rewrite startswith_other_first by (intros ->; apply Hs; left; reflexivity).
    rewrite IH by (intros H; apply Hs; right; exact H).
    cbn [rev]. rewrite <- app_assoc. reflexivity.
Qed.

(** X12.  Parsed lists are clean.  Every entry of a list parsed from a
    comma-separated argument (recipients, names, Cc, Bcc) is non-empty,
    holds no comma, and has no white space at either end. *)
Theorem X12_parsed_entries_are_clean (s entry : str) :
  In entry (parse_list s) ->
  entry <> [] /\ ~ In 44%N entry /\ strip entry = entry /\
  starts_clean entry.
Proof.
  unfold parse_list. intros H.
  apply in_map_iff in H. destruct H as (field & <- & Hin).
  apply filter_In in Hin. destruct Hin as [Hf Hne].
  split; [apply nonempty_true; exact Hne|].
  split; [|split].
  - intros Hc. apply strip_incl in Hc.
    pose proof (split_go_fields 44%N s [] (fun H => H)) as F.
    rewrite Forall_forall in F. exact (F field Hf Hc).
  - apply strip_idempotent.
  - unfold strip, rstrip.
    set (a := lstrip field). set (b := lstrip (rev a)).
    destruct (lstrip_suffix (rev a)) as [pre Hpre]. fold b in Hpre.
    assert (E : a = rev b ++ rev pre).
    { rewrite <- rev_app_distr, <- Hpre, rev_involutive. reflexivity. }
    pose proof (lstrip_clean field) as Ha. fold a in Ha.
    destruct (rev b) eqn:R; [exact I|]. rewrite E in Ha. exact Ha.
Qed.

(** X12 at work: blanks and stray commas around two addresses. *)
Lemma X12_witness :
  In (lit "b@x.com") (parse_list (lit " a@x.com ,, b@x.com ,")) /\
  strip (lit "b@x.com") = lit "b@x.com" /\
  ~ In 44%N (lit "b@x.com").
Proof.
  assert (H : In (lit "b@x.com") (parse_list (lit " a@x.com ,, b@x.com ,")))
    by (vm_compute; right; left; reflexivity).
  destruct (X12_parsed_entries_are_clean (lit " a@x.com ,, b@x.com ,")
              (lit "b@x.com") H) as (_ & Hc & Hs & _).
  split; [exact H|]. split; [exact Hs | exact Hc].
Defined.

(* ===================================================================== *)
(** ** Listing a directory *)
(* ===================================================================== *)

(** The loop of the listing gets to its end when every regular file has
    a size, and then it has an entry for each of them, in order. *)
Lemma scan_complete w d directory items :
  (forall item, In item items -> regular w directory item = true ->
                exists size,
                  os_path_getsize d (os_path_join w directory item) = inr size) ->
  forall files,
    ServerFiles.scan w d directory items files
    = inr (files ++ map (entry_for w d directory)
                        (filter (regular w directory) items)).
Proof.
  induction items as [|item rest IH]; intros Hs files.
  - simpl. rewrite app_nil_r. reflexivity.
  - cbn [ServerFiles.scan filter]. cbv zeta.
    change (os_path_isfile w (os_path_join w directory item))
      with (regular w directory item).
    destruct (regular w directory item) eqn:E.
    + destruct (Hs item (or_introl eq_refl) E) as [size Hsize].
      rewrite Hsize. rewrite IH by (intros; apply Hs; simpl; auto).
      cbn [map]. unfold entry_for at 2, size_of. rewrite Hsize.
      rewrite <- app_assoc. reflexivity.
    + apply IH. intros; apply Hs; simpl; auto.
Qed.

(** The loop stops at the first regular file whose size cannot be read,
    wherever it comes in the directory. *)
Lemma scan_stops w d directory items :
  (exists item, In item items /\ regular w directory item = true /\
                exists e,
                  os_path_getsize d (os_path_join w directory item) = inl e) ->
  forall files, exists e, ServerFiles.scan w d directory items files = inl e.
Proof.
  induction items as [|item rest IH]; intros (x & Hin & Hr & e & He) files.
  - destruct Hin.
  - cbn [ServerFiles.scan]. cbv zeta.
    destruct (os_path_isfile w (os_path_join w directory item)) eqn:E.
    + destruct (os_path_getsize d (os_path_join w directory item)) eqn:G;
        [eauto|].
      apply IH. destruct Hin as [<-|Hin]; [congruence | eauto 6].
    + apply IH. destruct Hin as [<-|Hin]; [|eauto 6].
      unfold regular in Hr. congruence.
Qed.

(** X13.  Listing what is not there.  [list_attachments] never raises: for a
    path that is no directory (the directory of the module standing in
    for an empty argument) it answers "Error: Directory not found: ...";
    when the directory cannot be read, or the size of any one regular
    file in it cannot be read, be it the first or one beyond the twenty
    that are shown, the whole listing is "Error listing directory: ...". *)
Theorem X13_listing_fails_as_a_whole w d directory :
  (os_path_isdir d (listed_directory w directory) = false ->
   ServerFiles.list_attachments w d directory
   = lit "Error: Directory not found: " ++ listed_directory w directory) /\
  (os_path_isdir d (listed_directory w directory) = true ->
   forall e,
     os_listdir d (listed_directory w directory) = inl e ->
     ServerFiles.list_attachments w d directory
     = lit "Error listing directory: " ++ str_of_exn e) /\
  (os_path_isdir d (listed_directory w directory) = true ->
   forall items,
     os_listdir d (listed_directory w directory) = inr items ->
     (exists item,
        In item items /\ regular w (listed_directory w directory) item = true /\
        exists e,
          os_path_getsize d
            (os_path_join w (listed_directory w directory) item) = inl e) ->
     exists e,
       ServerFiles.list_attachments w d directory
       = lit "Error listing directory: " ++ str_of_exn e).
Proof.
  unfold ServerFiles.list_attachments, listed_directory. cbv zeta.
  split; [|split].
  - intros ->. reflexivity.
  - intros -> e He. cbn [negb]. unfold ServerFiles.scan_directory.
    rewrite He. reflexivity.
  - intros -> items Hi Hbad. cbn [negb]. unfold ServerFiles.scan_directory.
    rewrite Hi. destruct (scan_stops w d _ items Hbad []) as [e ->].
    exists e. reflexivity.
Qed.

(** X13 at work: a path that is no directory, a directory that cannot be
    read, and a directory whose second file has no size to read. *)
Lemma X13_witness :
  (os_path_isdir broken_disk (listed_directory offline_world (lit "/nowhere"))
   = false /\
   ServerFiles.list_attachments offline_world broken_disk (lit "/nowhere")
   = lit "Error: Directory not found: /nowhere") /\
  (os_listdir readonly_disk (listed_directory offline_world [])
   = inl (LibraryError (lit "Permission denied")) /\
   ServerFiles.list_attachments offline_world readonly_disk []
   = lit "Error listing directory: Permission denied") /\
  (regular (files_world [lit "/srv/app/a.txt"; lit "/srv/app/b.pdf"])
     (listed_directory
        (files_world [lit "/srv/app/a.txt"; lit "/srv/app/b.pdf"]) [])
     (lit "b.pdf") = true /\
   exists e,
     ServerFiles.list_attachments
       (files_world [lit "/srv/app/a.txt"; lit "/srv/app/b.pdf"])
       broken_disk []
     = lit "Error listing directory: " ++ str_of_exn e).
Proof.
  split; [|split].
  - assert (H : os_path_isdir broken_disk
                  (listed_directory offline_world (lit "/nowhere")) = false)
      by reflexivity.
    split; [exact H|].
    destruct (X13_listing_fails_as_a_whole offline_world broken_disk
                (lit "/nowhere")) as (E & _).
    rewrite (E H). reflexivity.
  - assert (H : os_listdir readonly_disk (listed_directory offline_world [])
                = inl (LibraryError (lit "Permission denied")))
      by reflexivity.
    split; [exact H|].
    destruct (X13_listing_fails_as_a_whole offline_world readonly_disk [])
      as (_ & E & _).
    rewrite (E eq_refl _ H). reflexivity.
  - assert (H : regular
                  (files_world [lit "/srv/app/a.txt"; lit "/srv/app/b.pdf"])
                  (listed_directory
                     (files_world [lit "/srv/app/a.txt"; lit "/srv/app/b.pdf"])
                     [])
                  (lit "b.pdf") = true) by reflexivity.
    split; [exact H|].
    destruct (X13_listing_fails_as_a_whole
                (files_world [lit "/srv/app/a.txt"; lit "/srv/app/b.pdf"])
                broken_disk []) as (_ & _ & E).
    apply (E eq_refl [lit "a.txt"; lit "b.pdf"] eq_refl).
    exists (lit "b.pdf"). split; [right; left; reflexivity|].
    split; [exact H|].
    exists (LibraryError (lit "Permission denied")). reflexivity.
Defined.


(** X14.  A listing that goes through.  When the directory can be read and
    every regular file in it has a size, the listing has an entry for
    the regular files only (what else is in the directory is left out),
    in the order of the directory; it shows the first twenty and says
    how many more there are, and a directory without a regular file
    gives "No files found in: ...". *)
Theorem X14_listing_shows_twenty_regular_files w d directory items :
  os_path_isdir d (listed_directory w directory) = true ->
  os_listdir d (listed_directory w directory) = inr items ->
  (forall item,
     In item items -> regular w (listed_directory w directory) item = true ->
     exists size,
       os_path_getsize d (os_path_join w (listed_directory w directory) item)
       = inr size) ->
  let files := map (entry_for w d (listed_directory w directory))
                   (filter (regular w (listed_directory w directory)) items) in
  ServerFiles.list_attachments w d directory
  = (if negb (nonempty files)
     then lit "No files found in: " ++ listed_directory w directory
     else lit "Files in " ++ listed_directory w directory ++ lit ":" ++ nl ++ nl
          ++ join (nl ++ nl) (firstn 20 files)
          ++ (if 20 <? length files
              then nl ++ nl ++ lit "... and "
                   ++ str_of_nat (length files - 20) ++ lit " more files"
              else [])) /\
  length (firstn 20 files) = Nat.min 20 (length files) /\
  length (firstn 20 files) + (length files - 20) = length files /\
  length files <= length items.
Proof.
  intros Hd Hi Hs files.
  split; [|split; [|split]].
  - unfold ServerFiles.list_attachments. cbv zeta.
    fold (listed_directory w directory). rewrite Hd. cbn [negb].
    unfold ServerFiles.scan_directory. rewrite Hi.
    rewrite scan_complete by exact Hs. cbn [app]. reflexivity.
  - apply length_firstn.
  - rewrite length_firstn. lia.
  - unfold files. rewrite length_map. apply filter_length_le.
Qed.

(** X14 at work: a directory with a file and a subdirectory. *)
Lemma X14_witness :
  (os_path_isdir (mk_disk [lit "a.txt"; lit "sub"] 1234)
     (listed_directory (files_world [lit "/srv/app/a.txt"]) []) = true /\
   os_listdir (mk_disk [lit "a.txt"; lit "sub"] 1234)
     (listed_directory (files_world [lit "/srv/app/a.txt"]) [])
   = inr [lit "a.txt"; lit "sub"]) /\
  ServerFiles.list_attachments (files_world [lit "/srv/app/a.txt"])
    (mk_disk [lit "a.txt"; lit "sub"] 1234) []
  = lit "Files in /srv/app:" ++ nl ++ nl
    ++ lit "File: a.txt (1,234 bytes)" ++ nl
    ++ lit "   Path: /srv/app/a.txt".
Proof.
  assert (H1 : os_path_isdir (mk_disk [lit "a.txt"; lit "sub"] 1234)
                 (listed_directory (files_world [lit "/srv/app/a.txt"]) [])
               = true) by reflexivity.
  assert (H2 : os_listdir (mk_disk [lit "a.txt"; lit "sub"] 1234)
                 (listed_directory (files_world [lit "/srv/app/a.txt"]) [])
               = inr [lit "a.txt"; lit "sub"]) by reflexivity.
  split; [split; assumption|].
  destruct (X14_listing_shows_twenty_regular_files
              (files_world [lit "/srv/app/a.txt"])
              (mk_disk [lit "a.txt"; lit "sub"] 1234) []
              [lit "a.txt"; lit "sub"] H1 H2) as (E & _).
  - intros item _ _. exists 1234%N. reflexivity.
  - rewrite E. vm_compute. reflexivity.
Defined.

(* ===================================================================== *)
(** ** Saving an upload *)
(* ===================================================================== *)

Lemma split_comma_free path :
  ~ In 44%N path -> split (lit ",") path = [path].
Proof.
  intros H. unfold split. change (lit ",") with [44%N].
  rewrite split_go_whole by exact H. reflexivity.
Qed.

(** A clean absolute path is the one attachment it names. *)
Lemma attachment_list_of_clean_path w path :
  path <> [] -> ~ In 44%N path -> strip path = path ->
  os_path_isabs w path = true ->
  Server.attachment_list_of w path = Some [path].
Proof.
  intros Hne Hc Hs Ha. unfold Server.attachment_list_of.
  rewrite split_comma_free by exact Hc. cbn [map filter].
  rewrite Hs. unfold Server.resolve.
  destruct path as [|c p]; [congruence|].
  cbn [nonempty map]. rewrite Ha. reflexivity.
Qed.

(** X15.  Save, then attach.  When the staging directory is there or can be
    made, the content decodes and the file can be opened,
    [save_temp_file] answers with the text that names the path of the
    file.  That path, given as it is to the mail tool as [attachments]
    (it must be absolute and hold no comma and no white space at its
    ends, the type guessed for it must have a subtype, and the name of
    the file must hold no surrogate, which the header of the part could
    not encode), is found and attached with the content that was saved,
    not reported missing. *)
Theorem X15_saved_file_can_be_attached
    w d filename content (is_base64 : bool) (data : list N) :
  os_path_exists d (Server.temp_dir w) = true \/
  os_makedirs d (Server.temp_dir w) = None ->
  (if is_base64 then base64_b64decode d content else text_bytes d content)
  = inr data ->
  open_for_writing d (Server.saved_path w filename) = None ->
  os_path_isabs w (Server.saved_path w filename) = true ->
  ~ In 44%N (Server.saved_path w filename) ->
  strip (Server.saved_path w filename) = Server.saved_path w filename ->
  Server.saved_path w filename <> [] ->
  (exists maintype subtype,
     split1 (lit "/") (Server.content_type w (Server.saved_path w filename))
     = [maintype; subtype]) ->
  utf8_encode_error (os_path_basename w (Server.saved_path w filename))
  = None ->
  exists w' d' maintype subtype,
    ServerFiles.save_temp_file w d filename content is_base64
    = (ServerFiles.saved_text d filename (Server.saved_path w filename)
         (N.of_nat (length data)), (w', d')) /\
    occurs_in (lit "Path: " ++ Server.saved_path w filename ++ nl)
      (ServerFiles.saved_text d filename (Server.saved_path w filename)
         (N.of_nat (length data))) /\
    Server.attachment_list_of w' (Server.saved_path w filename)
    = Some [Server.saved_path w filename] /\
    Server.prepare w' (Server.attachment_list_of w' (Server.saved_path w filename))
    = inr ([FilePart maintype subtype data
              (os_path_basename w (Server.saved_path w filename))],
           [os_path_basename w (Server.saved_path w filename)], []).
Proof.
  intros Hdir Hdata Hopen Habs Hcomma Hstrip Hne (maintype & subtype & Htype)
    Hname.
  set (path := Server.saved_path w filename) in *.
  set (d1 := if negb (os_path_exists d (Server.temp_dir w))
             then dir_made d (Server.temp_dir w) else d).
  assert (D1 : open_for_writing d1 = open_for_writing d /\
               base64_b64decode d1 = base64_b64decode d /\
               text_bytes d1 = text_bytes d).
  { unfold d1. destruct (negb _); repeat split; reflexivity. }
  destruct D1 as (Do & Db & Dt).
  exists (world_with_file w path data), (disk_with_file d1 path data),
         maintype, subtype.
  assert (Run : ServerFiles.save_try w d filename content is_base64
                = (inr (path, N.of_nat (length data)),
                   (world_with_file w path data, disk_with_file d1 path data))).
  { unfold ServerFiles.save_try. cbv zeta.
    change (os_path_join w (Server.temp_dir w) filename) with path.
    assert (M : (if negb (os_path_exists d (Server.temp_dir w))
                 then os_makedirs d (Server.temp_dir w) else None) = None).
    { destruct Hdir as [-> | ->]; [reflexivity|].
      destruct (negb _); reflexivity. }
    rewrite M. fold d1.
    assert (G : os_path_getsize (disk_with_file d1 path data) path
                = inr (N.of_nat (length data))).
    { cbn [disk_with_file os_path_getsize]. rewrite str_eqb_refl. reflexivity. }
    destruct is_base64.
    - rewrite Db, Hdata, Do, Hopen, G. reflexivity.
    - rewrite Do, Hopen, Dt, Hdata, G. reflexivity. }
  split.
  { unfold ServerFiles.save_temp_file. rewrite Run. reflexivity. }
  split.
  { unfold ServerFiles.saved_text, occurs_in.
    exists (check_mark ++ lit " File saved successfully!" ++ nl ++ nl
            ++ lit "File: " ++ filename ++ nl
            ++ lit "Size: "
            ++ ServerFiles.size_str d (N.of_nat (length data)) ++ nl).
    eexists. repeat rewrite <- app_assoc. reflexivity. }
  assert (L : Server.attachment_list_of (world_with_file w path data) path
              = Some [path]).
  { apply attachment_list_of_clean_path; assumption. }
  split; [exact L|].
  rewrite L. unfold Server.prepare. cbn [truthy or_nil].
  cbn [Server.attach_files].
  assert (F : os_path_isfile (world_with_file w path data) path = true).
  { cbn [world_with_file os_path_isfile]. rewrite str_eqb_refl. reflexivity. }
  rewrite F. cbn [negb].
  change (Server.content_type (world_with_file w path data) path)
    with (Server.content_type w path).
  rewrite Htype.
  assert (R : read_binary (world_with_file w path data) path = inr data).
  { cbn [world_with_file read_binary]. rewrite str_eqb_refl. reflexivity. }
  rewrite R. cbv zeta.
  change (os_path_basename (world_with_file w path data) path)
    with (os_path_basename w path).
  rewrite Hname. reflexivity.
Qed.

(** X15 at work: two bytes saved from base64, then attached. *)
Lemma X15_witness :
  (os_makedirs (mk_disk [] 0) (Server.temp_dir offline_world) = None /\
   base64_b64decode (mk_disk [] 0) (lit "aGk=") = inr [104%N; 105%N] /\
   open_for_writing (mk_disk [] 0)
     (Server.saved_path offline_world (lit "hi.txt")) = None /\
   os_path_isabs offline_world
     (Server.saved_path offline_world (lit "hi.txt")) = true /\
   strip (Server.saved_path offline_world (lit "hi.txt"))
   = Server.saved_path offline_world (lit "hi.txt")) /\
  exists w' d',
    snd (ServerFiles.save_temp_file offline_world (mk_disk [] 0)
           (lit "hi.txt") (lit "aGk=") true) = (w', d') /\
    Server.prepare w'
      (Server.attachment_list_of w'
         (lit "/srv/app/temp_attachments/hi.txt"))
    = inr ([FilePart (lit "application") (lit "octet-stream")
              [104%N; 105%N] (lit "hi.txt")],
           [lit "hi.txt"], []).
Proof.
  assert (H1 : os_makedirs (mk_disk [] 0) (Server.temp_dir offline_world) = None)
    by reflexivity.
  assert (H2 : base64_b64decode (mk_disk [] 0) (lit "aGk=")
               = inr [104%N; 105%N]) by reflexivity.
  assert (H3 : open_for_writing (mk_disk [] 0)
                 (Server.saved_path offline_world (lit "hi.txt")) = None)
    by reflexivity.
  assert (H4 : os_path_isabs offline_world
                 (Server.saved_path offline_world (lit "hi.txt")) = true)
    by reflexivity.
  assert (H5 : ~ In 44%N (Server.saved_path offline_world (lit "hi.txt"))).
  { intros H. assert (E : existsb (N.eqb 44)
                            (Server.saved_path offline_world (lit "hi.txt"))
                          = true).
    { apply existsb_exists. exists 44%N. split; [exact H | reflexivity]. }
    vm_compute in E. discriminate. }
  assert (H6 : strip (Server.saved_path offline_world (lit "hi.txt"))
               = Server.saved_path offline_world (lit "hi.txt"))
    by (vm_compute; reflexivity).
  assert (H7 : Server.saved_path offline_world (lit "hi.txt") <> [])
    by (vm_compute; discriminate).
  assert (H8 : exists maintype subtype,
             split1 (lit "/")
               (Server.content_type offline_world
                  (Server.saved_path offline_world (lit "hi.txt")))
             = [maintype; subtype]).
  { exists (lit "application"), (lit "octet-stream"). vm_compute. reflexivity. }
  assert (H9 : utf8_encode_error
                 (os_path_basename offline_world
                    (Server.saved_path offline_world (lit "hi.txt"))) = None)
    by (vm_compute; reflexivity).
  split; [repeat split; assumption|].
  destruct (X15_saved_file_can_be_attached offline_world (mk_disk [] 0)
              (lit "hi.txt") (lit "aGk=") true [104%N; 105%N]
              (or_intror H1) H2 H3 H4 H5 H6 H7 H8 H9)
    as (w' & d' & maintype & subtype & E & _ & _ & P).
  exists w', d'. split; [rewrite E; reflexivity|].
  change (lit "/srv/app/temp_attachments/hi.txt")
    with (Server.saved_path offline_world (lit "hi.txt")).
  rewrite P. clear - P E.
  vm_compute in E. inversion E; subst w'. clear E.
  vm_compute in P. inversion P. reflexivity.
Defined.

Lemma str_eqb_neq (a b : str) : a <> b -> str_eqb a b = false.
Proof.
  intros H. destruct (str_eqb a b) eqn:E; [|reflexivity].
  apply str_eqb_eq in E. contradiction.
Qed.

(** X16.  What a save touches, and what a failed save leaves behind.
    [save_temp_file] always answers with a text: the text of a saved
    file, or "Error saving file: ..." for whatever step failed.  In
    every case it leaves the files other than the one it was to write
    as they were.  A staging directory that cannot be made, content
    that is not base64, and a file that cannot be opened leave the file
    itself as it was too, and the first of them changes nothing at
    all, while the other two leave the staging directory behind if it
    had to be made.  Text is written after the file was opened, so text
    that cannot be encoded leaves the file behind, empty. *)
Theorem X16_failed_save_is_reported w d filename content is_base64 :
  exists text w' d',
    ServerFiles.save_temp_file w d filename content is_base64
    = (text, (w', d')) /\
    ((exists e, text = lit "Error saving file: " ++ str_of_exn e) \/
     (exists data,
        text = ServerFiles.saved_text d filename (Server.saved_path w filename)
                 (N.of_nat (length data)) /\
        os_path_isfile w' (Server.saved_path w filename) = true /\
        read_binary w' (Server.saved_path w filename) = inr data)) /\
    (forall p, p <> Server.saved_path w filename ->
       os_path_isfile w' p = os_path_isfile w p /\
       read_binary w' p = read_binary w p /\
       os_path_getsize d' p = os_path_getsize d p) /\
    (forall e,
       os_path_exists d (Server.temp_dir w) = false ->
       os_makedirs d (Server.temp_dir w) = Some e ->
       text = lit "Error saving file: " ++ str_of_exn e /\ w' = w /\ d' = d) /\
    (forall e,
       os_path_exists d (Server.temp_dir w) = true \/
       os_makedirs d (Server.temp_dir w) = None ->
       is_base64 = true ->
       base64_b64decode d content = inl e ->
       text = lit "Error saving file: " ++ str_of_exn e /\
       w' = w /\ d' = staged w d) /\
    (forall e,
       os_path_exists d (Server.temp_dir w) = true \/
       os_makedirs d (Server.temp_dir w) = None ->
       (is_base64 = true -> exists data, base64_b64decode d content = inr data) ->
       open_for_writing d (Server.saved_path w filename) = Some e ->
       text = lit "Error saving file: " ++ str_of_exn e /\
       w' = w /\ d' = staged w d) /\
    (forall e,
       os_path_exists d (Server.temp_dir w) = true \/
       os_makedirs d (Server.temp_dir w) = None ->
       is_base64 = false ->
       open_for_writing d (Server.saved_path w filename) = None ->
       text_bytes d content = inl e ->
       text = lit "Error saving file: " ++ str_of_exn e /\
       os_path_isfile w' (Server.saved_path w filename) = true /\
       read_binary w' (Server.saved_path w filename) = inr [] /\
       os_path_getsize d' (Server.saved_path w filename) = inr 0%N).
Proof.
  unfold ServerFiles.save_temp_file, ServerFiles.save_try. cbv zeta.
  change (os_path_join w (Server.temp_dir w) filename)
    with (Server.saved_path w filename).
  fold (staged w d).
  set (path := Server.saved_path w filename).
  assert (D1 : open_for_writing (staged w d) = open_for_writing d /\
               base64_b64decode (staged w d) = base64_b64decode d /\
               text_bytes (staged w d) = text_bytes d /\
               os_path_getsize (staged w d) = os_path_getsize d).
  { unfold staged. destruct (negb _); repeat split; reflexivity. }
  destruct D1 as (Do & Db & Dt & Dg). rewrite Do, Db, Dt.
  assert (Same : forall p, p <> path ->
                   os_path_isfile w p = os_path_isfile w p /\
                   read_binary w p = read_binary w p /\
                   os_path_getsize (staged w d) p = os_path_getsize d p).
  { intros p _. rewrite Dg. auto. }
  assert (Other : forall data p, p <> path ->
                    os_path_isfile (world_with_file w path data) p
                    = os_path_isfile w p /\
                    read_binary (world_with_file w path data) p
                    = read_binary w p /\
                    os_path_getsize (disk_with_file (staged w d) path data) p
                    = os_path_getsize d p).
  { intros data p Hp.
    cbn [world_with_file disk_with_file os_path_isfile read_binary
         os_path_getsize].
    rewrite (str_eqb_neq _ _ Hp), Dg. auto. }
  assert (Own : forall data,
                  os_path_isfile (world_with_file w path data) path = true /\
                  read_binary (world_with_file w path data) path = inr data /\
                  os_path_getsize (disk_with_file (staged w d) path data) path
                  = inr (N.of_nat (length data))).
  { intros data.
    cbn [world_with_file disk_with_file os_path_isfile read_binary
         os_path_getsize].
    rewrite str_eqb_refl. auto. }
  destruct (negb (os_path_exists d (Server.temp_dir w))) eqn:Ex.
  - destruct (os_makedirs d (Server.temp_dir w)) as [e0|] eqn:Mk.
    + do 3 eexists. split; [reflexivity|]. split; [left; eauto|].
      split; [auto|].
      split; [intros e _ H; inversion H; auto|].
      apply negb_true_iff in Ex.
      split; [|split]; intros e [H|H]; congruence.
    + apply negb_true_iff in Ex.
      destruct is_base64.
      * destruct (base64_b64decode d content) as [e0|data] eqn:Dec.
        { do 3 eexists. split; [reflexivity|]. split; [left; eauto|].
          split; [exact Same|].
          split; [intros e _ H; discriminate H|].
          split; [intros e _ _ H; inversion H; auto|].
          split; [intros e _ H; destruct (H eq_refl); discriminate|].
          intros e _ H; discriminate H. }
        destruct (open_for_writing d path) as [e0|] eqn:Op.
        { do 3 eexists. split; [reflexivity|]. split; [left; eauto|].
          split; [exact Same|].
          split; [intros e _ H; discriminate H|].
          split; [intros e _ _ H; discriminate H|].
          split; [intros e _ _ H; inversion H; auto|].
          intros e _ H; discriminate H. }
        destruct (Own data) as (O1 & O2 & O3). rewrite O3.
        do 3 eexists. split; [reflexivity|].
        split; [right; exists data; auto|].
        split; [exact (Other data)|].
        split; [intros e _ H; discriminate H|].
        split; [intros e _ _ H; discriminate H|].
        split; [intros e _ _ H; discriminate H|].
        intros e _ H; discriminate H.
      * destruct (open_for_writing d path) as [e0|] eqn:Op.
        { do 3 eexists. split; [reflexivity|]. split; [left; eauto|].
          split; [exact Same|].
          split; [intros e _ H; discriminate H|].
          split; [intros e _ H; discriminate H|].
          split; [intros e _ _ H; inversion H; auto|].
          intros e _ _ H; discriminate H. }
        destruct (text_bytes d content) as [e0|data] eqn:Tb.
        { destruct (Own []) as (O1 & O2 & O3).
          do 3 eexists. split; [reflexivity|]. split; [left; eauto|].
          split; [exact (Other [])|].
          split; [intros e _ H; discriminate H|].
          split; [intros e _ H; discriminate H|].
          split; [intros e _ _ H; discriminate H|].
          intros e _ _ _ H; inversion H; auto. }
        destruct (Own data) as (O1 & O2 & O3). rewrite O3.
        do 3 eexists. split; [reflexivity|].
        split; [right; exists data; auto|].
        split; [exact (Other data)|].
        split; [intros e _ H; discriminate H|].
        split; [intros e _ H; discriminate H|].
        split; [intros e _ _ H; discriminate H|].
        intros e _ _ _ H; discriminate H.
  - apply negb_false_iff in Ex.
    destruct is_base64.
    * destruct (base64_b64decode d content) as [e0|data] eqn:Dec.
      { do 3 eexists. split; [reflexivity|]. split; [left; eauto|].
        split; [exact Same|].
        split; [intros e H; congruence|].
        split; [intros e _ _ H; inversion H; auto|].
        split; [intros e _ H; destruct (H eq_refl); discriminate|].
        intros e _ H; discriminate H. }
      destruct (open_for_writing d path) as [e0|] eqn:Op.
      { do 3 eexists. split; [reflexivity|]. split; [left; eauto|].
        split; [exact Same|].
        split; [intros e H; congruence|].
        split; [intros e _ _ H; discriminate H|].
        split; [intros e _ _ H; inversion H; auto|].
        intros e _ H; discriminate H. }
      destruct (Own data) as (O1 & O2 & O3). rewrite O3.
      do 3 eexists. split; [reflexivity|].
      split; [right; exists data; auto|].
      split; [exact (Other data)|].
      split; [intros e H; congruence|].
      split; [intros e _ _ H; discriminate H|].
      split; [intros e _ _ H; discriminate H|].
      intros e _ H; discriminate H.
    * destruct (open_for_writing d path) as [e0|] eqn:Op.
      { do 3 eexists. split; [reflexivity|]. split; [left; eauto|].
        split; [exact Same|].
        split; [intros e H; congruence|].
        split; [intros e _ H; discriminate H|].
        split; [intros e _ _ H; inversion H; auto|].
        intros e _ _ H; discriminate H. }
      destruct (text_bytes d content) as [e0|data] eqn:Tb.
      { destruct (Own []) as (O1 & O2 & O3).
        do 3 eexists. split; [reflexivity|]. split; [left; eauto|].
        split; [exact (Other [])|].
        split; [intros e H; congruence|].
        split; [intros e _ H; discriminate H|].
        split; [intros e _ _ H; discriminate H|].
        intros e _ _ _ H; inversion H; auto. }
      destruct (Own data) as (O1 & O2 & O3). rewrite O3.
      do 3 eexists. split; [reflexivity|].
      split; [right; exists data; auto|].
      split; [exact (Other data)|].
      split; [intros e H; congruence|].
      split; [intros e _ H; discriminate H|].
      split; [intros e _ _ H; discriminate H|].
      intros e _ _ _ H; discriminate H.
Qed.

(** X16 at work: a staging directory that cannot be made, content that
    is not base64, a file that cannot be opened, and text that cannot
    be encoded. *)
Lemma X16_witness :
  (os_makedirs readonly_disk (Server.temp_dir offline_world)
   = Some (LibraryError (lit "Read-only file system")) /\
   ServerFiles.save_temp_file offline_world readonly_disk (lit "hi.txt")
     (lit "hi") false
   = (lit "Error saving file: Read-only file system",
      (offline_world, readonly_disk))) /\
  (base64_b64decode strict_disk (lit "h")
   = inl (LibraryError (lit "Incorrect padding")) /\
   ServerFiles.save_temp_file offline_world strict_disk (lit "hi.txt")
     (lit "h") true
   = (lit "Error saving file: Incorrect padding",
      (offline_world, strict_disk))) /\
  (text_bytes strict_disk (lit "hi")
   = inl (LibraryError (lit "surrogates not allowed")) /\
   exists w' d',
     ServerFiles.save_temp_file offline_world strict_disk (lit "hi.txt")
       (lit "hi") false
     = (lit "Error saving file: surrogates not allowed", (w', d')) /\
     os_path_isfile w' (lit "/srv/app/temp_attachments/hi.txt") = true /\
     read_binary w' (lit "/srv/app/temp_attachments/hi.txt") = inr [] /\
     os_path_isfile w' (lit "/srv/app/temp_attachments/other.txt") = false).
Proof.
  split; [|split].
  - assert (H : os_makedirs readonly_disk (Server.temp_dir offline_world)
                = Some (LibraryError (lit "Read-only file system")))
      by reflexivity.
    split; [exact H|].
    destruct (X16_failed_save_is_reported offline_world readonly_disk
                (lit "hi.txt") (lit "hi") false)
      as (text & w' & d' & E & _ & _ & Hm & _).
    destruct (Hm _ eq_refl H) as (-> & -> & ->). exact E.
  - assert (H : base64_b64decode strict_disk (lit "h")
                = inl (LibraryError (lit "Incorrect padding")))
      by reflexivity.
    split; [exact H|].
    destruct (X16_failed_save_is_reported offline_world strict_disk
                (lit "hi.txt") (lit "h") true)
      as (text & w' & d' & E & _ & _ & _ & Hd & _).
    destruct (Hd _ (or_introl eq_refl) eq_refl H) as (-> & -> & ->). exact E.
  - assert (H : text_bytes strict_disk (lit "hi")
                = inl (LibraryError (lit "surrogates not allowed")))
      by reflexivity.
    split; [exact H|].
    destruct (X16_failed_save_is_reported offline_world strict_disk
                (lit "hi.txt") (lit "hi") false)
      as (text & w' & d' & E & _ & Hfr & _ & _ & _ & Ht).
    destruct (Ht _ (or_introl eq_refl) eq_refl eq_refl H)
      as (-> & Hf & Hr & _).
    exists w', d'. split; [exact E|]. split; [exact Hf|]. split; [exact Hr|].
    destruct (Hfr (lit "/srv/app/temp_attachments/other.txt")) as (-> & _).
    + vm_compute. discriminate.
    + reflexivity.
Defined.
